(** * A shallow embedding of the redbtn-io/ai orchestration runtime

    The development follows the TypeScript sources file by file.  Each
    module below embeds one source file (or one function of it); the
    theorems about them come after all the definitions.

    Conventions of the embedding:
    - a JavaScript string is a [string] of 8-bit characters (the ASCII
      fragment of UTF-16 code units);
    - the condition evaluator and the template renderer work on
      whatever a state holds; their embeddings ([Evaluator],
      [Rendering]) take the host's operations on values (property
      reads, comparisons, conversions) as a parameter, an [Engine],
      and what is proved of them holds for every host;
    - where the code works on JSON data, a JavaScript value is a
      [JsValue]: an object is the association list of its own
      properties in [Object.keys] order, and a number is a finite
      decimal [mant / 10 ^ expo].  [ConditionEvaluator] and
      [TemplateRenderer] are the evaluator and the renderer on such
      data: [Evaluator] and [Rendering] at the sample host [DataHost],
      which reads own properties only and never raises;
    - a function that may throw returns a [Result];
    - code that talks to the outside (the language-model stream, the
      tool children, the database) threads an explicit trace of the
      calls it makes. *)

From Stdlib Require Import String Ascii List ZArith Lia Bool DecimalString.
Import ListNotations.
Open Scope string_scope.

Set Warnings "-register-all".

(** ** Results of code that may throw *)

Inductive Result (E A : Type) : Type :=
| Ok (a : A)
| Throw (e : E).

Arguments Ok {E A} a.
Arguments Throw {E A} e.

Definition bindR {E A B} (r : Result E A) (k : A -> Result E B) : Result E B :=
  match r with
  | Ok a => k a
  | Throw e => Throw e
  end.

(** ** String primitives of the host language *)

Module Str.

Definition is_ws (c : ascii) : bool :=
  let n := nat_of_ascii c in
  (n =? 32)%nat || ((9 <=? n)%nat && (n <=? 13)%nat).

Definition is_digit (c : ascii) : bool :=
  let n := nat_of_ascii c in (48 <=? n)%nat && (n <=? 57)%nat.

(** The regular-expression class [\w]: [A-Za-z0-9_]. *)
Definition is_word_char (c : ascii) : bool :=
  let n := nat_of_ascii c in
  ((48 <=? n)%nat && (n <=? 57)%nat)
  || ((65 <=? n)%nat && (n <=? 90)%nat)
  || ((97 <=? n)%nat && (n <=? 122)%nat)
  || (n =? 95)%nat.

(** The characters the regular-expression dot refuses. *)
Definition is_line_terminator (c : ascii) : bool :=
  let n := nat_of_ascii c in (n =? 10)%nat || (n =? 13)%nat.

Fixpoint forallb_str (p : ascii -> bool) (s : string) : bool :=
  match s with
  | EmptyString => true
  | String c s' => p c && forallb_str p s'
  end.

Definition is_empty (s : string) : bool :=
  match s with EmptyString => true | _ => false end.

(** [s.startsWith(p)] *)
Fixpoint startsWith (p s : string) : bool :=
  match p with
  | EmptyString => true
  | String a p' =>
      match s with
      | EmptyString => false
      | String b s' => Ascii.eqb a b && startsWith p' s'
      end
  end.

Fixpoint rev_onto (s acc : string) : string :=
  match s with
  | EmptyString => acc
  | String c s' => rev_onto s' (String c acc)
  end.

Definition rev (s : string) : string := rev_onto s EmptyString.

(** [s.endsWith(p)] *)
Definition endsWith (p s : string) : bool := startsWith (rev p) (rev s).

(** [s.includes(needle)] *)
Fixpoint includes (needle s : string) : bool :=
  if startsWith needle s then true
  else match s with
       | EmptyString => false
       | String _ s' => includes needle s'
       end.

Fixpoint trimStart (s : string) : string :=
  match s with
  | EmptyString => EmptyString
  | String c s' => if is_ws c then trimStart s' else s
  end.

Fixpoint trimEnd (s : string) : string :=
  match s with
  | EmptyString => EmptyString
  | String c s' =>
      let r := trimEnd s' in
      if is_ws c && is_empty r then EmptyString else String c r
  end.

(** [s.trim()] *)
Definition trim (s : string) : string := trimEnd (trimStart s).

Fixpoint drop (n : nat) (s : string) : string :=
  match n, s with
  | O, _ => s
  | S n', String _ s' => drop n' s'
  | S _, EmptyString => EmptyString
  end.

Definition dropEnd (n : nat) (s : string) : string := rev (drop n (rev s)).

(** [s.slice(a, -b)] for literal non-negative [a] and [b]. *)
Definition slice_inner (a b : nat) (s : string) : string := dropEnd b (drop a s).

(** [s.split(sep)] for a one-character separator: never the empty list. *)
Fixpoint split (sep : ascii) (s : string) : list string :=
  match s with
  | EmptyString => [EmptyString]
  | String c s' =>
      if Ascii.eqb c sep then EmptyString :: split sep s'
      else match split sep s' with
           | [] => [String c EmptyString]
           | p :: ps => String c p :: ps
           end
  end.

(** The text before the first [sep] and the text after it; [None] when
    [sep] does not occur. *)
Fixpoint cut (sep : ascii) (s : string) : option (string * string) :=
  match s with
  | EmptyString => None
  | String c s' =>
      if Ascii.eqb c sep then Some (EmptyString, s')
      else match cut sep s' with
           | Some (l, r) => Some (String c l, r)
           | None => None
           end
  end.

Fixpoint join (sep : string) (l : list string) : string :=
  match l with
  | [] => EmptyString
  | [x] => x
  | x :: rest => x ++ sep ++ join sep rest
  end.

Definition mem (x : string) (l : list string) : bool :=
  existsb (String.eqb x) l.

End Str.

(** ** Values of the host language *)

Module Js.

(** A finite decimal: [mant / 10 ^ expo]. *)
Record JsNumber : Type := mkNum { mant : Z; expo : nat }.

Inductive JsValue : Type :=
| JUndefined
| JNull
| JBool (b : bool)
| JNum (n : JsNumber)
| JStr (s : string)
| JArr (elems : list JsValue)
| JObj (fields : list (string * JsValue)).

Definition num_of_Z (z : Z) : JsNumber := mkNum z 0.
Definition num_of_nat (n : nat) : JsNumber := mkNum (Z.of_nat n) 0.

Definition num_eqb (a b : JsNumber) : bool :=
  (mant a * 10 ^ Z.of_nat (expo b) =? mant b * 10 ^ Z.of_nat (expo a))%Z.

Definition num_ltb (a b : JsNumber) : bool :=
  (mant a * 10 ^ Z.of_nat (expo b) <? mant b * 10 ^ Z.of_nat (expo a))%Z.

(** Drop the trailing zeros of the fraction. *)
Fixpoint num_normalize (m : Z) (e : nat) : JsNumber :=
  match e with
  | O => mkNum m 0
  | S e' => if (m mod 10 =? 0)%Z then num_normalize (m / 10) e' else mkNum m e
  end.

Definition digits_of_Z (z : Z) : string :=
  NilZero.string_of_uint (N.to_uint (Z.to_N z)).

Fixpoint zeros (n : nat) : string :=
  match n with
  | O => EmptyString
  | S n' => String "0" (zeros n')
  end.

Definition pad_zeros (width : nat) (s : string) : string :=
  zeros (width - String.length s) ++ s.

(** [String(n)] in positional notation. *)
Definition num_to_string (n : JsNumber) : string :=
  let n' := num_normalize (mant n) (expo n) in
  let a := Z.abs (mant n') in
  let p := (10 ^ Z.of_nat (expo n'))%Z in
  let sign := if (mant n' <? 0)%Z then "-" else "" in
  match expo n' with
  | O => sign ++ digits_of_Z a
  | S _ => sign ++ digits_of_Z (a / p) ++ "." ++ pad_zeros (expo n') (digits_of_Z (a mod p))
  end.

Fixpoint digits_value (s : string) (acc : Z) : Z :=
  match s with
  | EmptyString => acc
  | String c s' => digits_value s' (acc * 10 + Z.of_nat (nat_of_ascii c - 48))%Z
  end.

Definition all_digits (s : string) : bool :=
  negb (Str.is_empty s) && Str.forallb_str Str.is_digit s.

(** The regular expression [/^-?\d+(\.\d+)?$/] followed by [parseFloat]
    on the matched text; [None] when the text does not match. *)
Definition parse_decimal (s : string) : option JsNumber :=
  let '(neg, body) :=
    match s with
    | String "-" r => (true, r)
    | _ => (false, s)
    end in
  let sgn (z : Z) := if neg then (- z)%Z else z in
  match Str.cut "." body with
  | None =>
      if all_digits body then Some (mkNum (sgn (digits_value body 0)) 0) else None
  | Some (ip, fp) =>
      if all_digits ip && all_digits fp
      then Some (mkNum (sgn (digits_value (ip ++ fp) 0)) (String.length fp))
      else None
  end.

(** [Boolean(v)] *)
Definition truthy (v : JsValue) : bool :=
  match v with
  | JUndefined | JNull => false
  | JBool b => b
  | JNum n => negb (mant n =? 0)%Z
  | JStr s => negb (Str.is_empty s)
  | JArr _ | JObj _ => true
  end.

(** [String(v)]: an array joins its elements with commas, [null] and
    [undefined] elements printing as nothing; a plain object prints as
    [[object Object]]. *)
Fixpoint toString (v : JsValue) : string :=
  match v with
  | JUndefined => "undefined"
  | JNull => "null"
  | JBool true => "true"
  | JBool false => "false"
  | JNum n => num_to_string n
  | JStr s => s
  | JArr l =>
      Str.join ","
        (map (fun e => match e with
                       | JUndefined | JNull => ""
                       | _ => toString e
                       end) l)
  | JObj _ => "[object Object]"
  end.

Definition is_object (v : JsValue) : bool :=
  match v with
  | JArr _ | JObj _ => true
  | _ => false
  end.

(** [typeof v === 'object'], which [null] satisfies too. *)
Definition typeof_object (v : JsValue) : bool :=
  match v with
  | JNull | JArr _ | JObj _ => true
  | _ => false
  end.

Fixpoint lookup {A} (k : string) (l : list (string * A)) : option A :=
  match l with
  | [] => None
  | (k', v) :: rest => if String.eqb k' k then Some v else lookup k rest
  end.

Definition hasOwn {A} (k : string) (l : list (string * A)) : bool :=
  match lookup k l with Some _ => true | None => false end.

Definition keys {A} (l : list (string * A)) : list string := map fst l.

(** The property names every object inherits from [Object.prototype]:
    [k in o] holds and [o[k]] is defined for each of them, whatever the
    own properties of [o]. *)
Definition OBJECT_PROTOTYPE : list string :=
  ["constructor"; "__defineGetter__"; "__defineSetter__"; "hasOwnProperty";
   "__lookupGetter__"; "__lookupSetter__"; "isPrototypeOf";
   "propertyIsEnumerable"; "toString"; "valueOf"; "__proto__";
   "toLocaleString"].

(** [o[k] = v] on the own properties: an existing key keeps its place. *)
Fixpoint set {A} (k : string) (v : A) (l : list (string * A)) : list (string * A) :=
  match l with
  | [] => [(k, v)]
  | (k', v') :: rest =>
      if String.eqb k' k then (k, v) :: rest else (k', v') :: set k v rest
  end.

(** A canonical array index: [0], or digits without a leading zero. *)
Definition array_index (k : string) : option nat :=
  match k with
  | String "0" EmptyString => Some O
  | String "0" _ => None
  | _ => if all_digits k then Some (Z.to_nat (digits_value k 0)) else None
  end.

(** The array index a key stands for: a canonical index below
    [2 ^ 32 - 1]. *)
Definition index_of_key (k : string) : option Z :=
  let canonical :=
    match k with
    | String "0" EmptyString => true
    | String "0" _ => false
    | _ => all_digits k
    end in
  if canonical && (digits_value k 0 <? 4294967295)%Z
  then Some (digits_value k 0) else None.

(** The place of a new key among the own keys: the keys that are
    array indices come first, in ascending order, and the others
    follow in the order of their creation. *)
Fixpoint insertKey {A} (k : string) (v : A) (l : list (string * A)) : list (string * A) :=
  match l with
  | [] => [(k, v)]
  | (k', v') :: rest =>
      match index_of_key k, index_of_key k' with
      | Some n, Some n' =>
          if (n <? n')%Z then (k, v) :: l else (k', v') :: insertKey k v rest
      | Some _, None => (k, v) :: l
      | None, _ => (k', v') :: insertKey k v rest
      end
  end.

(** [o[k] = v] on the own properties of a plain object, for a key
    other than an inherited [__proto__]: an existing key keeps its
    place, a new one takes its place in the order of the keys. *)
Definition put {A} (k : string) (v : A) (l : list (string * A)) : list (string * A) :=
  if hasOwn k l then set k v l else insertKey k v l.

(** [v[k]] on JSON data, for a value that is neither [null] nor
    [undefined]: the own properties of an object, the elements and the
    length of an array or a string.  What a value inherits is not
    data and is not read here. *)
Definition getProp (v : JsValue) (k : string) : JsValue :=
  match v with
  | JObj fields =>
      match lookup k fields with Some x => x | None => JUndefined end
  | JArr l =>
      if String.eqb k "length" then JNum (num_of_nat (List.length l))
      else match array_index k with
           | Some i => nth i l JUndefined
           | None => JUndefined
           end
  | JStr s =>
      if String.eqb k "length" then JNum (num_of_nat (String.length s))
      else match array_index k with
           | Some i =>
               match String.get i s with
               | Some c => JStr (String c EmptyString)
               | None => JUndefined
               end
           | None => JUndefined
           end
  | _ => JUndefined
  end.

(** [ToPrimitive]: objects and arrays go through [toString]. *)
Definition toPrimitive (v : JsValue) : JsValue :=
  match v with
  | JArr _ | JObj _ => JStr (toString v)
  | _ => v
  end.

(** [ToNumber] of a primitive; [None] is [NaN].  Of the numeric string
    forms only the decimal one with at most one sign is read. *)
Definition toNumber (v : JsValue) : option JsNumber :=
  match v with
  | JUndefined => None
  | JNull => Some (num_of_Z 0)
  | JBool b => Some (num_of_Z (if b then 1 else 0))
  | JNum n => Some n
  | JStr s =>
      let t := Str.trim s in
      if Str.is_empty t then Some (num_of_Z 0)
      else match t with
           | String "+" (String "-" _) => None
           | String "+" r => parse_decimal r
           | _ => parse_decimal t
           end
  | _ => None
  end.

(** The abstract relational comparison [a < b]; [None] is the
    undefined outcome (a [NaN] operand). *)
Definition lessThan (a b : JsValue) : option bool :=
  match toPrimitive a, toPrimitive b with
  | JStr x, JStr y => Some (String.ltb x y)
  | pa, pb =>
      match toNumber pa, toNumber pb with
      | Some x, Some y => Some (num_ltb x y)
      | _, _ => None
      end
  end.

Definition js_lt (a b : JsValue) : bool :=
  match lessThan a b with Some r => r | None => false end.
Definition js_gt (a b : JsValue) : bool := js_lt b a.
Definition js_le (a b : JsValue) : bool :=
  match lessThan b a with Some r => negb r | None => false end.
Definition js_ge (a b : JsValue) : bool :=
  match lessThan a b with Some r => negb r | None => false end.

(** [a === b].  Two objects are equal only when they are the same
    reference; the evaluators below never compare a value with itself,
    so objects compare unequal. *)
Definition strictEq (a b : JsValue) : bool :=
  match a, b with
  | JUndefined, JUndefined => true
  | JNull, JNull => true
  | JBool x, JBool y => Bool.eqb x y
  | JNum x, JNum y => num_eqb x y
  | JStr x, JStr y => String.eqb x y
  | _, _ => false
  end.

End Js.

(** ** The values of a state, as the host language has them *)

Module HostValues.

(** The relational operators [<], [>], [<=] and [>=]. *)
Inductive Relation : Type := Less | Greater | LessEq | GreaterEq.

(** What the condition evaluator and the template renderer ask of the
    host language about the values they meet.  [V] is the type of the
    values a state can hold (objects with what they inherit, functions,
    numbers as the host has them), [X] the type of what the host
    throws.  The fields are, in the order given: [undefined], [null],
    a boolean and a string as values, [parseFloat(text)],
    [Boolean(v)], [typeof v === 'object'], [a === b], [v[key]] for a
    [v] that is neither [null] nor [undefined], [a < b] and the like,
    [String(v)] and [JSON.stringify(v)] ([None] when it answers
    [undefined]).  A property read, a comparison and the two
    conversions may throw. *)
Record Engine (V X : Type) : Type := mkEngine {
  undefinedValue : V;
  nullValue : V;
  booleanValue : bool -> V;
  stringValue : string -> V;
  parseFloat : string -> V;
  isTruthy : V -> bool;
  typeofObject : V -> bool;
  strictEquals : V -> V -> bool;
  getProperty : V -> string -> Result X V;
  relational : Relation -> V -> V -> Result X bool;
  stringOf : V -> Result X string;
  jsonStringify : V -> Result X (option string)
}.

Arguments undefinedValue {V X} _.
Arguments nullValue {V X} _.
Arguments booleanValue {V X} _ _.
Arguments stringValue {V X} _ _.
Arguments parseFloat {V X} _ _.
Arguments isTruthy {V X} _ _.
Arguments typeofObject {V X} _ _.
Arguments strictEquals {V X} _ _ _.
Arguments getProperty {V X} _ _ _.
Arguments relational {V X} _ _ _ _.
Arguments stringOf {V X} _ _.
Arguments jsonStringify {V X} _ _.

Section Values.
Context {V X : Type} (E : Engine V X).

(** [v === undefined] *)
Definition isUndefined (v : V) : bool := strictEquals E v (undefinedValue E).

(** [v === null] *)
Definition isNull (v : V) : bool := strictEquals E v (nullValue E).

End Values.

End HostValues.

(** ** src/lib/graphs/conditionEvaluator.ts (second part of
       src/src/lib/graphs/GraphRegistry.ts) *)

Module ConditionEvaluator.
Import Js.

Definition END : string := "__end__".
Definition FALLBACK_KEY : string := "__fallback__".

(** The double-quote character, as a one-character string. *)
Definition dquote : string := String (ascii_of_nat 34) EmptyString.

(** [targets?: Record<string, string>], in [Object.keys] order. *)
Definition Targets : Type := list (string * string).

(** PATH, the expression [\w+(\.\w+)*], against a whole string. *)
Definition is_path (s : string) : bool :=
  forallb
    (fun seg => negb (Str.is_empty seg) && Str.forallb_str Str.is_word_char seg)
    (Str.split "." s).

(** [/^state\.(PATH)$/]: the captured path. *)
Definition match_state_path (s : string) : option string :=
  if Str.startsWith "state." s
  then let p := Str.drop 6 s in if is_path p then Some p else None
  else None.

Inductive CmpOp : Type := OpSeq | OpSne | OpGt | OpLt | OpGe | OpLe.

(** [(===|!==|>|<|>=|<=)] against a whole token. *)
Definition parse_cmp_op (s : string) : option CmpOp :=
  if String.eqb s "===" then Some OpSeq
  else if String.eqb s "!==" then Some OpSne
  else if String.eqb s ">" then Some OpGt
  else if String.eqb s "<" then Some OpLt
  else if String.eqb s ">=" then Some OpGe
  else if String.eqb s "<=" then Some OpLe
  else None.

(** [(<|>|<=|>=)] against a whole token. *)
Definition parse_rel_op (s : string) : option CmpOp :=
  if String.eqb s "<" then Some OpLt
  else if String.eqb s ">" then Some OpGt
  else if String.eqb s "<=" then Some OpLe
  else if String.eqb s ">=" then Some OpGe
  else None.

(** [.+] against a whole string. *)
Definition is_dot_plus (s : string) : bool :=
  negb (Str.is_empty s)
  && Str.forallb_str (fun c => negb (Str.is_line_terminator c)) s.

(** [/^state\.(PATH) (===|!==|>|<|>=|<=) (.+)$/].  Neither a
    path nor an operator holds a space, so the path ends at the first
    space and the operator at the second. *)
Definition match_comparison (s : string) : option (string * CmpOp * string) :=
  match Str.cut " " s with
  | Some (l, r) =>
      match match_state_path l, Str.cut " " r with
      | Some p, Some (o, v) =>
          match parse_cmp_op o with
          | Some op => if is_dot_plus v then Some (p, op, v) else None
          | None => None
          end
      | _, _ => None
      end
  | None => None
  end.

(** [/^state\.(PATH) <op> state\.(PATH)$/] for the two-character operator
    [op] ([&&] or [||]). *)
Definition match_logical (op : string) (s : string) : option (string * string) :=
  match Str.cut " " s with
  | Some (l, r) =>
      if Str.startsWith (op ++ " ") r
      then match match_state_path l, match_state_path (Str.drop 3 r) with
           | Some p1, Some p2 => Some (p1, p2)
           | _, _ => None
           end
      else None
  | None => None
  end.

(** [/^state\.(PATH) && state\.(PATH) (<|>|<=|>=) state\.(PATH)$/] *)
Definition match_complex (s : string) : option (string * string * CmpOp * string) :=
  match Str.cut " " s with
  | Some (l, r) =>
      if Str.startsWith "&& " r
      then match Str.cut " " (Str.drop 3 r) with
           | Some (l2, r2) =>
               match Str.cut " " r2 with
               | Some (o, l3) =>
                   match match_state_path l, match_state_path l2,
                         parse_rel_op o, match_state_path l3 with
                   | Some p1, Some p2, Some op, Some p3 => Some (p1, p2, op, p3)
                   | _, _, _, _ => None
                   end
               | None => None
               end
           | None => None
           end
      else None
  | None => None
  end.

Definition is_some {A} (o : option A) : bool :=
  match o with Some _ => true | None => false end.

Definition dangerousKeywords : list string :=
  ["eval"; "Function"; "constructor"; "__proto__"; "prototype"].

Definition hasDangerousKeyword (trimmed : string) : bool :=
  existsb (fun keyword => Str.includes keyword trimmed) dangerousKeywords.

Definition matchesSafePattern (trimmed : string) : bool :=
  is_some (match_state_path trimmed)
  || is_path trimmed
  || is_some (match_comparison trimmed)
  || is_some (match_logical "&&" trimmed)
  || is_some (match_logical "||" trimmed)
  || is_some (match_complex trimmed).

Definition isSafeExpression (expr : string) : bool :=
  let trimmed := Str.trim expr in
  let isSafe := matchesSafePattern trimmed in
  isSafe && negb (hasDangerousKeyword trimmed).

Fixpoint walk (parts : list string) (current : JsValue) : JsValue :=
  match parts with
  | [] => current
  | part :: rest =>
      match current with
      | JNull | JUndefined => JUndefined
      | _ => walk rest (getProp current part)
      end
  end.

Definition getNestedProperty (obj : JsValue) (path : string) : JsValue :=
  if negb (truthy obj) || negb (typeof_object obj) then JUndefined
  else walk (Str.split "." path) obj.

Definition parseValue (value : string) : JsValue :=
  let trimmed := Str.trim value in
  if (Str.startsWith "'" trimmed && Str.endsWith "'" trimmed)
     || (Str.startsWith dquote trimmed && Str.endsWith dquote trimmed)
  then JStr (Str.slice_inner 1 1 trimmed)
  else match parse_decimal trimmed with
       | Some n => JNum n
       | None =>
           if String.eqb trimmed "true" then JBool true
           else if String.eqb trimmed "false" then JBool false
           else if String.eqb trimmed "null" then JNull
           else if String.eqb trimmed "undefined" then JUndefined
           else JStr trimmed
       end.

Definition compare (op : CmpOp) (l r : JsValue) : bool :=
  match op with
  | OpSeq => strictEq l r
  | OpSne => negb (strictEq l r)
  | OpGt => js_gt l r
  | OpLt => js_lt l r
  | OpGe => js_ge l r
  | OpLe => js_le l r
  end.

(** The pattern cascade of [evaluateExpression], on the trimmed and
    prefixed text. *)
Definition evaluatePatterns (expr trimmed : string) (state : JsValue)
  : Result string JsValue :=
  match match_comparison trimmed with
  | Some (path, operator, valueStr) =>
      Ok (JBool (compare operator (getNestedProperty state path) (parseValue valueStr)))
  | None =>
  match match_logical "&&" trimmed with
  | Some (path1, path2) =>
      Ok (JBool (truthy (getNestedProperty state path1)
                 && truthy (getNestedProperty state path2)))
  | None =>
  match match_logical "||" trimmed with
  | Some (path1, path2) =>
      Ok (JBool (truthy (getNestedProperty state path1)
                 || truthy (getNestedProperty state path2)))
  | None =>
  match match_complex trimmed with
  | Some (path1, path2, operator, path3) =>
      if negb (truthy (getNestedProperty state path1)) then Ok (JBool false)
      else Ok (JBool (compare operator (getNestedProperty state path2)
                                       (getNestedProperty state path3)))
  | None =>
  match match_state_path trimmed with
  | Some path => Ok (getNestedProperty state path)
  | None => Throw ("Unable to parse expression: " ++ expr)
  end end end end end.

(** The shorthand [a.b] is read as [state.a.b]. *)
Definition autoPrefix (trimmed : string) : string :=
  if negb (Str.startsWith "state." trimmed) && is_path trimmed
  then "state." ++ trimmed else trimmed.

Definition evaluateExpression (expr : string) (state : JsValue) : Result string JsValue :=
  evaluatePatterns expr (autoPrefix (Str.trim expr)) state.

(** The truthiness of the optional string [fallback]. *)
Definition declared (fallback : option string) : bool :=
  match fallback with
  | Some f => negb (Str.is_empty f)
  | None => false
  end.

(** [fallback || '__end__'] *)
Definition fallbackOrEnd (fallback : option string) : string :=
  match fallback with
  | Some f => if Str.is_empty f then END else f
  | None => END
  end.

(** [fallback ? '__fallback__' : '__end__'] *)
Definition fallbackKeyOrEnd (fallback : option string) : string :=
  match fallback with
  | Some f => if Str.is_empty f then END else FALLBACK_KEY
  | None => END
  end.

(** [Object.keys(targets).find(k => String(targets[k]) === resultStr)] *)
Definition keyForNode (targets : Targets) (resultStr : string) : option string :=
  find
    (fun k => match lookup k targets with
              | Some node => String.eqb node resultStr
              | None => false
              end)
    (keys targets).

Definition createConditionFunction
  (expression : string) (targets : option Targets) (fallback : option string)
  : JsValue -> string :=
  if Str.is_empty expression || Str.is_empty (Str.trim expression)
  then fun _ => fallbackOrEnd fallback
  else if negb (isSafeExpression expression)
  then fun _ => fallbackOrEnd fallback
  else fun state =>
    match evaluateExpression expression state with
    | Throw _ => fallbackKeyOrEnd fallback
    | Ok result =>
        let resultStr := toString result in
        match targets with
        | Some tg =>
            if hasOwn resultStr tg then resultStr
            else match keyForNode tg resultStr with
                 | Some k => if Str.is_empty k then fallbackKeyOrEnd fallback else k
                 | None => fallbackKeyOrEnd fallback
                 end
        | None => fallbackKeyOrEnd fallback
        end
    end.

End ConditionEvaluator.

(** ** src/lib/graphs/conditionEvaluator.ts over the values of any host *)

Module Evaluator.
Import HostValues ConditionEvaluator.

(** What [evaluateExpression] throws: its own error, or what the host
    raised on the way. *)
Inductive Raised (X : Type) : Type :=
| UnableToParse (message : string)
| HostRaised (x : X).

Arguments UnableToParse {X} message.
Arguments HostRaised {X} x.

Definition host {X A : Type} (r : Result X A) : Result (Raised X) A :=
  match r with
  | Ok a => Ok a
  | Throw x => Throw (HostRaised x)
  end.

(** [/^-?\d+(\.\d+)?$/] against a whole string. *)
Definition is_number_text (s : string) : bool :=
  let body :=
    match s with
    | String "-" r => r
    | _ => s
    end in
  match Str.cut "." body with
  | None => Js.all_digits body
  | Some (ip, fp) => Js.all_digits ip && Js.all_digits fp
  end.

Section Hosted.
Context {V X : Type} (E : Engine V X).

(** The loop of [getNestedProperty]. *)
Fixpoint walk (parts : list string) (current : V) : Result X V :=
  match parts with
  | [] => Ok current
  | part :: rest =>
      if isNull E current || isUndefined E current then Ok (undefinedValue E)
      else bindR (getProperty E current part) (walk rest)
  end.

Definition getNestedProperty (obj : V) (path : string) : Result X V :=
  if negb (isTruthy E obj) || negb (typeofObject E obj) then Ok (undefinedValue E)
  else walk (Str.split "." path) obj.

Definition parseValue (value : string) : V :=
  let trimmed := Str.trim value in
  if (Str.startsWith "'" trimmed && Str.endsWith "'" trimmed)
     || (Str.startsWith dquote trimmed && Str.endsWith dquote trimmed)
  then stringValue E (Str.slice_inner 1 1 trimmed)
  else if is_number_text trimmed then parseFloat E trimmed
  else if String.eqb trimmed "true" then booleanValue E true
  else if String.eqb trimmed "false" then booleanValue E false
  else if String.eqb trimmed "null" then nullValue E
  else if String.eqb trimmed "undefined" then undefinedValue E
  else stringValue E trimmed.

(** The [switch] on the operator. *)
Definition compare (op : CmpOp) (l r : V) : Result X bool :=
  match op with
  | OpSeq => Ok (strictEquals E l r)
  | OpSne => Ok (negb (strictEquals E l r))
  | OpGt => relational E Greater l r
  | OpLt => relational E Less l r
  | OpGe => relational E GreaterEq l r
  | OpLe => relational E LessEq l r
  end.

(** The pattern cascade of [evaluateExpression], on the trimmed and
    prefixed text.  The last pattern logs [JSON.stringify(value)]
    before it returns the value. *)
Definition evaluatePatterns (expr trimmed : string) (state : V)
  : Result (Raised X) V :=
  match match_comparison trimmed with
  | Some (path, operator, valueStr) =>
      bindR (host (getNestedProperty state path)) (fun leftValue =>
      let rightValue := parseValue valueStr in
      bindR (host (compare operator leftValue rightValue)) (fun b =>
      Ok (booleanValue E b)))
  | None =>
  match match_logical "&&" trimmed with
  | Some (path1, path2) =>
      bindR (host (getNestedProperty state path1)) (fun value1 =>
      bindR (host (getNestedProperty state path2)) (fun value2 =>
      Ok (booleanValue E (isTruthy E value1 && isTruthy E value2))))
  | None =>
  match match_logical "||" trimmed with
  | Some (path1, path2) =>
      bindR (host (getNestedProperty state path1)) (fun value1 =>
      bindR (host (getNestedProperty state path2)) (fun value2 =>
      Ok (booleanValue E (isTruthy E value1 || isTruthy E value2))))
  | None =>
  match match_complex trimmed with
  | Some (path1, path2, operator, path3) =>
      bindR (host (getNestedProperty state path1)) (fun value1 =>
      bindR (host (getNestedProperty state path2)) (fun value2 =>
      bindR (host (getNestedProperty state path3)) (fun value3 =>
      if negb (isTruthy E value1) then Ok (booleanValue E false)
      else bindR (host (compare operator value2 value3)) (fun b =>
           Ok (booleanValue E b)))))
  | None =>
  match match_state_path trimmed with
  | Some path =>
      bindR (host (getNestedProperty state path)) (fun value =>
      bindR (host (jsonStringify E value)) (fun _ =>
      Ok value))
  | None => Throw (UnableToParse ("Unable to parse expression: " ++ expr))
  end end end end end.

Definition evaluateExpression (expr : string) (state : V) : Result (Raised X) V :=
  evaluatePatterns expr (autoPrefix (Str.trim expr)) state.

(** What the condition function answers for the stringified result
    [resultStr]. *)
Definition answerFor (targets : option Targets) (fallback : option string)
  (resultStr : string) : string :=
  match targets with
  | Some tg =>
      if Js.hasOwn resultStr tg then resultStr
      else match keyForNode tg resultStr with
           | Some k => if Str.is_empty k then fallbackKeyOrEnd fallback else k
           | None => fallbackKeyOrEnd fallback
           end
  | None => fallbackKeyOrEnd fallback
  end.

Definition createConditionFunction
  (expression : string) (targets : option Targets) (fallback : option string)
  : V -> string :=
  if Str.is_empty expression || Str.is_empty (Str.trim expression)
  then fun _ => fallbackOrEnd fallback
  else if negb (isSafeExpression expression)
  then fun _ => fallbackOrEnd fallback
  else fun state =>
    match evaluateExpression expression state with
    | Throw _ => fallbackKeyOrEnd fallback
    | Ok result =>
        match stringOf E result with
        | Throw _ => fallbackKeyOrEnd fallback
        | Ok resultStr => answerFor targets fallback resultStr
        end
    end.

End Hosted.

End Evaluator.

(** ** src/lib/nodes/universal/stepExecutor.ts (src/unnamed/part_004) *)

Module StepExecutor.
Import Js.

(** A partial state update: the own properties of the object a step
    returns. *)
Definition Delta : Type := list (string * JsValue).

(** [UniversalStep], with the optional [condition] the dispatcher reads. *)
Record UniversalStep : Type := mkStep {
  step_type : string;
  step_config : JsValue;
  step_condition : option string
}.

(** What a step throws, as the [catch] block of the caller sees it
    when it writes [error.message] into a text.  [WithMessage message]
    is a value whose [message] is written as [message]: an [Error] with
    that message, or any other value but [null] and [undefined]
    ([undefined] is written for a value without the property).
    [Nullish] is [null] or [undefined], on which the read itself raises
    a [TypeError].  [Unreadable] is any value whose [message] cannot be
    read or written (a getter that throws, a symbol). *)
Inductive StepError : Type :=
| WithMessage (message : string)
| Nullish
| Unreadable.

(** What the dispatcher calls and does not define.  [newFunction text
    state] is the host's [new Function('state', 'return ' + text)]
    applied to [state]: the value the compiled text returns, or what it
    throws (a text that does not compile throws too).  The five
    executors live in files of their own; the dispatcher only routes to
    them, and what they throw is any value. *)
Record Host : Type := mkHost {
  newFunction : string -> JsValue -> Result string JsValue;
  executeNeuron : JsValue -> JsValue -> Result StepError Delta;
  executeTool : JsValue -> JsValue -> Result StepError Delta;
  executeTransform : JsValue -> JsValue -> Result StepError Delta;
  executeConditional : JsValue -> JsValue -> Result StepError Delta;
  executeLoop : JsValue -> JsValue -> Result StepError Delta
}.

(** The condition is wrapped as a template expression. *)
Definition isWrapped (trimmed : string) : bool :=
  Str.startsWith "{{" trimmed && Str.endsWith "}}" trimmed.

Definition evaluateStepCondition (h : Host) (condition : string) (state : JsValue) : bool :=
  let trimmed := Str.trim condition in
  if isWrapped trimmed then
    let expression := Str.trim (Str.slice_inner 2 2 trimmed) in
    match newFunction h expression state with
    | Ok v => truthy v
    | Throw _ => false
    end
  else false.

(** The [switch] on [step.type]. *)
Definition dispatch (h : Host) (step : UniversalStep) (state : JsValue)
  : Result StepError Delta :=
  let t := step_type step in
  if String.eqb t "neuron" then executeNeuron h (step_config step) state
  else if String.eqb t "tool" then executeTool h (step_config step) state
  else if String.eqb t "transform" then executeTransform h (step_config step) state
  else if String.eqb t "conditional" then executeConditional h (step_config step) state
  else if String.eqb t "loop" then executeLoop h (step_config step) state
  else Throw (WithMessage ("Unknown step type: " ++ t)).

Definition executeStep (h : Host) (step : UniversalStep) (state : JsValue)
  : Result StepError Delta :=
  match step_condition step with
  | Some condition =>
      if Str.is_empty condition then dispatch h step state
      else if negb (evaluateStepCondition h condition state) then Ok []
      else dispatch h step state
  | None => dispatch h step state
  end.

End StepExecutor.

(** ** src/lib/nodes/universal/universalNode.ts (src/unnamed/part_003) *)

Module UniversalNode.
Import Js StepExecutor.

Definition Fields : Type := list (string * JsValue).

(** [UniversalNodeConfig], with the [nodeId] and [name] the registry
    format adds. *)
Record UniversalNodeConfig : Type := mkConfig {
  cfg_nodeId : option string;
  cfg_name : option string;
  cfg_steps : option (list UniversalStep);
  cfg_type : option string;
  cfg_config : option JsValue
}.

(** What the node calls and does not define: the step executor's host,
    the registry lookup [getUniversalNode] and [getNodeSystemPrefix]. *)
Record Env : Type := mkEnv {
  host : Host;
  getUniversalNode : string -> Result string (option UniversalNodeConfig);
  getNodeSystemPrefix : JsValue -> string -> JsValue
}.

Definition truthyStr (o : option string) : bool :=
  match o with Some s => negb (Str.is_empty s) | None => false end.

Definition truthyOpt (o : option JsValue) : bool :=
  match o with Some v => truthy v | None => false end.

Definition isSome {A} (o : option A) : bool :=
  match o with Some _ => true | None => false end.

Definition nat_to_string (n : nat) : string := digits_of_Z (Z.of_nat n).

Fixpoint indexed {A} (i : nat) (l : list A) : list (string * A) :=
  match l with
  | [] => []
  | x :: rest => (nat_to_string i, x) :: indexed (S i) rest
  end.

Fixpoint chars (s : string) : list JsValue :=
  match s with
  | EmptyString => []
  | String c s' => JStr (String c EmptyString) :: chars s'
  end.

(** The own enumerable properties an object spread [{...v}] copies. *)
Definition spread (v : JsValue) : Fields :=
  match v with
  | JObj f => f
  | JArr l => indexed 0 l
  | JStr s => indexed 0 (chars s)
  | _ => []
  end.


(** [Object.assign(stateUpdates, stepUpdate)] on the updates the node
    accumulates: each own property of the step's update is written in
    turn.  A key [__proto__] reaches the inherited setter and adds no
    own property; what it does to the prototype of [stateUpdates] is
    not seen, since the updates are only read through their own
    properties. *)
Definition accumulate (stateUpdates stepUpdate : Fields) : Fields :=
  fold_left
    (fun acc kv =>
       if String.eqb (fst kv) "__proto__" && negb (hasOwn (fst kv) acc) then acc
       else put (fst kv) (snd kv) acc)
    stepUpdate stateUpdates.

(** What [convertFlatToNested] comes to: the nested object; a
    [TypeError] of the host, when a primitive, [null] or [undefined]
    stands where the walk needs an object; or a walk that leaves plain
    data, of which the embedding says nothing: a part of the key is a
    name the object inherits ([part in current] holds and the walk goes
    on in a function or in [Object.prototype], which it then writes
    to), a part leads into an array, or the write reaches the inherited
    setter [__proto__]. *)
Inductive Nesting : Type :=
| Nested (fields : Fields)
| NestingTypeError
| NestingLeavesData.

(** [current[key] = value] as the last write of a key. *)
Definition writeLast (key : string) (value : JsValue) (current : Fields) : Nesting :=
  if String.eqb key "__proto__" && negb (hasOwn key current) then NestingLeavesData
  else Nested (put key value current).

(** The inner loop of [convertFlatToNested] for one dotted key, and
    the write that follows it. *)
Fixpoint setPath (parts : list string) (value : JsValue) (current : Fields)
  : Nesting :=
  match parts with
  | [] => Nested current
  | [lastPart] => writeLast lastPart value current
  | part :: rest =>
      match lookup part current with
      | None =>
          if Str.mem part OBJECT_PROTOTYPE then NestingLeavesData
          else match setPath rest value [] with
               | Nested sub => Nested (put part (JObj sub) current)
               | other => other
               end
      | Some (JObj inner) =>
          match setPath rest value inner with
          | Nested sub => Nested (put part (JObj sub) current)
          | other => other
          end
      | Some (JArr _) => NestingLeavesData
      | Some _ => NestingTypeError
      end
  end.

Fixpoint convertEntries (entries : Fields) (nested : Fields) : Nesting :=
  match entries with
  | [] => Nested nested
  | (key, value) :: rest =>
      let next :=
        if negb (Str.includes "." key) then writeLast key value nested
        else setPath (Str.split "." key) value nested in
      match next with
      | Nested nested' => convertEntries rest nested'
      | other => other
      end
  end.

Definition convertFlatToNested (flat : Fields) : Nesting :=
  convertEntries flat [].

(** [deepMergeObjects(target, source)] for a plain-object [source]. *)
Fixpoint deepMergeObjects (target source : JsValue) {struct source} : JsValue :=
  match source with
  | JObj fields =>
      JObj
        ((fix go (fs : Fields) (result : Fields) {struct fs} : Fields :=
            match fs with
            | [] => result
            | (key, v) :: rest =>
                go rest
                  match v with
                  | JObj _ =>
                      let inner :=
                        match lookup key result with
                        | Some t => if truthy t then t else JObj []
                        | None => JObj []
                        end in
                      set key (deepMergeObjects inner v) result
                  | _ => set key v result
                  end
            end) fields (spread target))
  | _ => JObj (spread target)
  end.

(** [currentNodeCount + 1] for a truthy [currentNodeCount]: the next
    whole number for a whole number up to [2 ^ 53 - 1], the text with
    [1] appended for a string, [2] for [true].  For any other value
    (a fraction, a larger number, an object or an array) the sum is
    the host's arithmetic and conversion, which the embedding leaves
    out: [None]. *)
Definition plusOne (v : JsValue) : option JsValue :=
  match v with
  | JStr s => Some (JStr (s ++ "1"))
  | JBool true => Some (JNum (num_of_Z 2))
  | JNum (mkNum m O) =>
      if (Z.abs m <? 2 ^ 53)%Z then Some (JNum (num_of_Z (m + 1))) else None
  | _ => None
  end.

Definition typeError : string := "TypeError".

Definition stepFailure (stepNumber : nat) (step : UniversalStep) (message : string) : string :=
  "Step " ++ nat_to_string stepNumber ++ " (" ++ step_type step ++ ") failed: " ++ message.

(** The object the [catch] block returns. *)
Definition errorDelta (nestedUpdates : Fields) (errorMessage : string) : JsValue :=
  let data :=
    match lookup "data" nestedUpdates with
    | Some d => spread d
    | None => []
    end in
  JObj (set "data"
          (JObj (set "nextGraph" (JStr "error_handler")
                   (set "error" (JStr errorMessage) data)))
          nestedUpdates).

(** The state a step runs on: the node's state with the step index
    set, deep-merged with the updates accumulated so far. *)
Definition currentStateFor (state : Fields) (i : nat) (nestedUpdates : Fields) : JsValue :=
  deepMergeObjects
    (JObj (set "_currentStepIndex" (JNum (num_of_nat i)) state))
    (JObj nestedUpdates).

(** What a call of the node comes to: the delta it returns; an error
    it throws, the node's own (its message) or what the registry lookup
    threw; a [TypeError] the host raises; or a run that leaves plain
    data (see [Nesting] and [plusOne]) or whose thrown value cannot be
    read, of which the embedding says nothing. *)
Inductive Outcome : Type :=
| Returns (delta : JsValue)
| Throws (what : string)
| ThrowsTypeError
| Unmodelled.

(** The [for] loop over the steps, from index [i].  The conversion of
    the updates is the first statement of the [try] block that can
    throw; the [catch] block converts the same updates again, so a
    [TypeError] of the conversion leaves the node.  When the step
    throws, the [catch] block first writes [error.message] into the
    error text, which raises a [TypeError] on [null] and
    [undefined]. *)
Fixpoint runSteps (h : Host) (state : Fields) (steps : list UniversalStep) (i : nat)
  (stateUpdates : Fields) : Outcome :=
  match steps with
  | [] =>
      match convertFlatToNested stateUpdates with
      | Nested nestedUpdates => Returns (JObj nestedUpdates)
      | NestingTypeError => ThrowsTypeError
      | NestingLeavesData => Unmodelled
      end
  | step :: rest =>
      match convertFlatToNested stateUpdates with
      | Nested nestedUpdates =>
          match executeStep h step (currentStateFor state i nestedUpdates) with
          | Ok stepUpdate => runSteps h state rest (S i) (accumulate stateUpdates stepUpdate)
          | Throw (WithMessage message) =>
              Returns (errorDelta nestedUpdates (stepFailure (S i) step message))
          | Throw Nullish => ThrowsTypeError
          | Throw Unreadable => Unmodelled
          end
      | NestingTypeError => ThrowsTypeError
      | NestingLeavesData => Unmodelled
      end
  end.

(** Registry mode: a [nodeId] without [steps] is looked up. *)
Definition resolveConfig (env : Env) (nodeConfig : UniversalNodeConfig)
  : Result string UniversalNodeConfig :=
  match cfg_nodeId nodeConfig with
  | Some nodeId =>
      if negb (Str.is_empty nodeId) && negb (isSome (cfg_steps nodeConfig))
      then match getUniversalNode env nodeId with
           | Ok (Some loaded) => Ok loaded
           | Ok None => Throw ("[UniversalNode] Config not found in registry: " ++ nodeId)
           | Throw e => Throw e
           end
      else Ok nodeConfig
  | None => Ok nodeConfig
  end.

Definition dquote : string := String (ascii_of_nat 34) EmptyString.

Definition invalidConfig : string :=
  "[UniversalNode] Invalid config: must provide either " ++ dquote ++ "steps"
  ++ dquote ++ " array or " ++ dquote ++ "type" ++ dquote ++ " + " ++ dquote
  ++ "config" ++ dquote.

(** Validation and normalisation to a non-empty list of steps. *)
Definition normalizeSteps (nodeConfig : UniversalNodeConfig)
  : Result string (list UniversalStep) :=
  match cfg_steps nodeConfig with
  | Some [] => Throw "[UniversalNode] Invalid config: steps array cannot be empty"
  | Some steps => Ok steps
  | None =>
      match cfg_type nodeConfig, cfg_config nodeConfig with
      | Some t, Some c =>
          if negb (Str.is_empty t) && truthy c then Ok [mkStep t c None]
          else Throw invalidConfig
      | _, _ =>
          Throw invalidConfig
      end
  end.

Definition nodeCount (state : Fields) : JsValue :=
  match lookup "nodeCounter" state with
  | Some v => if truthy v then v else JNum (num_of_Z 1)
  | None => JNum (num_of_Z 1)
  end.

Definition nodeName (nodeConfig : UniversalNodeConfig) : string :=
  if truthyStr (cfg_name nodeConfig)
  then match cfg_name nodeConfig with Some n => n | None => "" end
  else if truthyStr (cfg_nodeId nodeConfig)
  then match cfg_nodeId nodeConfig with Some n => n | None => "" end
  else "Universal Node".

(** [universalNode(state)], with [state.nodeConfig] passed apart from
    the other properties of [state]. *)
Definition universalNode (env : Env) (nodeConfig0 : UniversalNodeConfig) (state0 : Fields)
  : Outcome :=
  match resolveConfig env nodeConfig0 with
  | Throw what => Throws what
  | Ok nodeConfig =>
      let currentNodeCount := nodeCount state0 in
      let systemPrefix := getNodeSystemPrefix env currentNodeCount (nodeName nodeConfig) in
      let state := set "systemPrefix" systemPrefix state0 in
      match normalizeSteps nodeConfig with
      | Throw what => Throws what
      | Ok steps =>
          match plusOne currentNodeCount with
          | Some nextCount =>
              runSteps (host env) state steps 0 [("nodeCounter", nextCount)]
          | None => Unmodelled
          end
      end
  end.

End UniversalNode.

(** ** src/functions/respond.ts: the token transformer of
       [streamThroughGraphWithMemory] *)

Module Streaming.

(** What the generator yields to the transport. *)
Inductive Yield : Type :=
| YMetadata
| YStatus (action : string)
| YThinkingChunk (content : string)
| YContent (chunk : string)
| YFinalMessage (content : string).

(** The events of [streamEvents] the transformer reads.  [visible] is
    [isRespondNode || streamToUser] at the time of the event;
    [fromRespond] is [isRespondNode]. *)
Inductive StreamEvent : Type :=
| OnLlmStream (content : string) (visible : bool)
| OnLlmEnd (message : option string) (fromRespond : bool)
| OtherEvent.

(** The surroundings of one stream: whether a [requestId] was given,
    whether [generationId] and [conversationId] are both set, the
    clock ([startTime] is the first [Date.now()], [clock k] the one
    read for the [k]-th content character), and [extractThinking],
    which lives in another file. *)
Record StreamEnv : Type := mkStreamEnv {
  hasRequestId : bool;
  idsPresent : bool;
  startTime : Z;
  clock : nat -> Z;
  extractThinking : string -> option string * string
}.

Record StreamState : Type := mkStreamState {
  pendingBuffer : string;
  inThinkingTag : bool;
  thinkingBuffer : string;
  streamedTokens : bool;
  streamedThinking : bool;
  fullContent : string;
  chunkBuffer : string;
  lastYieldTime : Z;
  clockReads : nat;
  finalMessage : option string;
  storedThoughts : list string
}.

Definition BATCH_INTERVAL_MS : Z := 50.
Definition BATCH_SIZE : nat := 10.

Definition initialState (env : StreamEnv) : StreamState :=
  mkStreamState "" false "" false false "" "" (startTime env) 0 None [].

Definition char_string (c : ascii) : string := String c EmptyString.

(** [char === '\n' || char === '\r' || char === ' '] *)
Definition isLeadingWhitespace (c : ascii) : bool :=
  let n := nat_of_ascii c in
  (n =? 10)%nat || (n =? 13)%nat || (n =? 32)%nat.

(** The batching test after a content character was added. *)
Definition batchReady (env : StreamEnv) (st : StreamState) (c : ascii) : bool :=
  (BATCH_SIZE <=? String.length (chunkBuffer st ++ char_string c))%nat
  || (BATCH_INTERVAL_MS <=? clock env (clockReads st) - lastYieldTime st)%Z.

(** One content character outside a thinking block: dropped while it
    is leading whitespace, else accumulated and batched. *)
Definition contentChar (env : StreamEnv) (st : StreamState) (c : ascii) (rest : string)
  : StreamState * list Yield :=
  if negb (streamedTokens st) && isLeadingWhitespace c
  then (mkStreamState rest (inThinkingTag st) (thinkingBuffer st)
          (streamedTokens st) (streamedThinking st) (fullContent st)
          (chunkBuffer st) (lastYieldTime st) (clockReads st)
          (finalMessage st) (storedThoughts st), [])
  else
    (mkStreamState rest (inThinkingTag st) (thinkingBuffer st)
       true (streamedThinking st) (fullContent st ++ char_string c)
       (if batchReady env st c then "" else chunkBuffer st ++ char_string c)
       (if batchReady env st c then clock env (clockReads st) else lastYieldTime st)
       (S (clockReads st)) (finalMessage st) (storedThoughts st),
     if batchReady env st c then [YContent (chunkBuffer st ++ char_string c)] else []).

(** One character inside a thinking block. *)
Definition thinkingChar (env : StreamEnv) (st : StreamState) (c : ascii) (rest : string)
  : StreamState * list Yield :=
  (mkStreamState rest (inThinkingTag st) (thinkingBuffer st ++ char_string c)
     (streamedTokens st) (streamedThinking st || hasRequestId env) (fullContent st)
     (chunkBuffer st) (lastYieldTime st) (clockReads st)
     (finalMessage st) (storedThoughts st),
   if hasRequestId env then [YThinkingChunk (char_string c)] else []).

(** One turn of [while (pendingBuffer.length > 8)]. *)
Definition stepMain (env : StreamEnv) (st : StreamState) : StreamState * list Yield :=
  if negb (inThinkingTag st) && Str.startsWith "<think>" (pendingBuffer st) then
    (mkStreamState (Str.drop 7 (pendingBuffer st)) true (thinkingBuffer st)
       (streamedTokens st) (streamedThinking st) (fullContent st)
       (chunkBuffer st) (lastYieldTime st) (clockReads st)
       (finalMessage st) (storedThoughts st),
     if hasRequestId env then [YStatus "thinking"] else [])
  else if inThinkingTag st && Str.startsWith "</think>" (pendingBuffer st) then
    (mkStreamState (Str.drop 8 (pendingBuffer st)) false ""
       true (streamedThinking st) (fullContent st)
       (chunkBuffer st) (lastYieldTime st) (clockReads st)
       (finalMessage st)
       (if negb (Str.is_empty (Str.trim (thinkingBuffer st))) && idsPresent env
        then (storedThoughts st ++ [Str.trim (thinkingBuffer st)])%list
        else storedThoughts st),
     [YContent " "])
  else
    match pendingBuffer st with
    | EmptyString => (st, [])
    | String c rest =>
        if inThinkingTag st then thinkingChar env st c rest
        else contentChar env st c rest
    end.

(** [while (pendingBuffer.length > 8) ...]; every turn shortens the
    buffer, so its length is fuel enough. *)
Fixpoint mainLoop (env : StreamEnv) (fuel : nat) (st : StreamState)
  : StreamState * list Yield :=
  match fuel with
  | O => (st, [])
  | S fuel' =>
      if (8 <? String.length (pendingBuffer st))%nat then
        let '(st1, ys1) := stepMain env st in
        let '(st2, ys2) := mainLoop env fuel' st1 in
        (st2, (ys1 ++ ys2)%list)
      else (st, [])
  end.

Definition appendPending (st : StreamState) (content : string) : StreamState :=
  mkStreamState (pendingBuffer st ++ content) (inThinkingTag st) (thinkingBuffer st)
    (streamedTokens st) (streamedThinking st) (fullContent st)
    (chunkBuffer st) (lastYieldTime st) (clockReads st)
    (finalMessage st) (storedThoughts st).

Definition setFinalMessage (st : StreamState) (m : option string) : StreamState :=
  mkStreamState (pendingBuffer st) (inThinkingTag st) (thinkingBuffer st)
    (streamedTokens st) (streamedThinking st) (fullContent st)
    (chunkBuffer st) (lastYieldTime st) (clockReads st)
    m (storedThoughts st).

(** The body of [for await (const event of stream)]. *)
Definition onEvent (env : StreamEnv) (st : StreamState) (event : StreamEvent)
  : StreamState * list Yield :=
  match event with
  | OnLlmStream content visible =>
      if negb (Str.is_empty content) && visible then
        let st1 := appendPending st content in
        mainLoop env (String.length (pendingBuffer st1)) st1
      else (st, [])
  | OnLlmEnd (Some m) true => (setFinalMessage st (Some m), [])
  | _ => (st, [])
  end.

Fixpoint onEvents (env : StreamEnv) (st : StreamState) (events : list StreamEvent)
  : StreamState * list Yield :=
  match events with
  | [] => (st, [])
  | e :: rest =>
      let '(st1, ys1) := onEvent env st e in
      let '(st2, ys2) := onEvents env st1 rest in
      (st2, (ys1 ++ ys2)%list)
  end.

(** One turn of the flush loop [while (pendingBuffer.length > 0)]: no
    tag is looked for. *)
Definition stepFlush (env : StreamEnv) (st : StreamState) (c : ascii) (rest : string)
  : StreamState * list Yield :=
  if inThinkingTag st then thinkingChar env st c rest
  else contentChar env st c rest.

Fixpoint flushLoop (env : StreamEnv) (buffer : string) (st : StreamState)
  : StreamState * list Yield :=
  match buffer with
  | EmptyString => (st, [])
  | String c rest =>
      let '(st1, ys1) := stepFlush env st c rest in
      let '(st2, ys2) := flushLoop env rest st1 in
      (st2, (ys1 ++ ys2)%list)
  end.

(** Flush of the batch buffer after the pending buffer is empty. *)
Definition flushChunk (st : StreamState) : list Yield :=
  if negb (Str.is_empty (chunkBuffer st)) then [YContent (chunkBuffer st)] else [].

Fixpoint words_yields (first : bool) (ws : list string) : list Yield :=
  match ws with
  | [] => []
  | w :: rest =>
      YContent (if first then w else " " ++ w) :: words_yields false rest
  end.

(** What the stream leaves behind. *)
Record Outcome : Type := mkOutcome {
  yields : list Yield;
  persistedContent : option string;
  thoughts : list string;
  completedThinking : option string;
  completedResponse : string
}.

(** The whole generator, from the metadata item to the completion of
    the generation. *)
Definition streamThroughGraph (env : StreamEnv) (events : list StreamEvent) : Outcome :=
  let '(st1, ys1) := onEvents env (initialState env) events in
  let '(st2, ys2) := flushLoop env (pendingBuffer st1) st1 in
  let ys3 := flushChunk st2 in
  let unstreamed :=
    negb (streamedTokens st2) && negb (streamedThinking st2) in
  let '(content, thoughts', ys4) :=
    match finalMessage st2 with
    | Some m =>
        if unstreamed && negb (Str.is_empty m) then
          let '(thinking, cleaned) := extractThinking env m in
          (cleaned,
           match thinking with
           | Some t => if negb (Str.is_empty t) && idsPresent env
                       then (storedThoughts st2 ++ [t])%list else storedThoughts st2
           | None => storedThoughts st2
           end,
           words_yields true (Str.split " " cleaned))
        else (fullContent st2, storedThoughts st2, [])
    | None => (fullContent st2, storedThoughts st2, [])
    end in
  mkOutcome
    (YMetadata :: ys1 ++ ys2 ++ ys3 ++ ys4
       ++ match finalMessage st2 with Some m => [YFinalMessage m] | None => [] end)%list
    (if negb (Str.is_empty content) then Some content else None)
    thoughts'
    (if negb (Str.is_empty (thinkingBuffer st2)) then Some (thinkingBuffer st2) else None)
    content.

End Streaming.

(** ** src/lib/nodes/universal/templateRenderer.ts *)

Module TemplateRenderer.
Import Js.

Definition backslash : string := String (ascii_of_nat 92) EmptyString.
Definition dquote : string := String (ascii_of_nat 34) EmptyString.

Definition hex_digit (n : nat) : string :=
  String (ascii_of_nat (if (n <? 10)%nat then 48 + n else 87 + n)) EmptyString.

(** The escape [JSON.stringify] writes for one character of a string. *)
Definition json_escape_char (c : ascii) : string :=
  let n := nat_of_ascii c in
  if (n =? 34)%nat then backslash ++ dquote
  else if (n =? 92)%nat then backslash ++ backslash
  else if (n =? 8)%nat then backslash ++ "b"
  else if (n =? 9)%nat then backslash ++ "t"
  else if (n =? 10)%nat then backslash ++ "n"
  else if (n =? 12)%nat then backslash ++ "f"
  else if (n =? 13)%nat then backslash ++ "r"
  else if (n <? 32)%nat then backslash ++ "u00" ++ hex_digit (n / 16) ++ hex_digit (n mod 16)
  else String c EmptyString.

Fixpoint json_escape (s : string) : string :=
  match s with
  | EmptyString => EmptyString
  | String c s' => json_escape_char c ++ json_escape s'
  end.

Definition json_quote (s : string) : string := dquote ++ json_escape s ++ dquote.

(** [JSON.stringify(v)] without indentation.  An [undefined] element
    of an array is written [null]; an [undefined] property is left
    out. *)
Fixpoint stringify (v : JsValue) : string :=
  match v with
  | JUndefined => "undefined"
  | JNull => "null"
  | JBool true => "true"
  | JBool false => "false"
  | JNum n => num_to_string n
  | JStr s => json_quote s
  | JArr l =>
      "[" ++ Str.join ","
               (map (fun e => match e with
                              | JUndefined => "null"
                              | _ => stringify e
                              end) l) ++ "]"
  | JObj fields =>
      "{" ++ Str.join ","
               ((fix members (fs : list (string * JsValue)) : list string :=
                   match fs with
                   | [] => []
                   | (k, JUndefined) :: rest => members rest
                   | (k, x) :: rest =>
                       (json_quote k ++ ":" ++ stringify x) :: members rest
                   end) fields) ++ "}"
  end.

(** [path.split('.').reduce((current, key) => current?.[key], obj)] *)
Definition getNestedProperty (obj : JsValue) (path : string) : JsValue :=
  fold_left
    (fun current key =>
       match current with
       | JNull | JUndefined => JUndefined
       | _ => getProp current key
       end)
    (Str.split "." path) obj.

Definition is_undefined (v : JsValue) : bool :=
  match v with JUndefined => true | _ => false end.

(** PATH, the expression [\w+(\.\w+)*], against a whole string. *)
Definition is_path (s : string) : bool :=
  forallb
    (fun seg => negb (Str.is_empty seg) && Str.forallb_str Str.is_word_char seg)
    (Str.split "." s).

Definition is_path_char (c : ascii) : bool :=
  Str.is_word_char c || Ascii.eqb c ".".

(** The longest run of path characters at the head of [s], and what
    follows it. *)
Fixpoint span_path (s : string) : string * string :=
  match s with
  | EmptyString => (EmptyString, EmptyString)
  | String c s' =>
      if is_path_char c
      then let '(run, rest) := span_path s' in (String c run, rest)
      else (EmptyString, s)
  end.

(** The expression [/\{\{state\.(PATH)\}\}/] anchored at the head of
    [s]: the captured path and the length of the match.  A path holds
    no closing brace, so it can only be the whole run of path
    characters after the opening text. *)
Definition matchPlaceholder (s : string) : option (string * nat) :=
  if Str.startsWith "{{state." s then
    let '(run, rest) := span_path (Str.drop 8 s) in
    if is_path run && Str.startsWith "}}" rest
    then Some (run, 8 + String.length run + 2)
    else None
  else None.

(** The callback of [template.replace]: the text put in place of the
    match, and the warnings logged. *)
Definition substitute (state : JsValue) (path : string) : string * list string :=
  let original := "{{state." ++ path ++ "}}" in
  let warning := "[TemplateRenderer] Variable not found: state." ++ path in
  let value := getNestedProperty state path in
  if negb (is_undefined value) then
    if is_object value then (stringify value, [])
    else (toString value, [])
  else
    if negb (Str.startsWith "data." path) then
      let dataValue := getNestedProperty state ("data." ++ path) in
      if negb (is_undefined dataValue) then (toString dataValue, [])
      else (original, [warning])
    else (original, [warning]).

(** The global replace: matches are looked for from left to right and
    do not overlap; [skip] counts the characters of a match still to
    pass over. *)
Fixpoint scan (state : JsValue) (s : string) (skip : nat) : string * list string :=
  match s with
  | EmptyString => (EmptyString, [])
  | String c rest =>
      match skip with
      | S k => scan state rest k
      | O =>
          match matchPlaceholder s with
          | Some (path, len) =>
              let '(text, w1) := substitute state path in
              let '(out, w2) := scan state rest (len - 1) in
              (text ++ out, (w1 ++ w2)%list)
          | None =>
              let '(out, w) := scan state rest 0 in
              (String c out, w)
          end
      end
  end.

(** [renderTemplate(template, state)] with the warnings it logs. *)
Definition renderTemplate (template : string) (state : JsValue) : string * list string :=
  scan state template 0.

End TemplateRenderer.

(** ** src/lib/nodes/universal/templateRenderer.ts over the values of
       any host *)

Module Rendering.
Import HostValues TemplateRenderer.

Section Hosted.
Context {V X : Type} (E : Engine V X).

(** [current?.[key]] *)
Definition optionalProperty (current : V) (key : string) : Result X V :=
  if isNull E current || isUndefined E current then Ok (undefinedValue E)
  else getProperty E current key.

(** [keys.reduce((current, key) => current?.[key], obj)] *)
Fixpoint reduce (keys : list string) (current : V) : Result X V :=
  match keys with
  | [] => Ok current
  | key :: rest => bindR (optionalProperty current key) (reduce rest)
  end.

Definition getNestedProperty (obj : V) (path : string) : Result X V :=
  reduce (Str.split "." path) obj.

(** What the replace callback returns for [JSON.stringify(value)]: the
    text, and [undefined], written out, when there is none. *)
Definition jsonText (value : V) : Result X string :=
  match jsonStringify E value with
  | Ok (Some text) => Ok text
  | Ok None => Ok "undefined"
  | Throw x => Throw x
  end.

(** The callback of [template.replace]: the text put in place of the
    match, or what the host raised, and the warnings logged. *)
Definition substitute (state : V) (path : string) : Result X string * list string :=
  let original := "{{state." ++ path ++ "}}" in
  let warning := "[TemplateRenderer] Variable not found: state." ++ path in
  match getNestedProperty state path with
  | Throw x => (Throw x, [])
  | Ok value =>
      if negb (isUndefined E value) then
        if typeofObject E value && negb (isNull E value)
        then (jsonText value, [])
        else (stringOf E value, [])
      else
        if negb (Str.startsWith "data." path) then
          match getNestedProperty state ("data." ++ path) with
          | Throw x => (Throw x, [])
          | Ok dataValue =>
              if negb (isUndefined E dataValue) then (stringOf E dataValue, [])
              else (Ok original, [warning])
          end
        else (Ok original, [warning])
  end.

(** [text] in front of what the rest of the template renders to. *)
Definition before (text : string) (rest : Result X string * list string)
  : Result X string * list string :=
  (match fst rest with
   | Ok out => Ok (text ++ out)
   | Throw x => Throw x
   end,
   snd rest).

(** The replacement of one match followed by the rendering of what
    comes after it: when the callback raises, nothing more is
    rendered. *)
Definition andThen (replaced rest : Result X string * list string)
  : Result X string * list string :=
  match fst replaced with
  | Ok text => (fst (before text rest), (snd replaced ++ snd rest)%list)
  | Throw x => (Throw x, snd replaced)
  end.

(** The global replace: matches are looked for from left to right and
    do not overlap; [skip] counts the characters of a match still to
    pass over. *)
Fixpoint scan (state : V) (s : string) (skip : nat) : Result X string * list string :=
  match s with
  | EmptyString => (Ok EmptyString, [])
  | String c rest =>
      match skip with
      | S k => scan state rest k
      | O =>
          match matchPlaceholder s with
          | Some (path, len) =>
              andThen (substitute state path) (scan state rest (len - 1))
          | None => before (String c EmptyString) (scan state rest 0)
          end
      end
  end.

(** [renderTemplate(template, state)]: the rendered text, or what the
    host raised in a callback, with the warnings logged. *)
Definition renderTemplate (template : string) (state : V)
  : Result X string * list string :=
  scan state template 0.

End Hosted.

End Rendering.

(** ** A sample host: JSON data *)

Module DataHost.
Import Js HostValues.

(** The host of the examples.  Its values are JSON data: an object has
    its own properties and nothing else, a number is a decimal written
    in positional notation, and no read, comparison or conversion
    raises. *)
Definition dataHost : Engine JsValue string :=
  mkEngine JsValue string
    JUndefined JNull JBool JStr
    (fun text => match parse_decimal text with
                 | Some n => JNum n
                 | None => JUndefined
                 end)
    truthy typeof_object strictEq
    (fun v key => Ok (getProp v key))
    (fun relation a b =>
       Ok match relation with
          | Less => js_lt a b
          | Greater => js_gt a b
          | LessEq => js_le a b
          | GreaterEq => js_ge a b
          end)
    (fun v => Ok (toString v))
    (fun v => Ok match v with
                 | JUndefined => None
                 | _ => Some (TemplateRenderer.stringify v)
                 end).

End DataHost.

(** ** src/lib/graphs/nodeRegistry.ts and src/lib/graphs/compiler.ts *)

Module Compiler.
Import Js.

(** [GraphNodeConfig] *)
Record GraphNodeConfig : Type := mkNode {
  node_id : string;
  node_type : string;
  node_config : option JsValue
}.

(** [GraphEdgeConfig] *)
Record GraphEdgeConfig : Type := mkEdge {
  edge_from : string;
  edge_to : option string;
  edge_condition : option string;
  edge_targets : option (list (string * string));
  edge_fallback : option string
}.

(** [GraphConfig]: the fields the compiler reads.  [tier] is an
    account level, an integer. *)
Record GraphConfig : Type := mkGraph {
  graphId : string;
  tier : option Z;
  nodes : option (list GraphNodeConfig);
  edges : option (list GraphEdgeConfig)
}.

(** [GraphCompilationError]: its message and the graph it is keyed by. *)
Record GraphCompilationError : Type := mkCompilationError {
  error_message : string;
  error_graphId : string
}.

Definition START : string := "__start__".

(** [END] of the state-graph library. *)
Definition END : string := "__end__".

(** The keys of [NODE_REGISTRY]: the values of [GraphNodeType]. *)
Definition NODE_REGISTRY_KEYS : list string :=
  ["precheck"; "fastpath"; "context"; "classifier"; "router"; "planner";
   "executor"; "responder"; "search"; "scrape"; "command"; "universal"].

(** [type in NODE_REGISTRY]: the [in] operator finds the registry's
    own keys and the names the registry object inherits. *)
Definition isValidNodeType (type : string) : bool :=
  Str.mem type NODE_REGISTRY_KEYS || Str.mem type OBJECT_PROTOTYPE.

(** An optional string the source tests for truthiness: an empty one
    counts as absent. *)
Definition present (o : option string) : option string :=
  match o with
  | Some s => if Str.is_empty s then None else Some s
  | None => None
  end.

Definition orEmpty {A} (o : option (list A)) : list A :=
  match o with Some l => l | None => [] end.

Definition newline : string := String (ascii_of_nat 10) EmptyString.

(** [nodeIds.filter((id, index) => nodeIds.indexOf(id) !== index)] *)
Fixpoint duplicatesFrom (seen ids : list string) : list string :=
  match ids with
  | [] => []
  | id :: rest =>
      if Str.mem id seen then id :: duplicatesFrom seen rest
      else duplicatesFrom (id :: seen) rest
  end.

(** [new Set(nodeIds).size] *)
Definition distinctCount (ids : list string) : nat :=
  List.length (nodup string_dec ids).

Definition nodeErrors (config : GraphConfig) : list string :=
  match nodes config with
  | Some (_ :: _) => []
  | _ => ["Graph must have at least one node"]
  end.

Definition edgeErrors (config : GraphConfig) : list string :=
  match edges config with
  | Some (_ :: _) => []
  | _ => ["Graph must have at least one edge"]
  end.

Definition typeErrors (config : GraphConfig) : list string :=
  flat_map
    (fun node =>
       if negb (isValidNodeType (node_type node))
       then ["Invalid node type: " ++ node_type node ++ " (node: " ++ node_id node ++ ")"]
       else [])
    (orEmpty (nodes config)).

Definition duplicateErrors (config : GraphConfig) : list string :=
  match nodes config with
  | Some ns =>
      let nodeIds := map node_id ns in
      if negb (List.length nodeIds =? distinctCount nodeIds)%nat
      then ["Duplicate node IDs found: " ++ Str.join ", " (duplicatesFrom [] nodeIds)]
      else []
  | None => []
  end.

Definition validNodeIds (ns : list GraphNodeConfig) : list string :=
  (map node_id ns ++ [START; END; END])%list.

Definition endpointErrorsOf (valid : list string) (edge : GraphEdgeConfig) : list string :=
  ((if negb (Str.mem (edge_from edge) valid)
    then [("Edge references unknown source node: " ++ edge_from edge)%string] else [])
   ++ match present (edge_to edge) with
      | Some t => if negb (Str.mem t valid)
                  then [("Edge references unknown target node: " ++ t)%string] else []
      | None => []
      end
   ++ flat_map
        (fun kv =>
           if negb (Str.mem (snd kv) valid)
           then [("Edge references unknown target in '" ++ fst kv ++ "': " ++ snd kv)%string]
           else [])
        (orEmpty (edge_targets edge))
   ++ match present (edge_fallback edge) with
      | Some f => if negb (Str.mem f valid)
                  then [("Edge references unknown fallback node: " ++ f)%string] else []
      | None => []
      end)%list.

Definition endpointErrors (config : GraphConfig) : list string :=
  match nodes config, edges config with
  | Some ns, Some es => flat_map (endpointErrorsOf (validNodeIds ns)) es
  | _, _ => []
  end.

Definition tierErrors (config : GraphConfig) : list string :=
  match tier config with
  | Some t =>
      if (t <? 0)%Z || (4 <? t)%Z
      then ["Invalid tier value: " ++ NilZero.string_of_int (Z.to_int t) ++ " (must be 0-4)"]
      else []
  | None => []
  end.

(** Every node with an edge into it. *)
Definition nodesWithIncoming (es : list GraphEdgeConfig) : list string :=
  flat_map
    (fun edge =>
       (match present (edge_to edge) with Some t => [t] | None => [] end
        ++ map snd (orEmpty (edge_targets edge))
        ++ match present (edge_fallback edge) with Some f => [f] | None => [] end)%list)
    es.

Definition warningsOf (config : GraphConfig) : list string :=
  (match nodes config, edges config with
   | Some ns, Some es =>
       let incoming := nodesWithIncoming es in
       let orphanedNodes :=
         filter (fun id => negb (Str.mem id incoming) && negb (String.eqb id START))
           (map node_id ns) in
       match orphanedNodes with
       | [] => []
       | _ => [("Orphaned nodes (no incoming edges): " ++ Str.join ", " orphanedNodes)%string]
       end
   | _, _ => []
   end
   ++ match nodes config with
      | Some ns =>
          if (20 <? List.length ns)%nat
          then [("Large graph detected: " ++ NilZero.string_of_uint (Nat.to_uint (List.length ns))
                 ++ " nodes (may impact performance)")%string]
          else []
      | None => []
      end)%list.

(** The aggregate of all validation failures, in the order found. *)
Definition validationErrors (config : GraphConfig) : list string :=
  (nodeErrors config ++ edgeErrors config ++ typeErrors config
   ++ duplicateErrors config ++ endpointErrors config ++ tierErrors config)%list.

Definition validationMessage (errors : list string) : string :=
  "Graph validation failed:" ++ newline
  ++ Str.join newline (map (fun e => "  - " ++ e) errors).

(** [validateGraphConfig(config)]: the warnings it logs, or the one
    error it throws. *)
Definition validateGraphConfig (config : GraphConfig)
  : Result GraphCompilationError (list string) :=
  match validationErrors config with
  | [] => Ok (warningsOf config)
  | errors => Throw (mkCompilationError (validationMessage errors) (graphId config))
  end.

(** [CompiledGraph], for a state graph of type [G]. *)
Record CompiledGraph (G : Type) : Type := mkCompiled {
  compiled_graphId : string;
  compiled_config : GraphConfig;
  compiled_graph : G
}.

Arguments mkCompiled {G} _ _ _.

(** The node loop of [compileGraphFromConfig]: the first node for
    whose type [NODE_REGISTRY[node.type]] is falsy.  The lookup finds a
    function under each own key and each inherited function name, and
    [Object.prototype] under [__proto__]. *)
Definition unknownNode (ns : list GraphNodeConfig) : option GraphNodeConfig :=
  find (fun node => negb (isValidNodeType (node_type node))) ns.

(** What [compileGraphFromConfig] may throw: its own error, or
    whatever the state-graph library raises. *)
Inductive CompileFailure : Type :=
| CompilationError (e : GraphCompilationError)
| LibraryError (message : string).

(** [compileGraphFromConfig(config)].  [assemble] stands for the
    state-graph library: adding the nodes and edges to its builder and
    compiling it, which the library may refuse with a message. *)
Definition compileGraphFromConfig {G : Type}
  (assemble : GraphConfig -> Result string G) (config : GraphConfig)
  : Result CompileFailure (CompiledGraph G) :=
  match validateGraphConfig config with
  | Throw e => Throw (CompilationError e)
  | Ok _ =>
      match unknownNode (orEmpty (nodes config)) with
      | Some node =>
          Throw (CompilationError
                   (mkCompilationError
                      ("Unknown node type: " ++ node_type node
                       ++ " (node: " ++ node_id node ++ ")")
                      (graphId config)))
      | None =>
          match assemble config with
          | Ok g => Ok (mkCompiled (graphId config) config g)
          | Throw message => Throw (LibraryError message)
          end
      end
  end.

End Compiler.

(** ** src/lib/mcp/client-stdio.ts and src/lib/mcp/stdio-pool.ts *)

Module StdioPool.
Import Js.

(** The [params] of a [tools/call] request. *)
Record ToolsCallParams : Type := mkParams {
  params_name : string;
  params_arguments : JsValue;
  params_meta : option JsValue
}.

(** The requests a client writes to its child. *)
Inductive Request : Type :=
| ToolsList
| ToolsCall (params : ToolsCallParams).

(** A running child as the pool sees it: its server name, and how it
    answers.  [child_tools] is the outcome of a [tools/list] request
    (the names of the listed tools, or a rejection), [child_answer] the
    outcome of a [tools/call] request. *)
Record Child : Type := mkChild {
  child_server : string;
  child_tools : Result string (list string);
  child_answer : ToolsCallParams -> Result string JsValue
}.

(** One request on the wire: the child it went to and what it was. *)
Definition Sent : Type := (string * Request)%type.

(** [McpClientStdio.listTools()] *)
Definition listTools (client : Child) : Result string (list string) * list Sent :=
  (child_tools client, [(child_server client, ToolsList)]).

(** [McpClientStdio.callTool(name, args)]: the request carries the
    name and the arguments. *)
Definition clientCallTool (client : Child) (name : string) (args : JsValue)
  : Result string JsValue * list Sent :=
  let params := mkParams name args None in
  (child_answer client params, [(child_server client, ToolsCall params)]).

(** [StdioServerPool.callTool(toolName, args, meta)] over the clients
    in the order of the pool's map.  A child whose listing or call
    rejects is logged and passed over. *)
Fixpoint callTool (clients : list Child) (toolName : string) (args : JsValue)
  (meta : option JsValue) : Result string JsValue * list Sent :=
  match clients with
  | [] => (Throw ("Tool not found: " ++ toolName), [])
  | client :: rest =>
      let '(listed, sent1) := listTools client in
      match listed with
      | Ok tools =>
          if Str.mem toolName tools then
            let '(answer, sent2) := clientCallTool client toolName args in
            match answer with
            | Ok result => (Ok result, (sent1 ++ sent2)%list)
            | Throw _ =>
                let '(r, sent3) := callTool rest toolName args meta in
                (r, (sent1 ++ sent2 ++ sent3)%list)
            end
          else
            let '(r, sent3) := callTool rest toolName args meta in
            (r, (sent1 ++ sent3)%list)
      | Throw _ =>
          let '(r, sent3) := callTool rest toolName args meta in
          (r, (sent1 ++ sent3)%list)
      end
  end.

End StdioPool.

(** ** src/lib/neurons/NeuronRegistry.ts and
       src/lib/graphs/GraphRegistry.ts: access control *)

Module Registry.
Import Js.

(** What a registry reads of a neuron or graph config to decide
    access: its id, its owner ([userId]) and its tier. *)
Record Resource : Type := mkResource {
  resourceId : string;
  ownerId : string;
  resourceTier : Z
}.

(** The outcome of [User.findById(userId)]: the query throws, finds no
    user, or finds a user whose [accountLevel] is some value
    ([JUndefined] when the document has none). *)
Inductive UserLookup : Type :=
| LookupThrows
| UserNotFound
| UserFound (accountLevel : JsValue).

(** The two kinds of access-denied error. *)
Inductive AccessDenied : Type :=
| TierTooLow (message : string)
| PrivateResource (message : string).

Definition isNumber (v : JsValue) : bool :=
  match v with JNum _ => true | _ => false end.

Definition FREE_TIER : JsValue := JNum (num_of_Z 4).

Definition tierText (z : Z) : string := NilZero.string_of_int (Z.to_int z).

End Registry.

Module NeuronRegistry.
Import Js Registry.

(** [getUserTier(userId)] *)
Definition getUserTier (findUser : string -> UserLookup) (userId : string) : JsValue :=
  match findUser userId with
  | LookupThrows => FREE_TIER
  | UserNotFound => FREE_TIER
  | UserFound accountLevel => accountLevel
  end.

(** [validateAccess(config, userId)] *)
Definition validateAccess (findUser : string -> UserLookup) (config : Resource)
  (userId : string) : Result AccessDenied unit :=
  if String.eqb (ownerId config) userId then Ok tt
  else if String.eqb (ownerId config) "system" then
    let userTier := getUserTier findUser userId in
    if js_gt userTier (JNum (num_of_Z (resourceTier config)))
    then Throw (TierTooLow
                  ("Neuron '" ++ resourceId config ++ "' requires tier "
                   ++ tierText (resourceTier config) ++ " or higher (user has tier "
                   ++ toString userTier ++ ")"))
    else Ok tt
  else Throw (PrivateResource ("Neuron '" ++ resourceId config ++ "' is private")).

End NeuronRegistry.

Module GraphRegistry.
Import Js Registry.

(** [getUserTier(userId)] *)
Definition getUserTier (findUser : string -> UserLookup) (userId : string) : JsValue :=
  match findUser userId with
  | LookupThrows => FREE_TIER
  | UserNotFound => FREE_TIER
  | UserFound accountLevel =>
      if isNumber accountLevel then accountLevel else FREE_TIER
  end.

(** [validateAccess(graphConfig, userId)] *)
Definition validateAccess (findUser : string -> UserLookup) (graphConfig : Resource)
  (userId : string) : Result AccessDenied unit :=
  if String.eqb (ownerId graphConfig) userId then Ok tt
  else if String.eqb (ownerId graphConfig) "system" then
    let userTier := getUserTier findUser userId in
    if js_gt userTier (JNum (num_of_Z (resourceTier graphConfig)))
    then Throw (TierTooLow
                  ("Graph '" ++ resourceId graphConfig ++ "' requires tier "
                   ++ tierText (resourceTier graphConfig) ++ " or higher (user has tier "
                   ++ toString userTier ++ ")"))
    else Ok tt
  else Throw (PrivateResource
                ("Graph '" ++ resourceId graphConfig
                 ++ "' is private and owned by another user")).

End GraphRegistry.

(** ** src/functions/respond.ts: [respond] *)

Module Respond.
Import Js.

(** What [respond] does to the world, in the order it does it. *)
Inductive Effect : Type :=
| FindUser (userId : string)
| GetGraph (graphId userId : string)
| StartGeneration (conversationId : string)
| LoggerLog (level message : string)
| CallMcpTool (toolName : string) (args : JsValue)
| GraphInvoke (graphId : string)
| RegisterStream (generationId : string)
| GetMessageState (requestId : string)
| CompleteGeneration (generationId : string)
| BackgroundTasks (conversationId : string).

(** What [respond] itself throws, apart from what its collaborators
    raise. *)
Inductive RespondError : Type :=
| UserIdRequired
| GraphLoadFailed (message : string)
| AlreadyInProgress
| Raised (message : string)
| HostTypeError
| HostSyntaxError.

(** A computation that performs effects and may throw: its outcome and
    the effects performed up to it. *)
Definition M (A : Type) : Type := (Result RespondError A * list Effect)%type.

Definition ret {A} (a : A) : M A := (Ok a, []).

Definition throw {A} (e : RespondError) : M A := (Throw e, []).

Definition bind {A B} (m : M A) (k : A -> M B) : M B :=
  match m with
  | (Ok a, t1) => let '(r, t2) := k a in (r, (t1 ++ t2)%list)
  | (Throw e, t1) => (Throw e, t1)
  end.

(** An awaited call on a collaborator: the effect is performed, and a
    rejection is rethrown as it is. *)
Definition call {A} (e : Effect) (outcome : Result string A) : M A :=
  match outcome with
  | Ok a => (Ok a, [e])
  | Throw message => (Throw (Raised message), [e])
  end.

Notation "x <- m ;; k" := (bind m (fun x => k))
  (at level 61, m at next level, right associativity).
Notation "m ;;; k" := (bind m (fun _ => k))
  (at level 61, right associativity).

(** The user document fields [respond] reads. *)
Record UserSettings : Type := mkSettings {
  accountLevel : option Z;
  userDefaultNeuronId : option string;
  userDefaultWorkerNeuronId : option string;
  userDefaultGraphId : option string
}.

(** [InvokeOptions]: the fields [respond] reads. *)
Record InvokeOptions : Type := mkOptions {
  opt_userId : option string;
  opt_graphId : option string;
  opt_conversationId : option string;
  opt_messageId : option string;
  opt_userMessageId : option string;
  opt_stream : bool
}.

(** An error of the graph registry: its [name] and [message]. *)
Record GraphFailure : Type := mkGraphFailure {
  failure_name : string;
  failure_message : string
}.

(** The collaborators of [respond] on the [Red] instance: each is the
    outcome the call has in the run at hand.  [jsonParse] is the host's
    [JSON.parse], [None] when it raises a [SyntaxError]. *)
Record Red : Type := mkRed {
  findUser : string -> Result string (option UserSettings);
  generateConversationId : string -> string;
  freshMessageId : nat -> string;
  getGraph : string -> string -> Result GraphFailure string;
  startGeneration : string -> Result string (option string);
  loggerLog : string -> string -> Result string unit;
  callMcpTool : string -> JsValue -> Result string JsValue;
  graphInvoke : string -> Result string string;
  toolExecutions : string -> Result string JsValue;
  completeGeneration : string -> Result string unit;
  jsonParse : string -> option JsValue
}.

Definition DEFAULT_GRAPH_ID : string := "red-assistant".

(** [o || d] for an optional string. *)
Definition orDefault (o : option string) (d : string) : string :=
  match o with
  | Some s => if Str.is_empty s then d else s
  | None => d
  end.

(** What [respond] returns: the assistant message of the non-streaming
    path, or the generator of the streaming path, not yet started. *)
Inductive Response : Type :=
| AssistantMessage (content : string) (conversationId : string)
| StreamGenerator (graph conversationId generationId : string).

(** The user settings, with the defaults kept when the user is not
    found or the lookup throws. *)
Definition loadSettings (red : Red) (userId : string) : M (string * string) :=
  match findUser red userId with
  | Ok (Some user) =>
      (Ok (orDefault (userDefaultNeuronId user) "red-neuron",
           orDefault (userDefaultGraphId user) DEFAULT_GRAPH_ID),
       [FindUser userId])
  | _ => (Ok ("red-neuron", DEFAULT_GRAPH_ID), [FindUser userId])
  end.

Definition isAccessDenied (error : GraphFailure) : bool :=
  String.eqb (failure_name error) "GraphAccessDeniedError"
  || Str.includes "requires tier" (failure_message error).

Definition isNotFound (error : GraphFailure) : bool :=
  String.eqb (failure_name error) "GraphNotFoundError"
  || Str.includes "not found" (failure_message error).

(** [`${error}`] for an error object: its name and its message, as
    [Error.prototype.toString] joins them. *)
Definition errorText (error : GraphFailure) : string :=
  if Str.is_empty (failure_name error) then failure_message error
  else if Str.is_empty (failure_message error) then failure_name error
  else failure_name error ++ ": " ++ failure_message error.

(** The compiled graph, with the fallback to the system default on
    access denied or not found. *)
Definition loadGraph (red : Red) (graphId userId : string) : M string :=
  match getGraph red graphId userId with
  | Ok compiled => (Ok compiled, [GetGraph graphId userId])
  | Throw error =>
      if isAccessDenied error || isNotFound error then
        match getGraph red DEFAULT_GRAPH_ID userId with
        | Ok compiled =>
            (Ok compiled, [GetGraph graphId userId; GetGraph DEFAULT_GRAPH_ID userId])
        | Throw fallbackError =>
            (Throw (GraphLoadFailed
                      ("Failed to load graph '" ++ graphId
                       ++ "' and fallback failed: " ++ errorText fallbackError)),
             [GetGraph graphId userId; GetGraph DEFAULT_GRAPH_ID userId])
        end
      else
        (Throw (GraphLoadFailed
                  ("Failed to load graph '" ++ graphId ++ "': " ++ errorText error)),
         [GetGraph graphId userId])
  end.

Definition userMessageArgs (conversationId userId content messageId : string) : JsValue :=
  JObj [("conversationId", JStr conversationId); ("userId", JStr userId);
        ("role", JStr "user"); ("content", JStr content);
        ("messageId", JStr messageId); ("toolExecutions", JArr [])].

Definition assistantMessageArgs (conversationId userId content messageId : string)
  (executions : JsValue) : JsValue :=
  JObj [("conversationId", JStr conversationId); ("userId", JStr userId);
        ("role", JStr "assistant"); ("content", JStr content);
        ("messageId", JStr messageId); ("toolExecutions", executions)].

(** [v?.[k]] *)
Definition optionalProp (v : JsValue) (k : string) : JsValue :=
  match v with
  | JUndefined | JNull => JUndefined
  | _ => getProp v k
  end.

(** A step of [respond] that calls no collaborator and may throw. *)
Definition check {A} (outcome : Result RespondError A) : M A := (outcome, []).

(** [metadataResult.isError ? 0 :
     JSON.parse(metadataResult.content?.[0]?.text || '{}').messageCount || 0]:
    the read of [isError] raises on [null] and [undefined], the parse
    on a text that is not JSON, and the read of [messageCount] when
    the text parses to [null]. *)
Definition messageCountOf (red : Red) (metadataResult : JsValue)
  : Result RespondError JsValue :=
  match metadataResult with
  | JUndefined | JNull => Throw HostTypeError
  | _ =>
      if truthy (getProp metadataResult "isError") then Ok (JNum (num_of_Z 0))
      else
        let text :=
          optionalProp (optionalProp (optionalProp metadataResult "content") "0") "text" in
        match jsonParse red (if truthy text then toString text else "{}") with
        | None => Throw HostSyntaxError
        | Some JNull => Throw HostTypeError
        | Some parsed =>
            let messageCount := optionalProp parsed "messageCount" in
            Ok (if truthy messageCount then messageCount else JNum (num_of_Z 0))
        end
  end.

(** The non-streaming path after the initial state is built. *)
Definition invokeAndPersist (red : Red) (options : InvokeOptions)
  (compiled userId conversationId generationId assistantMessageId : string)
  : M Response :=
  content <- call (GraphInvoke compiled) (graphInvoke red compiled) ;;
  executions <-
    match opt_messageId options with
    | Some requestId =>
        if Str.is_empty requestId then ret (JArr [])
        else call (GetMessageState requestId) (toolExecutions red requestId)
    | None => ret (JArr [])
    end ;;
  call (CallMcpTool "store_message"
          (assistantMessageArgs conversationId userId content assistantMessageId executions))
       (callMcpTool red "store_message"
          (assistantMessageArgs conversationId userId content assistantMessageId executions)) ;;;
  call (CompleteGeneration generationId) (completeGeneration red generationId) ;;;
  metadataResult <-
    call (CallMcpTool "get_conversation_metadata"
            (JObj [("conversationId", JStr conversationId)]))
         (callMcpTool red "get_conversation_metadata"
            (JObj [("conversationId", JStr conversationId)])) ;;
  check (messageCountOf red metadataResult) ;;;
  (Ok (AssistantMessage content conversationId), [BackgroundTasks conversationId]).

(** [respond(red, query, options)], for the message of [query]. *)
Definition respond (red : Red) (message : string) (options : InvokeOptions) : M Response :=
  match opt_userId options with
  | None => throw UserIdRequired
  | Some userId =>
  if Str.is_empty userId then throw UserIdRequired else
  settings <- loadSettings red userId ;;
  let graphId := orDefault (opt_graphId options) (snd settings) in
  let conversationId :=
    orDefault (opt_conversationId options) (generateConversationId red message) in
  let userMessageId := orDefault (opt_userMessageId options) (freshMessageId red 0) in
  let assistantMessageId := freshMessageId red 1 in
  compiled <- loadGraph red graphId userId ;;
  started <- call (StartGeneration conversationId) (startGeneration red conversationId) ;;
  match started with
  | None =>
      call (LoggerLog "warn" "Generation already in progress for conversation")
           (loggerLog red "warn" "Generation already in progress for conversation") ;;;
      throw AlreadyInProgress
  | Some generationId =>
  if Str.is_empty generationId then
      call (LoggerLog "warn" "Generation already in progress for conversation")
           (loggerLog red "warn" "Generation already in progress for conversation") ;;;
      throw AlreadyInProgress
  else
  call (LoggerLog "info" ("Starting generation " ++ generationId))
       (loggerLog red "info" ("Starting generation " ++ generationId)) ;;;
  call (CallMcpTool "store_message"
          (userMessageArgs conversationId userId message userMessageId))
       (callMcpTool red "store_message"
          (userMessageArgs conversationId userId message userMessageId)) ;;;
  if opt_stream options
  then ret (StreamGenerator compiled conversationId generationId)
  else invokeAndPersist red options compiled userId conversationId generationId
         assistantMessageId
  end
  end.

(** The first [next()] on the generator of the streaming path: the
    stream is registered under its generation id before the metadata
    item is yielded. *)
Definition startStream (response : Response) : list Effect :=
  match response with
  | StreamGenerator _ _ generationId => [RegisterStream generationId]
  | AssistantMessage _ _ => []
  end.

(** [respond] followed, on the streaming path, by the start of the
    generator. *)
Definition respondAndStart (red : Red) (message : string) (options : InvokeOptions)
  : M Response :=
  match respond red message options with
  | (Ok response, trace) => (Ok response, (trace ++ startStream response)%list)
  | failed => failed
  end.

End Respond.

(** ** src/lib/nodes/universal/templateRenderer.ts: the helpers around
       [renderTemplate] *)

Module TemplateVariables.
Import Js TemplateRenderer.

(** [hasTemplateVariables(str)]: the placeholder expression matches
    somewhere in [str]. *)
Fixpoint hasTemplateVariables (str : string) : bool :=
  match str with
  | EmptyString => false
  | String _ rest =>
      match matchPlaceholder str with
      | Some _ => true
      | None => hasTemplateVariables rest
      end
  end.

(** The matches of [template.matchAll], from left to right and without
    overlap; [skip] counts the characters of a match still to pass
    over. *)
Fixpoint matches (s : string) (skip : nat) : list string :=
  match s with
  | EmptyString => []
  | String _ rest =>
      match skip with
      | S k => matches rest k
      | O =>
          match matchPlaceholder s with
          | Some (path, len) => path :: matches rest (len - 1)
          | None => matches rest 0
          end
      end
  end.

(** [extractTemplateVariables(template)]: the captured paths. *)
Definition extractTemplateVariables (template : string) : list string :=
  matches template 0.

(** [renderParameters(parameters, state)] on the plain object
    [parameters], with the warnings the renderer logs on the way.  A
    string is rendered when it holds the opening text of a placeholder,
    a plain object is rendered in turn, and anything else (an array
    too) is copied as it is. *)
Fixpoint renderObject (state : JsValue) (parameters : JsValue) {struct parameters}
  : list (string * JsValue) * list string :=
  match parameters with
  | JObj fields =>
      (fix entries (fs : list (string * JsValue))
           (rendered : list (string * JsValue)) (warnings : list string) {struct fs}
         : list (string * JsValue) * list string :=
         match fs with
         | [] => (rendered, warnings)
         | (key, value) :: rest =>
             match value with
             | JStr s =>
                 if Str.includes "{{state." s then
                   let '(text, w) := renderTemplate s state in
                   entries rest (set key (JStr text) rendered) (warnings ++ w)%list
                 else entries rest (set key value rendered) warnings
             | JObj _ =>
                 let '(inner, w) := renderObject state value in
                 entries rest (set key (JObj inner) rendered) (warnings ++ w)%list
             | _ => entries rest (set key value rendered) warnings
             end
         end) fields [] []
  | _ => ([], [])
  end.

Definition renderParameters (parameters : list (string * JsValue)) (state : JsValue)
  : list (string * JsValue) * list string :=
  renderObject state (JObj parameters).

End TemplateVariables.

(** ** src/lib/graphs/compiler.ts: what the edges become *)

Module Edges.
Import Js Compiler.



(** The condition function of [addConditionalEdge]:
    [createConditionFunction(edge.condition || '', edge.targets || {},
    edge.fallback)]. *)
Definition conditionFn (edge : GraphEdgeConfig) : JsValue -> string :=
  ConditionEvaluator.createConditionFunction
    match edge_condition edge with Some c => c | None => "" end
    (Some (orEmpty (edge_targets edge)))
    (edge_fallback edge).

(** The target mapping of [addConditionalEdge]: the targets (or, without
    targets, [true] for [to]), then [__fallback__] when a fallback is
    declared, then [__end__]. *)
Definition targetMap (edge : GraphEdgeConfig) : list (string * string) :=
  let explicit :=
    match edge_targets edge with
    | Some targets => fold_left (fun m kv => set (fst kv) (snd kv) m) targets []
    | None =>
        match present (edge_to edge) with
        | Some to => [("true", to)]
        | None => []
        end
    end in
  let withFallback :=
    match present (edge_fallback edge) with
    | Some fallback => set ConditionEvaluator.FALLBACK_KEY fallback explicit
    | None => explicit
    end in
  set END END withFallback.



End Edges.

(** ** src/lib/graphs/state.ts: the reducer of the [data] channel *)

Module GraphState.
Import Js UniversalNode.



End GraphState.

(** ** src/lib/nodes/universal/executors/errorHandler.ts *)

Module ErrorHandler.
Import Js.

(** [ErrorHandlingConfig]; [retry] and [retryDelay] are whole numbers,
    an absent [fallbackValue] is [undefined]. *)
Record ErrorHandlingConfig : Type := mkErrorHandling {
  retry : option Z;
  retryDelay : option Z;
  fallbackValue : JsValue;
  onError : option string
}.

(** What the handler does besides returning: it runs the operation and
    it waits. *)
Inductive Event : Type :=
| Run (attempt : nat)
| Wait (ms : Z).

(** What the handler throws: the last error of the operation, [null]
    when the operation was never run, or the [TypeError] of
    [JSON.stringify(undefined).substring]. *)
Inductive Thrown : Type :=
| LastError (message : string)
| ThrownNull
| ThrownTypeError.

(** The [while] loop from [attempt] on, with [remaining = retry -
    attempt] retries left.  [operation n] is the outcome of the
    [n]-th run of the operation. *)
Fixpoint attempts (operation : nat -> Result string JsValue) (delay : Z)
  (remaining attempt : nat) : Result string JsValue * list Event :=
  match operation attempt with
  | Ok result => (Ok result, [Run attempt])
  | Throw message =>
      match remaining with
      | O => (Throw message, [Run attempt])
      | S remaining' =>
          let '(outcome, events) := attempts operation delay remaining' (S attempt) in
          (outcome, Run attempt :: Wait delay :: events)
      end
  end.

(** The [switch] on [onError], once the retries are used up. *)
Definition applyStrategy (config : ErrorHandlingConfig) (lastError : Thrown)
  : Result Thrown JsValue :=
  match onError config with
  | Some strategy =>
      if String.eqb strategy "fallback" then
        match fallbackValue config with
        | JUndefined => Throw ThrownTypeError
        | value => Ok value
        end
      else if String.eqb strategy "skip" then Ok JUndefined
      else Throw lastError
  | None => Throw lastError
  end.

(** [executeWithErrorHandling(operation, config, stepInfo)] *)
Definition executeWithErrorHandling (operation : nat -> Result string JsValue)
  (config : ErrorHandlingConfig) : Result Thrown JsValue * list Event :=
  let retries := match retry config with Some r => r | None => 0%Z end in
  let delay := match retryDelay config with Some d => d | None => 1000%Z end in
  if (retries <? 0)%Z then (applyStrategy config ThrownNull, [])
  else
    match attempts operation delay (Z.to_nat retries) 0 with
    | (Ok result, events) => (Ok result, events)
    | (Throw message, events) => (applyStrategy config (LastError message), events)
    end.

(** The handler called without a config: [config || {}]. *)
Definition noConfig : ErrorHandlingConfig := mkErrorHandling None None JUndefined None.

End ErrorHandler.

(** ** src/lib/mcp/stdio-pool.ts: the listing of all tools *)

Module StdioPoolTools.
Import Js StdioPool.

(** [StdioServerPool.getAllTools()]: one entry for each child, in the
    order of the pool's map; a child whose listing rejects is logged
    and listed without tools. *)
Definition getAllTools (clients : list Child)
  : list (string * list string) * list Sent :=
  (map (fun client =>
          (child_server client,
           match child_tools client with
           | Ok tools => tools
           | Throw _ => []
           end))
       clients,
   flat_map (fun client => snd (listTools client)) clients).

End StdioPoolTools.

(** ** src/index.ts (second part of src/functions/respond.ts):
       [Red.callMcpTool] *)

Module RedTools.
Import Js StdioPool.

(** [s.substring(0, n)] *)
Fixpoint take (n : nat) (s : string) : string :=
  match n, s with
  | O, _ => EmptyString
  | S n', String c s' => String c (take n' s')
  | S _, EmptyString => EmptyString
  end.

(** [sanitizeArgsForLogging(args)]: long strings are cut. *)
Definition sanitizeArgsForLogging (args : list (string * JsValue))
  : list (string * JsValue) :=
  fold_left
    (fun sanitized kv =>
       match snd kv with
       | JStr value =>
           set (fst kv)
             (JStr (if (200 <? String.length value)%nat
                    then take 200 value ++ "..." else value))
             sanitized
       | value => set (fst kv) value sanitized
       end)
    args [].

(** A log entry of [callMcpTool]: its level, the tool, the protocol
    named in its metadata, and the arguments logged with the start of
    the call. *)
Record LogEntry : Type := mkLogEntry {
  log_level : string;
  log_toolName : string;
  log_protocol : string;
  log_args : option (list (string * JsValue))
}.

(** The transports and the logger of a [Red] instance: the stdio pool's
    children, [mcpRegistry.callTool] and [logger.log], each with the
    outcome it has. *)
Record Transports : Type := mkTransports {
  mcpStdioPool : list Child;
  registryCallTool : string -> JsValue -> JsValue -> Result string JsValue;
  loggerLog : LogEntry -> Result string unit
}.

Inductive Event : Type :=
| Logged (entry : LogEntry)
| Stdio (request : Sent)
| Http (toolName : string) (args meta : JsValue).

Inductive Thrown : Type :=
| Rejected (message : string)
| TypeError.

(** [result.isError], which raises on [null] and [undefined]. *)
Definition isError (result : JsValue) : Result Thrown bool :=
  match result with
  | JUndefined | JNull => Throw TypeError
  | _ => Ok (truthy (getProp result "isError"))
  end.

(** [context?.field] *)
Definition contextField (context : option JsValue) (field : string) : JsValue :=
  match context with
  | Some JUndefined | Some JNull | None => JUndefined
  | Some c => getProp c field
  end.

(** The log of a finished call and what it lets through: the result,
    or what the check of [isError] or the logger raised. *)
Definition logOutcome (t : Transports) (toolName protocol : string) (result : JsValue)
  : Result Thrown JsValue * list Event :=
  match isError result with
  | Throw e => (Throw e, [])
  | Ok failed =>
      let entry :=
        mkLogEntry (if failed then "warn" else "success") toolName protocol None in
      match loggerLog t entry with
      | Ok _ => (Ok result, [Logged entry])
      | Throw message => (Throw (Rejected message), [Logged entry])
      end
  end.

(** The [catch] of the stdio attempt: the call over the registry. *)
Definition overHttp (t : Transports) (toolName : string) (args : JsValue)
  (context : option JsValue) : Result Thrown JsValue * list Event :=
  let meta :=
    JObj [("conversationId", contextField context "conversationId");
          ("generationId", contextField context "generationId");
          ("messageId", contextField context "messageId")] in
  let attempt :=
    match registryCallTool t toolName args meta with
    | Ok result => logOutcome t toolName "MCP/HTTP" result
    | Throw message => (Throw (Rejected message), [])
    end in
  match attempt with
  | (Ok result, events) => (Ok result, Http toolName args meta :: events)
  | (Throw httpError, events) =>
      let entry := mkLogEntry "error" toolName "MCP (all transports)" None in
      (match loggerLog t entry with
       | Ok _ => Throw httpError
       | Throw message => Throw (Rejected message)
       end,
       (Http toolName args meta :: events ++ [Logged entry])%list)
  end.

(** [Red.callMcpTool(toolName, args, context)] *)
Definition callMcpTool (t : Transports) (toolName : string)
  (args : list (string * JsValue)) (context : option JsValue)
  : Result Thrown JsValue * list Event :=
  let start :=
    mkLogEntry "info" toolName "MCP/JSON-RPC 2.0" (Some (sanitizeArgsForLogging args)) in
  match loggerLog t start with
  | Throw message => (Throw (Rejected message), [Logged start])
  | Ok _ =>
      let '(answer, sent) := callTool (mcpStdioPool t) toolName (JObj args) context in
      let attempt :=
        match answer with
        | Ok result => logOutcome t toolName "MCP/stdio" result
        | Throw message => (Throw (Rejected message), [])
        end in
      match attempt with
      | (Ok result, events) =>
          (Ok result, (Logged start :: map Stdio sent ++ events)%list)
      | (Throw _, events) =>
          let '(outcome, later) := overHttp t toolName (JObj args) context in
          (outcome, (Logged start :: map Stdio sent ++ events ++ later)%list)
      end
  end.

End RedTools.

(** ** src/lib/nodes/universal/universalNode.ts (src/unnamed/part_003):
       [validateUniversalNodeConfig] *)

Module UniversalNodeValidation.
Import Js StepExecutor UniversalNode.

(** A name between double quotes. *)
Definition quoted (name : string) : string := dquote ++ name ++ dquote.

Definition validTypes : list string :=
  ["neuron"; "tool"; "transform"; "conditional"; "loop"].

Definition validOps : list string := ["map"; "filter"; "select"].

(** [list.includes(v)] for a list of strings. *)
Definition includesValue (l : list string) (v : JsValue) : bool :=
  match v with
  | JStr s => Str.mem s l
  | _ => false
  end.

(** [Math.ceil] of a finite decimal. *)
Definition ceiling (n : JsNumber) : Z :=
  (- ((- mant n) / 10 ^ Z.of_nat (expo n)))%Z.

(** How often the body of [for (let i = 0; i < v.length; i++)] runs. *)
Definition loopCount (v : JsValue) : nat :=
  match toNumber (toPrimitive (getProp v "length")) with
  | Some n => Z.to_nat (ceiling n)
  | None => O
  end.

Definition missingField (stepNumber : nat) (type field : string) : string :=
  "Step " ++ nat_to_string stepNumber ++ " (" ++ type ++ "): missing required field "
  ++ quoted field.

(** [if (!config.field) throw ...] *)
Definition requireField (stepNumber : nat) (type : string) (config : JsValue)
  (field : string) : Result string unit :=
  if truthy (getProp config field) then Ok tt
  else Throw (missingField stepNumber type field).

(** [if (config.field === undefined) throw ...] *)
Definition requireDefined (stepNumber : nat) (type : string) (config : JsValue)
  (field : string) : Result string unit :=
  match getProp config field with
  | JUndefined => Throw (missingField stepNumber type field)
  | _ => Ok tt
  end.

(** The check of the nested steps of a loop, from index [i] on, for
    [count] more steps. *)
Fixpoint validateNested (stepNumber : nat) (steps : JsValue) (i count : nat)
  : Result string unit :=
  match count with
  | O => Ok tt
  | S count' =>
      match getProp steps (nat_to_string i) with
      | JUndefined | JNull => Throw typeError
      | nestedStep =>
          if negb (truthy (getProp nestedStep "type"))
             || negb (truthy (getProp nestedStep "config"))
          then Throw ("Step " ++ nat_to_string stepNumber ++ " (loop): nested step "
                      ++ nat_to_string (S i) ++ " missing " ++ quoted "type"
                      ++ " or " ++ quoted "config")
          else validateNested stepNumber steps (S i) count'
      end
  end.

(** The type-specific part of the validation of one step. *)
Definition validateByType (stepNumber : nat) (type : string) (config : JsValue)
  : Result string unit :=
  if String.eqb type "neuron" then
    bindR (requireField stepNumber type config "userPrompt") (fun _ =>
    requireField stepNumber type config "outputField")
  else if String.eqb type "tool" then
    bindR (requireField stepNumber type config "toolName") (fun _ =>
    bindR (requireField stepNumber type config "outputField") (fun _ =>
    requireField stepNumber type config "parameters"))
  else if String.eqb type "transform" then
    bindR (requireField stepNumber type config "operation") (fun _ =>
    bindR (requireField stepNumber type config "inputField") (fun _ =>
    bindR (requireField stepNumber type config "outputField") (fun _ =>
    if includesValue validOps (getProp config "operation") then Ok tt
    else Throw ("Step " ++ nat_to_string stepNumber ++ " (transform): invalid operation "
                ++ quoted (toString (getProp config "operation"))
                ++ ". Must be one of: " ++ Str.join ", " validOps))))
  else if String.eqb type "conditional" then
    bindR (requireField stepNumber type config "condition") (fun _ =>
    bindR (requireField stepNumber type config "setField") (fun _ =>
    bindR (requireDefined stepNumber type config "trueValue") (fun _ =>
    requireDefined stepNumber type config "falseValue")))
  else if String.eqb type "loop" then
    if negb (truthy (getProp config "maxIterations"))
       || js_lt (getProp config "maxIterations") (JNum (num_of_Z 1))
    then Throw ("Step " ++ nat_to_string stepNumber ++ " (loop): missing or invalid "
                ++ quoted "maxIterations" ++ " (must be >= 1)")
    else
      bindR (requireField stepNumber type config "exitCondition") (fun _ =>
      if negb (truthy (getProp config "steps"))
         || strictEq (getProp (getProp config "steps") "length") (JNum (num_of_Z 0))
      then Throw ("Step " ++ nat_to_string stepNumber ++ " (loop): missing or empty "
                  ++ quoted "steps" ++ " array")
      else validateNested stepNumber (getProp config "steps") 0
             (loopCount (getProp config "steps")))
  else Ok tt.

(** The body of the loop over the steps, for the step at index [i]. *)
Definition validateStep (i : nat) (step : UniversalStep) : Result string unit :=
  let stepNumber := S i in
  if Str.is_empty (step_type step) then
    Throw ("Step " ++ nat_to_string stepNumber ++ ": missing " ++ quoted "type" ++ " field")
  else if negb (truthy (step_config step)) then
    Throw ("Step " ++ nat_to_string stepNumber ++ ": missing " ++ quoted "config" ++ " field")
  else if negb (Str.mem (step_type step) validTypes) then
    Throw ("Step " ++ nat_to_string stepNumber ++ ": invalid type "
           ++ quoted (step_type step) ++ ". Must be one of: " ++ Str.join ", " validTypes)
  else validateByType stepNumber (step_type step) (step_config step).

Fixpoint validateSteps (i : nat) (steps : list UniversalStep) : Result string unit :=
  match steps with
  | [] => Ok tt
  | step :: rest =>
      bindR (validateStep i step) (fun _ => validateSteps (S i) rest)
  end.

(** [validateUniversalNodeConfig(nodeConfig)] *)
Definition validateUniversalNodeConfig (nodeConfig : UniversalNodeConfig)
  : Result string unit :=
  let invalid :=
    "Invalid universal node config: must provide either " ++ quoted "steps"
    ++ " array or " ++ quoted "type" ++ " + " ++ quoted "config" in
  match cfg_steps nodeConfig with
  | Some [] => Throw "Invalid universal node config: steps array cannot be empty"
  | Some steps => validateSteps 0 steps
  | None =>
      match cfg_type nodeConfig, cfg_config nodeConfig with
      | Some type, Some config =>
          if negb (Str.is_empty type) && truthy config
          then validateSteps 0 [mkStep type config None]
          else Throw invalid
      | _, _ => Throw invalid
      end
  end.

End UniversalNodeValidation.

(** ** Context with summary (src/unnamed/part_000) *)

Module ContextSummary.
Import Js.

Record Message : Type := mkMessage {
  role : string;
  content : string
}.

(** [Options]; the numbers are whole numbers. *)
Record Options : Type := mkOptions {
  model : option string;
  max_tokens : option Z;
  buffer : option Z
}.

Record SummaryResponse : Type := mkSummaryResponse {
  context : list string;
  tokens : nat;
  summary : option string
}.

(** What the function calls and does not define: the tokenizer
    ([encoding_for_model(name)] throws or gives an encoder, of which
    only the length of [encode(text)] is read) and the chat completion
    ([create model prompt max_tokens] throws, also when the answer has
    no first choice, or gives the content of the first choice, [None]
    for [null]). *)
Record Services : Type := mkServices {
  encoding_for_model : string -> Result string (string -> nat);
  create : string -> string -> Z -> Result string (option string)
}.

Definition MODEL_NAME : string := "gpt-4o".
Definition MAX_TOKENS : Z := 8000.
Definition SUMMARY_BUFFER : Z := 500.

(** [value || fallback] on an optional number. *)
Definition orNumber (value : option Z) (fallback : Z) : Z :=
  match value with
  | Some n => if (n =? 0)%Z then fallback else n
  | None => fallback
  end.

(** [value || fallback] on an optional string. *)
Definition orString (value : option string) (fallback : string) : string :=
  match value with
  | Some s => if Str.is_empty s then fallback else s
  | None => fallback
  end.

(** [options?.max_tokens || MAX_TOKENS - (options?.buffer || SUMMARY_BUFFER)] *)
Definition tokensMinusBuffer (options : option Options) : Z :=
  orNumber (match options with Some o => max_tokens o | None => None end)
           (MAX_TOKENS - orNumber (match options with Some o => buffer o | None => None end)
                                  SUMMARY_BUFFER).

Definition modelOf (options : option Options) : string :=
  orString (match options with Some o => model o | None => None end) MODEL_NAME.

Definition format (msg : Message) : string :=
  (if String.eqb (role msg) "user" then "User" else "Assistant") ++ ": " ++ content msg.

(** The three variables of the loop. *)
Record Walk : Type := mkWalk {
  totalTokens : nat;
  retained : list string;
  truncated : list Message
}.

(** The loop from the newest message to the oldest; [newestFirst] is
    the conversation in the order the loop visits it. *)
Fixpoint walk (count : string -> nat) (limit : Z) (newestFirst : list Message)
  (w : Walk) : Walk :=
  match newestFirst with
  | [] => w
  | msg :: older =>
      let formatted := format msg in
      let n := count formatted in
      if (limit <? Z.of_nat (totalTokens w + n))%Z
      then walk count limit older
             (mkWalk (totalTokens w) (retained w) (msg :: truncated w))
      else walk count limit older
             (mkWalk (totalTokens w + n) (formatted :: retained w) (truncated w))
  end.

Definition formatContextWithSummary (services : Services) (conversation : list Message)
  (options : option Options) : Result string SummaryResponse :=
  match encoding_for_model services (modelOf options) with
  | Throw e => Throw e
  | Ok count =>
      let w := walk count (tokensMinusBuffer options) (List.rev conversation)
                 (mkWalk 0 [] []) in
      match truncated w with
      | [] => Ok (mkSummaryResponse (retained w) (totalTokens w) None)
      | _ :: _ =>
          let summaryPrompt := Str.join (String (ascii_of_nat 10) EmptyString) (map format (truncated w)) in
          match create services (modelOf options) summaryPrompt
                  (orNumber (match options with Some o => buffer o | None => None end)
                            SUMMARY_BUFFER) with
          | Throw e => Throw e
          | Ok text =>
              Ok (mkSummaryResponse (retained w) (totalTokens w)
                    (Some match text with
                          | Some s => s
                          | None => "[Summary unavailable]"
                          end))
          end
      end
  end.

End ContextSummary.

(** ** src/lib/nodes/universal/executors/toolExecutor.ts *)

Module ToolExecutor.
Import Js ErrorHandler TemplateVariables.

(** [ToolStepConfig]; an absent [retryOnError] is [false], [maxRetries]
    is a whole number. *)
Record ToolStepConfig : Type := mkToolStep {
  toolName : string;
  parameters : list (string * JsValue);
  outputField : string;
  retryOnError : bool;
  maxRetries : option Z;
  errorHandling : option ErrorHandlingConfig
}.

(** What the executor calls and does not define.  [callTool run
    attempt name params meta] is the outcome of
    [mcpClient.callTool(name, params, meta)] at turn [attempt] of the
    retry loop, in the [run]-th run of the executor under the error
    handler (run [0] without one); [jsonParse] is [JSON.parse], [None]
    when it throws. *)
Record Host : Type := mkHost {
  callTool : nat -> nat -> string -> JsValue -> JsValue -> Result string JsValue;
  jsonParse : string -> option JsValue
}.

(** What the executor does besides returning. *)
Inductive Event : Type :=
| Called (name : string) (params meta : JsValue)
| Waited (ms : Z).

(** [v?.[k]] *)
Definition optProp (v : JsValue) (k : string) : JsValue :=
  match v with
  | JUndefined | JNull => JUndefined
  | _ => getProp v k
  end.

Definition isArray (v : JsValue) : bool :=
  match v with JArr _ => true | _ => false end.

(** [JSON.parse(JSON.stringify(v))] for a value other than
    [undefined]: a property whose value is [undefined] is dropped, an
    [undefined] element becomes [null]. *)
Fixpoint jsonCopy (v : JsValue) {struct v} : JsValue :=
  match v with
  | JArr elems =>
      JArr ((fix copies (l : list JsValue) {struct l} : list JsValue :=
               match l with
               | [] => []
               | JUndefined :: rest => JNull :: copies rest
               | e :: rest => jsonCopy e :: copies rest
               end) elems)
  | JObj fields =>
      JObj ((fix copies (fs : list (string * JsValue)) {struct fs}
               : list (string * JsValue) :=
               match fs with
               | [] => []
               | (_, JUndefined) :: rest => copies rest
               | (key, value) :: rest => (key, jsonCopy value) :: copies rest
               end) fields)
  | _ => v
  end.

(** The result content the executor extracts: the parsed text of the
    first content item, or the text itself when it is not JSON. *)
Definition extractResult (h : Host) (result : JsValue) : JsValue :=
  if truthy result && negb (truthy (getProp result "isError"))
     && truthy (getProp result "content") && isArray (getProp result "content")
  then
    let firstContent := getProp (getProp result "content") "0" in
    if strictEq (optProp firstContent "type") (JStr "text")
       && truthy (getProp firstContent "text")
    then
      match jsonParse h (toString (getProp firstContent "text")) with
      | Some parsed => parsed
      | None => getProp firstContent "text"
      end
    else result
  else result.

(** The serializable copy: [JSON.stringify(undefined)] is [undefined],
    which [JSON.parse] refuses, and the executor then falls back to
    [String(undefined)]. *)
Definition serialize (extracted : JsValue) : JsValue :=
  match extracted with
  | JUndefined => JStr "undefined"
  | _ => jsonCopy extracted
  end.

(** The [for] loop from [attempt] on, with [remaining = maxRetries -
    attempt] turns left after this one. *)
Fixpoint callLoop (h : Host) (run : nat) (name : string) (params meta : JsValue)
  (remaining attempt : nat) : Result string JsValue * list Event :=
  match callTool h run attempt name params meta with
  | Ok result => (Ok (serialize (extractResult h result)), [Called name params meta])
  | Throw message =>
      match remaining with
      | O => (Throw message, [Called name params meta])
      | S remaining' =>
          let '(outcome, events) := callLoop h run name params meta remaining' (S attempt) in
          (outcome,
           Called name params meta :: Waited ((Z.of_nat attempt + 1) * 1000) :: events)
      end
  end.

Definition metaOf (state : JsValue) : JsValue :=
  JObj [("conversationId", optProp (getProp state "options") "conversationId");
        ("generationId", optProp (getProp state "options") "generationId");
        ("messageId", getProp state "messageId")].

Definition maxRetriesOf (config : ToolStepConfig) : Z :=
  if retryOnError config
  then match maxRetries config with Some m => m | None => 3%Z end
  else 0%Z.

(** [executeToolInternal(config, state)] in run [run], on a state that
    is an object. *)
Definition executeToolInternal (h : Host) (run : nat) (config : ToolStepConfig)
  (state : list (string * JsValue))
  : Result string (list (string * JsValue)) * list Event :=
  if negb (truthy (getProp (JObj state) "mcpClient")) then
    (Throw "Tool step failed: MCP client not available in state", [])
  else
    let renderedParams := JObj (fst (renderParameters (parameters config) (JObj state))) in
    let meta := metaOf (JObj state) in
    if (maxRetriesOf config <? 0)%Z then
      (Throw "Tool step failed: Tool call failed", [])
    else
      match callLoop h run (toolName config) renderedParams meta
              (Z.to_nat (maxRetriesOf config)) 0 with
      | (Ok serialized, events) => (Ok [(outputField config, serialized)], events)
      | (Throw message, events) => (Throw ("Tool step failed: " ++ message), events)
      end.

(** The operation handed to the error handler: its [n]-th run. *)
Definition operation (h : Host) (config : ToolStepConfig)
  (state : list (string * JsValue)) (run : nat) : Result string JsValue :=
  match fst (executeToolInternal h run config state) with
  | Ok update => Ok (JObj update)
  | Throw message => Throw message
  end.

(** [executeTool(config, state)]: what it returns or throws, and the
    calls and waits on the way, those of the error handler included. *)
Definition executeTool (h : Host) (config : ToolStepConfig)
  (state : list (string * JsValue)) : Result Thrown JsValue * list Event :=
  match errorHandling config with
  | Some handling =>
      let '(outcome, handled) :=
        executeWithErrorHandling (operation h config state) handling in
      (outcome,
       flat_map (fun e => match e with
                          | Run n => snd (executeToolInternal h n config state)
                          | Wait ms => [Waited ms]
                          end) handled)
  | None =>
      match executeToolInternal h 0 config state with
      | (Ok update, events) => (Ok (JObj update), events)
      | (Throw message, events) => (Throw (LastError message), events)
      end
  end.

End ToolExecutor.

(** ** src/lib/nodes/universal/executors/conditionalExecutor.ts:
       the condition evaluator *)

Module ConditionalExecutor.
Import Js.

(** What [parseFloat] gives. *)
Inductive Float : Type :=
| FNaN
| FNum (n : JsNumber)
| FInfinity (negative : bool).

Definition isNaN (x : Float) : bool :=
  match x with FNaN => true | _ => false end.

(** [x < y] on numbers that are not [NaN]. *)
Definition float_ltb (x y : Float) : bool :=
  match x, y with
  | FNum a, FNum b => num_ltb a b
  | FInfinity true, FInfinity true => false
  | FInfinity true, _ => true
  | _, FInfinity true => false
  | FInfinity false, _ => false
  | _, FInfinity false => true
  | _, _ => false
  end.

(** [x === y] on numbers that are not [NaN]. *)
Definition float_eqb (x y : Float) : bool :=
  match x, y with
  | FNum a, FNum b => num_eqb a b
  | FInfinity s, FInfinity t => Bool.eqb s t
  | _, _ => false
  end.

(** [s.split(sep)] for a separator of more than one character; [skip]
    counts the characters of a separator still to pass over. *)
Fixpoint splitOn (sep : string) (skip : nat) (s : string) : list string :=
  match s with
  | EmptyString => [EmptyString]
  | String c s' =>
      match skip with
      | S k => splitOn sep k s'
      | O =>
          if Str.startsWith sep s
          then EmptyString :: splitOn sep (String.length sep - 1) s'
          else match splitOn sep 0 s' with
               | p :: ps => String c p :: ps
               | [] => [String c EmptyString]
               end
      end
  end.

Definition dquote : string := String (ascii_of_nat 34) EmptyString.

(** [stripQuotes(str)] *)
Definition stripQuotes (str : string) : string :=
  let trimmed := Str.trim str in
  if (Str.startsWith dquote trimmed && Str.endsWith dquote trimmed)
     || (Str.startsWith "'" trimmed && Str.endsWith "'" trimmed)
  then Str.slice_inner 1 1 trimmed
  else trimmed.

Definition no_line_terminator (s : string) : bool :=
  Str.forallb_str (fun c => negb (Str.is_line_terminator c)) s.

Fixpoint lastChar (s : string) : option ascii :=
  match s with
  | EmptyString => None
  | String c EmptyString => Some c
  | String _ s' => lastChar s'
  end.

(** The end of the comparison pattern, [\s*(.+)$], on what follows the
    operator: the white space is taken as far as it goes, and given
    back only when nothing else is left for the right side. *)
Definition matchRight (t : string) : option string :=
  let rhs := Str.trimStart t in
  if negb (Str.is_empty rhs) then
    if no_line_terminator rhs then Some rhs else None
  else
    match lastChar t with
    | Some c => if Str.is_line_terminator c then None else Some (String c EmptyString)
    | None => None
    end.

Definition char_is (a : ascii) (c : string) : bool := String.eqb (String a EmptyString) c.

(** [\s*([<>]=?|[!=]==?)\s*(.+)$] on what follows the left side: the
    longer operator is tried before the shorter one. *)
Definition matchOperator (rest : string) : option (string * string) :=
  match Str.trimStart rest with
  | String a r2 =>
      if char_is a "<" || char_is a ">" then
        match r2 with
        | String "=" r3 =>
            match matchRight r3 with
            | Some rhs => Some (String a "=", rhs)
            | None =>
                match matchRight r2 with
                | Some rhs => Some (String a EmptyString, rhs)
                | None => None
                end
            end
        | _ =>
            match matchRight r2 with
            | Some rhs => Some (String a EmptyString, rhs)
            | None => None
            end
        end
      else if char_is a "!" || char_is a "=" then
        match r2 with
        | String "=" r3 =>
            match r3 with
            | String "=" r4 =>
                match matchRight r4 with
                | Some rhs => Some (String a "==", rhs)
                | None =>
                    match matchRight r3 with
                    | Some rhs => Some (String a "=", rhs)
                    | None => None
                    end
                end
            | _ =>
                match matchRight r3 with
                | Some rhs => Some (String a "=", rhs)
                | None => None
                end
            end
        | _ => None
        end
      else None
  | EmptyString => None
  end.

(** The lazy left side [(.+?)]: [lhs] is what it holds, and it takes
    one more character of [rest] each time the remainder of the
    pattern fails. *)
Fixpoint matchFrom (lhs rest : string) : option (string * string * string) :=
  match matchOperator rest with
  | Some (operator, rhs) => Some (lhs, operator, rhs)
  | None =>
      match rest with
      | EmptyString => None
      | String c rest' =>
          if Str.is_line_terminator c then None
          else matchFrom (lhs ++ String c EmptyString) rest'
      end
  end.

(** [trimmed.match(/^(.+?)\s*([<>]=?|[!=]==?)\s*(.+)$/)]: the left
    side, the operator and the right side. *)
Definition matchComparison (trimmed : string) : option (string * string * string) :=
  match trimmed with
  | EmptyString => None
  | String c rest =>
      if Str.is_line_terminator c then None
      else matchFrom (String c EmptyString) rest
  end.

(** The numeric [switch]; [None] when no case applies. *)
Definition compareNumbers (operator : string) (leftNum rightNum : Float) : option bool :=
  if String.eqb operator ">" then Some (float_ltb rightNum leftNum)
  else if String.eqb operator ">=" then Some (negb (float_ltb leftNum rightNum))
  else if String.eqb operator "<" then Some (float_ltb leftNum rightNum)
  else if String.eqb operator "<=" then Some (negb (float_ltb rightNum leftNum))
  else if String.eqb operator "==" then Some (float_eqb leftNum rightNum)
  else if String.eqb operator "!=" then Some (negb (float_eqb leftNum rightNum))
  else None.

(** The string [switch]; [None] when no case applies. *)
Definition compareStrings (operator : string) (leftStr rightStr : string) : option bool :=
  if String.eqb operator "==" || String.eqb operator "===" then
    Some (String.eqb leftStr rightStr)
  else if String.eqb operator "!=" || String.eqb operator "!==" then
    Some (negb (String.eqb leftStr rightStr))
  else None.

(** The existence check the evaluator ends with. *)
Definition exists_ (trimmed : string) : bool :=
  negb (Str.is_empty trimmed)
  && negb (String.eqb trimmed "0")
  && negb (String.eqb trimmed "null")
  && negb (String.eqb trimmed "undefined").

(** [evaluateCondition(conditionStr)]; [parseFloat] is the host's.  The
    recursion is on the parts of a split, each shorter than the whole:
    [fuel] bounds its depth. *)
Fixpoint evaluateWith (parseFloat : string -> Float) (fuel : nat) (conditionStr : string)
  : bool :=
  let trimmed := Str.trim conditionStr in
  if String.eqb trimmed "true" then true
  else if String.eqb trimmed "false" then false
  else
    match fuel with
    | O => false
    | S fuel' =>
        if Str.includes " || " trimmed then
          existsb (fun part => evaluateWith parseFloat fuel' (Str.trim part))
                  (splitOn " || " 0 trimmed)
        else if Str.includes " && " trimmed then
          forallb (fun part => evaluateWith parseFloat fuel' (Str.trim part))
                  (splitOn " && " 0 trimmed)
        else
          let lastly := exists_ trimmed in
          match matchComparison trimmed with
          | Some (lhs, operator, rhs) =>
              let leftNum := parseFloat (Str.trim lhs) in
              let rightNum := parseFloat (Str.trim rhs) in
              let strings :=
                match compareStrings operator (stripQuotes (Str.trim lhs))
                        (stripQuotes (Str.trim rhs)) with
                | Some answer => answer
                | None => lastly
                end in
              if negb (isNaN leftNum) && negb (isNaN rightNum) then
                match compareNumbers operator leftNum rightNum with
                | Some answer => answer
                | None => strings
                end
              else strings
          | None => lastly
          end
    end.

Definition evaluateCondition (parseFloat : string -> Float) (conditionStr : string) : bool :=
  evaluateWith parseFloat (S (String.length conditionStr)) conditionStr.

End ConditionalExecutor.

(** ** src/lib/nodes/universal/executors/transformExecutor.ts:
       the condition of [filter] and [append] *)

Module TransformCondition.
Import Js ConditionalExecutor.

(** [\s*([<>]=?|[!=]=)\s*(.+)$] on what follows the left side. *)
Definition matchOperator (rest : string) : option (string * string) :=
  match Str.trimStart rest with
  | String a r2 =>
      if char_is a "<" || char_is a ">" then
        match r2 with
        | String "=" r3 =>
            match matchRight r3 with
            | Some rhs => Some (String a "=", rhs)
            | None =>
                match matchRight r2 with
                | Some rhs => Some (String a EmptyString, rhs)
                | None => None
                end
            end
        | _ =>
            match matchRight r2 with
            | Some rhs => Some (String a EmptyString, rhs)
            | None => None
            end
        end
      else if char_is a "!" || char_is a "=" then
        match r2 with
        | String "=" r3 =>
            match matchRight r3 with
            | Some rhs => Some (String a "=", rhs)
            | None => None
            end
        | _ => None
        end
      else None
  | EmptyString => None
  end.

(** The lazy left side [(.+?)], as in the conditional executor. *)
Fixpoint matchFrom (lhs rest : string) : option (string * string * string) :=
  match matchOperator rest with
  | Some (operator, rhs) => Some (lhs, operator, rhs)
  | None =>
      match rest with
      | EmptyString => None
      | String c rest' =>
          if Str.is_line_terminator c then None
          else matchFrom (lhs ++ String c EmptyString) rest'
      end
  end.

(** [trimmed.match(/^(.+?)\s*([<>]=?|[!=]=)\s*(.+)$/)] *)
Definition matchComparison (trimmed : string) : option (string * string * string) :=
  match trimmed with
  | EmptyString => None
  | String c rest =>
      if Str.is_line_terminator c then None
      else matchFrom (String c EmptyString) rest
  end.

(** [evaluateCondition(conditionStr)]; [parseFloat] is the host's. *)
Definition evaluateCondition (parseFloat : string -> Float) (conditionStr : string) : bool :=
  let trimmed := Str.trim conditionStr in
  if String.eqb trimmed "true" then true
  else if String.eqb trimmed "false" then false
  else
    let lastly := negb (Str.is_empty trimmed) && negb (String.eqb trimmed "0") in
    match matchComparison trimmed with
    | Some (lhs, operator, rhs) =>
        let leftNum := parseFloat (Str.trim lhs) in
        let rightNum := parseFloat (Str.trim rhs) in
        if negb (isNaN leftNum) && negb (isNaN rightNum) then
          match compareNumbers operator leftNum rightNum with
          | Some answer => answer
          | None => lastly
          end
        else lastly
    | None => lastly
    end.

End TransformCondition.

(* ===================================================================== *)
(** * Theorems *)
(* ===================================================================== *)

(** ** Facts about the string primitives *)

Module StrFacts.
Import Str.

(** [needle] occurs in [s]. *)
Definition contains (needle s : string) : Prop :=
  exists pre post, s = pre ++ needle ++ post.

Lemma startsWith_spec (p s : string) :
  startsWith p s = true <-> exists r, s = p ++ r.
Proof.
  revert s; induction p as [|a p IH]; intros s; simpl.
  - split; [intros _; now exists s | reflexivity].
  - destruct s as [|b s].
    + split; [discriminate | intros [r Hr]; discriminate].
    + destruct (Ascii.eqb_spec a b) as [->|Hab]; simpl.
      * rewrite IH. split; intros [r Hr]; exists r; congruence.
      * split; [discriminate | intros [r Hr]; congruence].
Qed.

Lemma startsWith_append (p r : string) : startsWith p (p ++ r) = true.
Proof. apply startsWith_spec. now exists r. Qed.

Lemma startsWith_drop (p s : string) :
  startsWith p s = true -> s = p ++ drop (String.length p) s.
Proof.
  intros H. apply startsWith_spec in H as [r ->].
  f_equal. induction p as [|a p IH]; simpl; auto.
Qed.

Lemma includes_spec (needle s : string) :
  includes needle s = true <-> contains needle s.
Proof.
  induction s as [|c s IH]; simpl.
  - destruct (startsWith needle "") eqn:Hp.
    + split; [intros _ | reflexivity].
      apply startsWith_spec in Hp as [r Hr]. now exists "", r.
    + split; [discriminate|]. intros (pre & post & H).
      destruct pre; simpl in H.
      * assert (startsWith needle "" = true) by (apply startsWith_spec; eauto).
        congruence.
      * discriminate.
  - destruct (startsWith needle (String c s)) eqn:Hp.
    + split; [intros _ | reflexivity].
      apply startsWith_spec in Hp as [r Hr]. now exists "", r.
    + rewrite IH. split.
      * intros (pre & post & ->). now exists (String c pre), post.
      * intros (pre & post & H). destruct pre as [|a pre]; simpl in H.
        -- assert (startsWith needle (String c s) = true)
             by (apply startsWith_spec; eauto).
           congruence.
        -- injection H as _ ->. now exists pre, post.
Qed.

Lemma trimEnd_keeps (w post : string) :
  forallb_str (fun c => negb (is_ws c)) w = true ->
  exists post', trimEnd (w ++ post) = w ++ post'.
Proof.
  induction w as [|c w IH]; simpl; intros H.
  - now exists (trimEnd post).
  - apply andb_prop in H as [Hc Hw]. destruct (IH Hw) as [post' E].
    exists post'. rewrite E.
    apply negb_true_iff in Hc. now rewrite Hc.
Qed.

Lemma trimEnd_contains (w s : string) :
  w <> "" -> forallb_str (fun c => negb (is_ws c)) w = true ->
  contains w s -> contains w (trimEnd s).
Proof.
  intros Hne Hw (pre & post & ->).
  induction pre as [|a pre IH]; simpl.
  - destruct (trimEnd_keeps w post Hw) as [post' E]. rewrite E. now exists "", post'.
  - destruct IH as (pre' & post' & E). rewrite E.
    assert (is_empty (pre' ++ w ++ post') = false) as Hn.
    { destruct pre'; simpl; [|reflexivity]. destruct w; [congruence | reflexivity]. }
    rewrite Hn, andb_false_r. now exists (String a pre'), post'.
Qed.

Lemma trimStart_contains (w s : string) :
  w <> "" -> forallb_str (fun c => negb (is_ws c)) w = true ->
  contains w s -> contains w (trimStart s).
Proof.
  intros Hne Hw (pre & post & ->).
  induction pre as [|a pre IH]; simpl.
  - destruct w as [|c w]; [congruence|]. simpl in *.
    apply andb_prop in Hw as [Hc _]. apply negb_true_iff in Hc. rewrite Hc.
    now exists "", post.
  - destruct (is_ws a); [exact IH|]. now exists (String a pre), post.
Qed.

Lemma trim_contains (w s : string) :
  w <> "" -> forallb_str (fun c => negb (is_ws c)) w = true ->
  contains w s -> contains w (trim s).
Proof.
  intros Hne Hw H. unfold trim.
  now apply trimEnd_contains, trimStart_contains.
Qed.

Lemma length_append (a b : string) :
  String.length (a ++ b) = (String.length a + String.length b)%nat.
Proof. induction a as [|c a IH]; simpl; auto. Qed.

Lemma mem_In (x : string) (l : list string) : mem x l = true <-> In x l.
Proof.
  unfold mem. rewrite existsb_exists. split.
  - intros (y & Hy & E). apply String.eqb_eq in E. now subst.
  - intros H. exists x. split; [exact H | apply String.eqb_refl].
Qed.

Lemma mem_false (x : string) (l : list string) : mem x l = false <-> ~ In x l.
Proof.
  rewrite <- mem_In. destruct (mem x l); split; congruence.
Qed.

Lemma append_nil_r (s : string) : s ++ "" = s.
Proof. induction s as [|c s IH]; simpl; congruence. Qed.

Lemma append_assoc (a b c : string) : (a ++ b) ++ c = a ++ b ++ c.
Proof. induction a as [|x a IH]; simpl; congruence. Qed.

Lemma rev_onto_append (s acc : string) : rev_onto s acc = rev s ++ acc.
Proof.
  unfold rev. revert acc. induction s as [|c s IH]; intros acc; simpl.
  - reflexivity.
  - rewrite IH, (IH (String c "")), append_assoc. reflexivity.
Qed.

Lemma rev_cons (c : ascii) (s : string) : rev (String c s) = rev s ++ String c "".
Proof. unfold rev at 1. simpl. apply rev_onto_append. Qed.

Lemma rev_append (a b : string) : rev (a ++ b) = rev b ++ rev a.
Proof.
  induction a as [|c a IH]; simpl.
  - now rewrite append_nil_r.
  - now rewrite !rev_cons, IH, append_assoc.
Qed.

Lemma rev_involutive (s : string) : rev (rev s) = s.
Proof.
  induction s as [|c s IH]; [reflexivity|].
  now rewrite rev_cons, rev_append, IH.
Qed.

Lemma endsWith_spec (p s : string) :
  endsWith p s = true <-> exists q, s = q ++ p.
Proof.
  unfold endsWith. rewrite startsWith_spec. split.
  - intros [r Hr]. exists (rev r).
    rewrite <- (rev_involutive s), Hr, rev_append, rev_involutive. reflexivity.
  - intros [q ->]. exists (rev q). apply rev_append.
Qed.

Lemma drop_append (p s : string) : drop (String.length p) (p ++ s) = s.
Proof. induction p as [|c p IH]; simpl; auto. Qed.

Lemma length_rev (s : string) : String.length (rev s) = String.length s.
Proof.
  induction s as [|c s IH]; [reflexivity|].
  rewrite rev_cons, length_append. simpl. lia.
Qed.

Lemma dropEnd_append (s p : string) : dropEnd (String.length p) (s ++ p) = s.
Proof.
  unfold dropEnd. rewrite rev_append, <- (length_rev p).
  now rewrite drop_append, rev_involutive.
Qed.

Lemma trim_empty_of_empty (s : string) : is_empty s = true -> is_empty (trim s) = true.
Proof. destruct s; [reflexivity | discriminate]. Qed.

End StrFacts.

(** ** The condition evaluator (claims C1 and C5) *)

Module ConditionEvaluatorFacts.
Import Js Str StrFacts ConditionEvaluator.

Lemma dangerous_keyword_shape (keyword : string) :
  In keyword dangerousKeywords ->
  keyword <> "" /\ forallb_str (fun c => negb (is_ws c)) keyword = true.
Proof.
  unfold dangerousKeywords. simpl.
  intros [<-|[<-|[<-|[<-|[<-|[]]]]]]; (split; [discriminate | reflexivity]).
Qed.

Lemma hasDangerousKeyword_of_contains (keyword trimmed : string) :
  In keyword dangerousKeywords -> contains keyword trimmed ->
  hasDangerousKeyword trimmed = true.
Proof.
  intros Hin Hc. unfold hasDangerousKeyword. apply existsb_exists.
  exists keyword. split; [assumption|]. now apply includes_spec.
Qed.

Lemma unsafe_of_forbidden (expression keyword : string) :
  In keyword dangerousKeywords -> contains keyword expression ->
  isSafeExpression expression = false.
Proof.
  intros Hin Hc. unfold isSafeExpression.
  destruct (dangerous_keyword_shape keyword Hin) as [Hne Hws].
  rewrite (hasDangerousKeyword_of_contains keyword _ Hin (trim_contains _ _ Hne Hws Hc)).
  apply andb_false_r.
Qed.

(** C1, as amended.  An expression that contains a denylisted
    identifier is refused by [isSafeExpression]; the condition function
    built for it is a constant (it does not look at the state, so the
    expression is never evaluated), and that constant is [__end__]
    when the edge declares no fallback. *)
Theorem forbidden_expression_never_evaluated
  (expression keyword : string) (targets : option Targets)
  (fallback : option string) :
  In keyword dangerousKeywords ->
  contains keyword expression ->
  isSafeExpression expression = false
  /\ (forall s1 s2 : JsValue,
        createConditionFunction expression targets fallback s1
        = createConditionFunction expression targets fallback s2)
  /\ (declared fallback = false ->
      forall s : JsValue,
        createConditionFunction expression targets fallback s = "__end__").
Proof.
  intros Hin Hc. pose proof (unsafe_of_forbidden _ _ Hin Hc) as Hu.
  split; [exact Hu|].
  unfold createConditionFunction. rewrite Hu. simpl.
  assert (declared fallback = false -> fallbackOrEnd fallback = "__end__") as Hd.
  { destruct fallback as [[|c f]|]; simpl; intros H; try reflexivity; discriminate. }
  destruct (is_empty expression || is_empty (trim expression)); auto.
Qed.

Lemma forbidden_expression_never_evaluated_witness :
  isSafeExpression "state.user.constructor" = false
  /\ (forall s1 s2 : JsValue,
        createConditionFunction "state.user.constructor"
          (Some [("admin", "adminNode")]) None s1
        = createConditionFunction "state.user.constructor"
          (Some [("admin", "adminNode")]) None s2)
  /\ (declared None = false ->
      forall s : JsValue,
        createConditionFunction "state.user.constructor"
          (Some [("admin", "adminNode")]) None s = "__end__").
Proof.
  apply (forbidden_expression_never_evaluated
           "state.user.constructor" "constructor"
           (Some [("admin", "adminNode")]) None).
  - simpl. tauto.
  - exists "state.user.", "". reflexivity.
Defined.

(** C1 as stated fails: with no fallback declared the function built
    for a forbidden expression answers [__end__], not [__fallback__]. *)
Lemma forbidden_expression_answers_end :
  includes "eval" "state.eval" = true
  /\ createConditionFunction "state.eval" (Some [("yes", "nodeA")]) None
       (JObj [("eval", JStr "yes")]) = "__end__"
  /\ createConditionFunction "state.eval" (Some [("yes", "nodeA")]) None
       (JObj [("eval", JStr "yes")]) <> "__fallback__".
Proof. split; [reflexivity | split; [reflexivity | discriminate]]. Qed.

Lemma hasOwn_keys {A : Type} (k : string) (l : list (string * A)) :
  hasOwn k l = true <-> In k (keys l).
Proof.
  unfold hasOwn, keys. induction l as [|[k' v] l IH]; simpl.
  - split; [discriminate | tauto].
  - destruct (String.eqb_spec k' k) as [->|Hne].
    + split; auto.
    + rewrite IH. split; [auto | intros [H|H]; [congruence | exact H]].
Qed.

Lemma find_first {A : Type} (f : A -> bool) (l : list A) (x : A) :
  find f l = Some x <->
  exists before after,
    l = (before ++ x :: after)%list /\ f x = true
    /\ forall y, In y before -> f y = false.
Proof.
  induction l as [|a l IH]; simpl.
  - split; [discriminate|]. intros (b & a' & H & _). now destruct b.
  - destruct (f a) eqn:Fa.
    + split.
      * intros [= ->]. exists [], l. simpl. tauto.
      * intros ([|b before] & after & E & Fx & Hb); simpl in E.
        -- congruence.
        -- injection E as -> _. rewrite (Hb b) in Fa by (simpl; auto).
           discriminate.
    + rewrite IH. split.
      * intros (before & after & -> & Fx & Hb). exists (a :: before), after.
        simpl. repeat split; auto. intros y [<-|Hy]; auto.
      * intros ([|b before] & after & E & Fx & Hb); simpl in E.
        -- injection E as -> _. congruence.
        -- injection E as -> ->. exists before, after.
           repeat split; auto. intros y Hy. apply Hb. simpl; auto.
Qed.

(** [key] is the first key of [targets], in key order, whose node is
    [node]. *)
Definition FirstKeyFor (targets : Targets) (node key : string) : Prop :=
  exists before after,
    keys targets = (before ++ key :: after)%list
    /\ lookup key targets = Some node
    /\ forall k, In k before -> lookup k targets <> Some node.

Lemma keyForNode_first (targets : Targets) (node key : string) :
  keyForNode targets node = Some key <-> FirstKeyFor targets node key.
Proof.
  unfold keyForNode, FirstKeyFor. rewrite find_first.
  assert (forall k, match lookup k targets with
                    | Some n => String.eqb n node
                    | None => false
                    end = true <-> lookup k targets = Some node) as Hk.
  { intros k. destruct (lookup k targets) as [n|].
    - rewrite String.eqb_eq. split; congruence.
    - split; discriminate. }
  split; intros (before & after & E & Fx & Hb); exists before, after;
    (split; [exact E|]); split.
  - now apply Hk.
  - intros k Hin Hl. apply Hk in Hl. rewrite (Hb k Hin) in Hl. discriminate.
  - now apply Hk.
  - intros k Hin. destruct (match lookup k targets with
                             | Some n => String.eqb n node
                             | None => false
                             end) eqn:E'; [|reflexivity].
    apply Hk in E'. now destruct (Hb k Hin).
Qed.

Lemma keyForNode_none (targets : Targets) (node : string) :
  (forall key, In key (keys targets) -> lookup key targets <> Some node) ->
  keyForNode targets node = None.
Proof.
  intros H. destruct (keyForNode targets node) as [k|] eqn:E; [|reflexivity].
  apply keyForNode_first in E as (before & after & Ek & Hl & _).
  destruct (H k); [|exact Hl]. rewrite Ek. apply in_or_app. simpl; auto.
Qed.

Lemma match_state_path_prefixed (t : string) :
  is_path t = true -> match_state_path ("state." ++ t) = Some t.
Proof. intros H. unfold match_state_path. simpl. now rewrite H. Qed.

Lemma match_state_path_of_path (t : string) :
  startsWith "state." t = true -> is_path t = true ->
  match_state_path t = Some (drop 6 t).
Proof.
  intros Hs Hp. unfold match_state_path. rewrite Hs.
  apply startsWith_drop in Hs. simpl String.length in Hs.
  remember (drop 6 t) as r eqn:Er. clear Er.
  subst t. unfold is_path in *. simpl in Hp. now rewrite Hp.
Qed.

Lemma evaluate_state_path (expr trimmed path : string) (state : JsValue) :
  match_state_path trimmed = Some path ->
  exists v, evaluatePatterns expr trimmed state = Ok v.
Proof.
  intros H. unfold evaluatePatterns. rewrite H.
  destruct (match_comparison trimmed) as [[[? ?] ?]|]; [eauto|].
  destruct (match_logical "&&" trimmed) as [[? ?]|]; [eauto|].
  destruct (match_logical "||" trimmed) as [[? ?]|]; [eauto|].
  destruct (match_complex trimmed) as [[[[? ?] ?] ?]|]; [|eauto].
  destruct (negb (truthy _)); eauto.
Qed.

(** A safe expression always evaluates: every pattern the allowlist
    admits is one the evaluator reads. *)
Lemma evaluate_safe_total (expression : string) (state : JsValue) :
  matchesSafePattern (trim expression) = true ->
  exists v, evaluateExpression expression state = Ok v.
Proof.
  intros Hs. unfold evaluateExpression, autoPrefix.
  destruct (negb (startsWith "state." (trim expression))
            && is_path (trim expression)) eqn:B.
  - apply andb_prop in B as [_ Hp].
    eapply evaluate_state_path. now apply match_state_path_prefixed.
  - unfold matchesSafePattern in Hs.
    repeat (apply orb_prop in Hs as [Hs|Hs]).
    + destruct (match_state_path (trim expression)) eqn:E; [|discriminate].
      eapply evaluate_state_path; eauto.
    + rewrite Hs, andb_true_r in B. apply negb_false_iff in B.
      eapply evaluate_state_path.
      now apply match_state_path_of_path.
    + unfold evaluatePatterns.
      destruct (match_comparison (trim expression)) as [[[? ?] ?]|];
        [eauto | discriminate].
    + unfold evaluatePatterns.
      destruct (match_comparison (trim expression)) as [[[? ?] ?]|]; [eauto|].
      destruct (match_logical "&&" (trim expression)) as [[? ?]|];
        [eauto | discriminate].
    + unfold evaluatePatterns.
      destruct (match_comparison (trim expression)) as [[[? ?] ?]|]; [eauto|].
      destruct (match_logical "&&" (trim expression)) as [[? ?]|]; [eauto|].
      destruct (match_logical "||" (trim expression)) as [[? ?]|];
        [eauto | discriminate].
    + unfold evaluatePatterns.
      destruct (match_comparison (trim expression)) as [[[? ?] ?]|]; [eauto|].
      destruct (match_logical "&&" (trim expression)) as [[? ?]|]; [eauto|].
      destruct (match_logical "||" (trim expression)) as [[? ?]|]; [eauto|].
      destruct (match_complex (trim expression)) as [[[[? ?] ?] ?]|];
        [|discriminate].
      destruct (negb (truthy _)); eauto.
Qed.

Lemma safe_expression_not_blank (expression : string) :
  isSafeExpression expression = true ->
  is_empty expression || is_empty (trim expression) = false.
Proof.
  unfold isSafeExpression. intros H. apply andb_prop in H as [H _].
  destruct (is_empty (trim expression)) eqn:E.
  - destruct (trim expression); [discriminate H | discriminate E].
  - rewrite orb_false_r. destruct expression; [discriminate E | reflexivity].
Qed.

(** C5 as stated fails: a result that is neither a key nor a node of
    [targets] is answered with [__end__], not [__fallback__], when the
    edge declares no fallback.  The state holds the text [maybe] as an
    own property; the last line is the same run of the hosted
    evaluator, at the sample host. *)
Lemma unmatched_result_without_fallback_answers_end :
  isSafeExpression "state.data.routeDecision" = true
  /\ evaluateExpression "state.data.routeDecision"
       (JObj [("data", JObj [("routeDecision", JStr "maybe")])])
     = Ok (JStr "maybe")
  /\ createConditionFunction "state.data.routeDecision"
       (Some [("direct", "respond"); ("plan", "planner")]) None
       (JObj [("data", JObj [("routeDecision", JStr "maybe")])]) = "__end__"
  /\ createConditionFunction "state.data.routeDecision"
       (Some [("direct", "respond"); ("plan", "planner")]) None
       (JObj [("data", JObj [("routeDecision", JStr "maybe")])])
     <> "__fallback__"
  /\ Evaluator.createConditionFunction DataHost.dataHost "state.data.routeDecision"
       (Some [("direct", "respond"); ("plan", "planner")]) None
       (JObj [("data", JObj [("routeDecision", JStr "maybe")])]) = "__end__".
Proof.
  split; [reflexivity|]. split; [reflexivity|].
  split; [reflexivity|]. split; [discriminate | reflexivity].
Qed.

End ConditionEvaluatorFacts.

(** ** Conditional edges over any host (claim C5) *)

Module EvaluatorFacts.
Import Js Str StrFacts HostValues ConditionEvaluator ConditionEvaluatorFacts
  Evaluator DataHost.

Create HintDb hosted.

Section Hosted.
Context {V X : Type} (E : Engine V X).

(** [r] fails only with what the host raised. *)
Definition hostOnly {A : Type} (r : Result (Raised X) A) : Prop :=
  forall e, r = Throw e -> exists x, e = HostRaised x.

Lemma hostOnly_Ok {A : Type} (a : A) : hostOnly (Ok a).
Proof. intros e H. discriminate. Qed.

Lemma hostOnly_bind {A B : Type} (r : Result X A) (k : A -> Result (Raised X) B) :
  (forall a, hostOnly (k a)) -> hostOnly (bindR (host r) k).
Proof.
  intros Hk e. destruct r as [a|x]; simpl.
  - apply Hk.
  - intros [= <-]. now exists x.
Qed.

#[local] Hint Resolve hostOnly_Ok hostOnly_bind : hosted.

Lemma hosted_evaluate_state_path (expr trimmed path : string) (state : V) :
  match_state_path trimmed = Some path ->
  hostOnly (evaluatePatterns E expr trimmed state).
Proof.
  intros H. unfold evaluatePatterns. rewrite H.
  destruct (match_comparison trimmed) as [[[? ?] ?]|]; [auto 6 with hosted|].
  destruct (match_logical "&&" trimmed) as [[? ?]|]; [auto 6 with hosted|].
  destruct (match_logical "||" trimmed) as [[? ?]|]; [auto 6 with hosted|].
  destruct (match_complex trimmed) as [[[[? ?] ?] ?]|]; [|auto 6 with hosted].
  repeat (apply hostOnly_bind; intros ?).
  destruct (negb (isTruthy E _)); auto 6 with hosted.
Qed.

(** A safe expression is never refused as unparsable: every pattern
    the allowlist admits is one the evaluator reads, and the
    evaluation fails only when the host raises. *)
Lemma evaluate_safe_parsed (expression : string) (state : V) :
  matchesSafePattern (trim expression) = true ->
  hostOnly (evaluateExpression E expression state).
Proof.
  intros Hs. unfold evaluateExpression, autoPrefix.
  destruct (negb (startsWith "state." (trim expression))
            && is_path (trim expression)) eqn:B.
  - apply andb_prop in B as [_ Hp].
    eapply hosted_evaluate_state_path. now apply match_state_path_prefixed.
  - unfold matchesSafePattern in Hs.
    repeat (apply orb_prop in Hs as [Hs|Hs]).
    + destruct (match_state_path (trim expression)) eqn:Em; [|discriminate].
      eapply hosted_evaluate_state_path; eauto.
    + rewrite Hs, andb_true_r in B. apply negb_false_iff in B.
      eapply hosted_evaluate_state_path.
      now apply match_state_path_of_path.
    + unfold evaluatePatterns.
      destruct (match_comparison (trim expression)) as [[[? ?] ?]|];
        [auto 6 with hosted | discriminate].
    + unfold evaluatePatterns.
      destruct (match_comparison (trim expression)) as [[[? ?] ?]|];
        [auto 6 with hosted|].
      destruct (match_logical "&&" (trim expression)) as [[? ?]|];
        [auto 6 with hosted | discriminate].
    + unfold evaluatePatterns.
      destruct (match_comparison (trim expression)) as [[[? ?] ?]|];
        [auto 6 with hosted|].
      destruct (match_logical "&&" (trim expression)) as [[? ?]|];
        [auto 6 with hosted|].
      destruct (match_logical "||" (trim expression)) as [[? ?]|];
        [auto 6 with hosted | discriminate].
    + unfold evaluatePatterns.
      destruct (match_comparison (trim expression)) as [[[? ?] ?]|];
        [auto 6 with hosted|].
      destruct (match_logical "&&" (trim expression)) as [[? ?]|];
        [auto 6 with hosted|].
      destruct (match_logical "||" (trim expression)) as [[? ?]|];
        [auto 6 with hosted|].
      destruct (match_complex (trim expression)) as [[[[? ?] ?] ?]|];
        [|discriminate].
      repeat (apply hostOnly_bind; intros ?).
      destruct (negb (isTruthy E _)); auto 6 with hosted.
Qed.

Lemma condition_of_safe (expression : string) (targets : option Targets)
  (fallback : option string) (state : V) :
  isSafeExpression expression = true ->
  createConditionFunction E expression targets fallback state
  = match evaluateExpression E expression state with
    | Throw _ => fallbackKeyOrEnd fallback
    | Ok result =>
        match stringOf E result with
        | Throw _ => fallbackKeyOrEnd fallback
        | Ok resultStr => answerFor targets fallback resultStr
        end
    end.
Proof.
  intros Hsafe. unfold createConditionFunction.
  now rewrite (safe_expression_not_blank expression Hsafe), Hsafe.
Qed.

End Hosted.

Lemma fallbackKeyOrEnd_declared (fallback : option string) :
  fallbackKeyOrEnd fallback = if declared fallback then "__fallback__" else "__end__".
Proof. destruct fallback as [[|c f]|]; reflexivity. Qed.

(** C5, as amended.  Whatever the host, for a safe expression and a
    [targets] map: the expression is never refused as unparsable, so
    its evaluation fails only when the host raises (reading a
    property, comparing, or logging the value read).  When the
    evaluation returns a result and [String(result)] is [resultStr],
    the condition function answers [resultStr] when it is a key of
    [targets]; else the first key (in key order) whose node is
    [resultStr], when that key is not the empty string; and when
    [resultStr] is neither a key nor a node, [__fallback__] if the edge
    declares a fallback and [__end__] if it declares none.  When the
    host raises, in the evaluation or in [String(result)], the answer
    is that of the unmatched case. *)
Theorem conditional_edge_resolution
  (V X : Type) (E : Engine V X)
  (expression : string) (targets : Targets) (fallback : option string)
  (state : V) :
  isSafeExpression expression = true ->
  let answer := createConditionFunction E expression (Some targets) fallback state in
  let unmatched := if declared fallback then "__fallback__" else "__end__" in
  (forall e, evaluateExpression E expression state = Throw e ->
             (exists x, e = HostRaised x) /\ answer = unmatched)
  /\ (forall result x,
        evaluateExpression E expression state = Ok result ->
        stringOf E result = Throw x ->
        answer = unmatched)
  /\ (forall result resultStr,
        evaluateExpression E expression state = Ok result ->
        stringOf E result = Ok resultStr ->
        (In resultStr (keys targets) -> answer = resultStr)
        /\ (forall key,
              ~ In resultStr (keys targets) ->
              FirstKeyFor targets resultStr key -> key <> "" ->
              answer = key)
        /\ (~ In resultStr (keys targets) ->
            (forall key, In key (keys targets) ->
                         lookup key targets <> Some resultStr) ->
            answer = unmatched)).
Proof.
  intros Hsafe answer unmatched. subst answer unmatched.
  assert (matchesSafePattern (trim expression) = true) as Hpat.
  { unfold isSafeExpression in Hsafe. now apply andb_prop in Hsafe as [H _]. }
  rewrite (condition_of_safe E expression (Some targets) fallback state Hsafe).
  rewrite <- fallbackKeyOrEnd_declared.
  split; [|split].
  - intros e He. split.
    + exact (evaluate_safe_parsed E expression state Hpat e He).
    + now rewrite He.
  - intros result x He Hs. now rewrite He, Hs.
  - intros result resultStr He Hs. rewrite He, Hs. unfold answerFor.
    split; [|split].
    + intros Hin. apply hasOwn_keys in Hin. now rewrite Hin.
    + intros key Hnot Hfirst Hne.
      destruct (hasOwn resultStr targets) eqn:Ho.
      * apply hasOwn_keys in Ho. contradiction.
      * apply keyForNode_first in Hfirst. rewrite Hfirst.
        destruct key; [congruence | reflexivity].
    + intros Hnot Hnone.
      destruct (hasOwn resultStr targets) eqn:Ho.
      * apply hasOwn_keys in Ho. contradiction.
      * now rewrite (keyForNode_none targets _ Hnone).
Qed.

(** The edge of the router over the sample host: the state holds the
    key [plan]. *)
Lemma conditional_edge_resolution_witness :
  createConditionFunction dataHost "state.data.routeDecision"
    (Some [("direct", "respond"); ("plan", "planner")]) (Some "planner")
    (JObj [("data", JObj [("routeDecision", JStr "plan")])])
  = "plan".
Proof.
  destruct (conditional_edge_resolution JsValue string dataHost
              "state.data.routeDecision"
              [("direct", "respond"); ("plan", "planner")] (Some "planner")
              (JObj [("data", JObj [("routeDecision", JStr "plan")])]) eq_refl)
    as (_ & _ & Hreturned).
  destruct (Hreturned (JStr "plan") "plan" eq_refl eq_refl) as (Hkey & _).
  apply Hkey. simpl. auto.
Defined.

End EvaluatorFacts.

(** ** The step-condition guard (claim C2) *)

Module StepExecutorFacts.
Import Js Str StrFacts StepExecutor.

Lemma isWrapped_spec (t : string) :
  isWrapped t = true <-> exists body, t = "{{" ++ body ++ "}}".
Proof.
  unfold isWrapped. split.
  - intros H. apply andb_prop in H as [Hs He].
    apply startsWith_spec in Hs as [r ->].
    unfold endsWith in He. change ("{{" ++ r) with (String "{" (String "{" r)) in He.
    change (rev "}}") with "}}" in He. rewrite !rev_cons in He.
    destruct (rev r) as [|c1 [|c2 q]] eqn:Er; cbn [append startsWith] in He.
    + discriminate.
    + destruct (Ascii.eqb "}" c1); discriminate.
    + assert (endsWith "}}" r = true) as Hr.
      { unfold endsWith. rewrite Er. change (rev "}}") with "}}".
        cbn [startsWith].
        destruct (Ascii.eqb "}" c1); [|discriminate].
        destruct (Ascii.eqb "}" c2); [reflexivity | discriminate]. }
      apply endsWith_spec in Hr as [body ->]. now exists body.
  - intros [body ->]. apply andb_true_intro. split; [reflexivity|].
    apply endsWith_spec. exists ("{{" ++ body).
    now rewrite append_assoc.
Qed.

Lemma slice_inner_wrapped (body : string) :
  slice_inner 2 2 ("{{" ++ body ++ "}}") = body.
Proof. unfold slice_inner. simpl drop. apply (dropEnd_append body "}}"). Qed.

(** C2, as amended.  The guard of a step with a (non-empty) condition
    does not use the restricted grammar: a condition that is not
    wrapped in double braces is false; a wrapped one hands its inner
    text to the host's function constructor and is the truthiness of
    what that returns, or false when it throws.  A false guard skips
    the step: the dispatcher returns the empty delta whatever the
    executors are; a true guard dispatches on the step type. *)
Theorem step_condition_guard
  (h : Host) (step : UniversalStep) (state : JsValue) (condition : string) :
  step_condition step = Some condition ->
  condition <> "" ->
  (forall body,
      trim condition = "{{" ++ body ++ "}}" ->
      evaluateStepCondition h condition state
      = match newFunction h (trim body) state with
        | Ok v => truthy v
        | Throw _ => false
        end)
  /\ ((forall body, trim condition <> "{{" ++ body ++ "}}") ->
      evaluateStepCondition h condition state = false)
  /\ (evaluateStepCondition h condition state = false ->
      executeStep h step state = Ok [])
  /\ (evaluateStepCondition h condition state = true ->
      executeStep h step state = dispatch h step state).
Proof.
  intros Hc Hne. repeat split.
  - intros body Hb. unfold evaluateStepCondition.
    rewrite (proj2 (isWrapped_spec _) (ex_intro _ body Hb)), Hb.
    now rewrite slice_inner_wrapped.
  - intros Hno. unfold evaluateStepCondition.
    destruct (isWrapped (trim condition)) eqn:W; [|reflexivity].
    apply isWrapped_spec in W as [body Hb]. now destruct (Hno body).
  - intros Hf. unfold executeStep. rewrite Hc, Hf.
    destruct condition; [congruence | reflexivity].
  - intros Ht. unfold executeStep. rewrite Hc, Ht.
    destruct condition; reflexivity.
Qed.

(** A host whose function constructor knows the one body
    [state.ready] (answering [true]), raises on any other text, and
    whose executors each answer with one fixed update. *)
Definition sampleHost : Host :=
  mkHost
    (fun text _ => if String.eqb text "state.ready" then Ok (JBool true)
                   else Throw "SyntaxError")
    (fun _ _ => Ok [("answer", JStr "neuron")])
    (fun _ _ => Ok [("answer", JStr "tool")])
    (fun _ _ => Ok [("answer", JStr "transform")])
    (fun _ _ => Ok [("answer", JStr "conditional")])
    (fun _ _ => Ok [("answer", JStr "loop")]).

Lemma step_condition_guard_witness :
  (forall body,
      trim " {{ state.ready }} " = "{{" ++ body ++ "}}" ->
      evaluateStepCondition sampleHost " {{ state.ready }} " (JObj [])
      = match newFunction sampleHost (trim body) (JObj []) with
        | Ok v => truthy v
        | Throw _ => false
        end)
  /\ ((forall body, trim " {{ state.ready }} " <> "{{" ++ body ++ "}}") ->
      evaluateStepCondition sampleHost " {{ state.ready }} " (JObj []) = false)
  /\ (evaluateStepCondition sampleHost " {{ state.ready }} " (JObj []) = false ->
      executeStep sampleHost (mkStep "tool" JNull (Some " {{ state.ready }} ")) (JObj [])
      = Ok [])
  /\ (evaluateStepCondition sampleHost " {{ state.ready }} " (JObj []) = true ->
      executeStep sampleHost (mkStep "tool" JNull (Some " {{ state.ready }} ")) (JObj [])
      = dispatch sampleHost (mkStep "tool" JNull (Some " {{ state.ready }} ")) (JObj [])).
Proof.
  apply (step_condition_guard sampleHost
           (mkStep "tool" JNull (Some " {{ state.ready }} ")) (JObj [])
           " {{ state.ready }} ").
  - reflexivity.
  - discriminate.
Defined.

(** C2 as stated fails.  A condition of the restricted grammar that is
    true under the safe evaluator is false under the step guard,
    whatever the host; and a text the safe evaluator refuses is handed
    to the host's function constructor, whose answer decides. *)
Lemma step_guard_is_not_the_safe_evaluator :
  ConditionEvaluator.isSafeExpression "state.ready" = true
  /\ ConditionEvaluator.evaluateExpression "state.ready"
       (JObj [("ready", JBool true)]) = Ok (JBool true)
  /\ (forall h : Host,
        evaluateStepCondition h "state.ready" (JObj [("ready", JBool true)])
        = false)
  /\ ConditionEvaluator.isSafeExpression "process.exit(1)" = false
  /\ (forall (h : Host) (v : JsValue),
        newFunction h "process.exit(1)" (JObj []) = Ok v ->
        evaluateStepCondition h "{{process.exit(1)}}" (JObj []) = truthy v).
Proof.
  split; [reflexivity|]. split; [reflexivity|]. split; [reflexivity|].
  split; [reflexivity|].
  intros h v H. unfold evaluateStepCondition.
  change (trim "{{process.exit(1)}}") with "{{process.exit(1)}}".
  change (isWrapped "{{process.exit(1)}}") with true. cbv iota.
  change (trim (slice_inner 2 2 "{{process.exit(1)}}")) with "process.exit(1)".
  now rewrite H.
Qed.

End StepExecutorFacts.

(** ** The universal node (claim C3) *)

Module UniversalNodeFacts.
Import Js Str StepExecutor UniversalNode.

Lemma lookup_set_same {A : Type} (k : string) (v : A) (l : list (string * A)) :
  lookup k (set k v l) = Some v.
Proof.
  induction l as [|[k' v'] l IH]; simpl.
  - now rewrite String.eqb_refl.
  - destruct (String.eqb_spec k' k) as [->|Hne]; simpl.
    + now rewrite String.eqb_refl.
    + destruct (String.eqb_spec k' k); [congruence | exact IH].
Qed.


(** The updates accumulated once every step of [done] has completed,
    starting at index [i] from [stateUpdates]; [None] when one of them
    does not complete, or the updates it finds do not convert. *)
Fixpoint completedUpdates (h : Host) (state : Fields) (done : list UniversalStep)
  (i : nat) (stateUpdates : Fields) : option Fields :=
  match done with
  | [] => Some stateUpdates
  | step :: rest =>
      match convertFlatToNested stateUpdates with
      | Nested nestedUpdates =>
          match executeStep h step (currentStateFor state i nestedUpdates) with
          | Ok stepUpdate =>
              completedUpdates h state rest (S i) (accumulate stateUpdates stepUpdate)
          | Throw _ => None
          end
      | _ => None
      end
  end.

Lemma runSteps_after_completed (h : Host) (state : Fields)
  (done steps : list UniversalStep) (i : nat) (stateUpdates updates : Fields) :
  completedUpdates h state done i stateUpdates = Some updates ->
  runSteps h state (done ++ steps)%list i stateUpdates
  = runSteps h state steps (i + List.length done) updates.
Proof.
  revert i stateUpdates. induction done as [|step done IH]; intros i su H; simpl in *.
  - injection H as <-. now rewrite Nat.add_0_r.
  - destruct (convertFlatToNested su) as [nestedUpdates| |]; try discriminate.
    destruct (executeStep h step (currentStateFor state i nestedUpdates)) as [u|e];
      [|discriminate].
    rewrite (IH _ _ H). f_equal. lia.
Qed.

(** The node up to its loop: the config resolved, the steps
    normalised and the counter advanced. *)
Lemma universalNode_runs (env : Env) (nodeConfig0 nodeConfig : UniversalNodeConfig)
  (state0 : Fields) (steps : list UniversalStep) (nextCount : JsValue) :
  resolveConfig env nodeConfig0 = Ok nodeConfig ->
  normalizeSteps nodeConfig = Ok steps ->
  plusOne (nodeCount state0) = Some nextCount ->
  universalNode env nodeConfig0 state0
  = runSteps (host env)
      (set "systemPrefix"
         (getNodeSystemPrefix env (nodeCount state0) (nodeName nodeConfig)) state0)
      steps 0 [("nodeCounter", nextCount)].
Proof.
  intros Hres Hnorm Hplus. unfold universalNode. now rewrite Hres, Hnorm, Hplus.
Qed.



(** A host whose tool executor always throws an error with the message
    [boom] and whose other executors write one field. *)
Definition failingToolHost : Host :=
  mkHost
    (fun _ _ => Throw "SyntaxError")
    (fun _ _ => Ok [("data.answer", JStr "neuron")])
    (fun _ _ => Throw (WithMessage "boom"))
    (fun _ _ => Ok [("data.plan", JStr "p"); ("messages", JArr [])])
    (fun _ _ => Ok [("data.flag", JBool true)])
    (fun _ _ => Ok [("data.loops", JNum (num_of_Z 3))]).

Definition sampleEnv : Env :=
  mkEnv failingToolHost (fun _ => Ok None) (fun _ name => JStr name).




(** What the amended claim leaves out: a step that throws [null] or
    [undefined] (the error handler does, when it is given a negative
    retry count).  The [catch] block reads [error.message], the read
    raises a [TypeError], and the node throws it. *)
Lemma nullish_throw_leaves_the_node
  (env : Env) (nodeConfig0 nodeConfig : UniversalNodeConfig) (state0 : Fields)
  (done rest : list UniversalStep) (failing : UniversalStep)
  (nextCount : JsValue) (updates nested : Fields) :
  let state :=
    set "systemPrefix"
      (getNodeSystemPrefix env (nodeCount state0) (nodeName nodeConfig)) state0 in
  resolveConfig env nodeConfig0 = Ok nodeConfig ->
  normalizeSteps nodeConfig = Ok (done ++ failing :: rest)%list ->
  plusOne (nodeCount state0) = Some nextCount ->
  completedUpdates (host env) state done 0 [("nodeCounter", nextCount)]
  = Some updates ->
  convertFlatToNested updates = Nested nested ->
  executeStep (host env) failing (currentStateFor state (List.length done) nested)
  = Throw Nullish ->
  universalNode env nodeConfig0 state0 = ThrowsTypeError.
Proof.
  intros state Hres Hnorm Hplus Hdone Hnest Hfail.
  rewrite (universalNode_runs env nodeConfig0 nodeConfig state0 _ nextCount
             Hres Hnorm Hplus).
  fold state. rewrite (runSteps_after_completed _ _ _ _ _ _ _ Hdone).
  simpl. now rewrite Hnest, Hfail.
Qed.

End UniversalNodeFacts.

(** ** The token transformer (claim C4) *)

Module StreamingFacts.
Import Str Streaming.

Lemma length_drop_le (n : nat) (s : string) :
  (String.length (drop n s) <= String.length s)%nat.
Proof.
  revert s. induction n as [|n IH]; intros s; simpl; [lia|].
  destruct s as [|c s]; simpl; [lia|]. specialize (IH s). lia.
Qed.

Lemma length_drop_lt (n : nat) (s : string) :
  s <> "" -> (String.length (drop (S n) s) < String.length s)%nat.
Proof.
  destruct s as [|c s]; [congruence|]. intros _. simpl.
  pose proof (length_drop_le n s). lia.
Qed.

(** Every turn of the main loop on a non-empty buffer shortens it. *)
Lemma stepMain_shortens (env : StreamEnv) (st : StreamState) :
  pendingBuffer st <> "" ->
  (String.length (pendingBuffer (fst (stepMain env st)))
   < String.length (pendingBuffer st))%nat.
Proof.
  intros Hne. unfold stepMain.
  destruct (negb (inThinkingTag st) && startsWith "<think>" (pendingBuffer st)).
  - cbn [fst pendingBuffer]. now apply length_drop_lt.
  - destruct (inThinkingTag st && startsWith "</think>" (pendingBuffer st)).
    + cbn [fst pendingBuffer]. now apply length_drop_lt.
    + destruct (pendingBuffer st) as [|c rest] eqn:E; [congruence|].
      unfold thinkingChar, contentChar.
      destruct (inThinkingTag st); [simpl; lia|].
      destruct (negb (streamedTokens st) && isLeadingWhitespace c); simpl; lia.
Qed.

(** The fuel the event handler gives the main loop is enough: the loop
    stops because the buffer is down to eight characters or fewer. *)
Lemma mainLoop_drains (env : StreamEnv) (fuel : nat) (st : StreamState) :
  (String.length (pendingBuffer st) <= fuel)%nat ->
  (String.length (pendingBuffer (fst (mainLoop env fuel st))) <= 8)%nat.
Proof.
  revert st. induction fuel as [|fuel IH]; intros st Hf; simpl.
  - lia.
  - destruct (8 <? String.length (pendingBuffer st))%nat eqn:E.
    + assert (pendingBuffer st <> "") as Hne.
      { intros H. rewrite H in E. discriminate. }
      pose proof (stepMain_shortens env st Hne) as Hs.
      destruct (stepMain env st) as [st1 ys1]. simpl in Hs.
      specialize (IH st1 ltac:(lia)).
      destruct (mainLoop env fuel st1) as [st2 ys2]. exact IH.
    + apply Nat.ltb_ge in E. exact E.
Qed.

(** The part of C4 the code does keep: a detected closing tag ends the
    thinking block and yields exactly one single-space content chunk,
    before anything that follows the tag is looked at. *)
Lemma closing_tag_yields_one_space (env : StreamEnv) (st : StreamState) :
  inThinkingTag st = true ->
  startsWith "</think>" (pendingBuffer st) = true ->
  snd (stepMain env st) = [YContent " "]
  /\ inThinkingTag (fst (stepMain env st)) = false
  /\ streamedTokens (fst (stepMain env st)) = true
  /\ pendingBuffer (fst (stepMain env st)) = drop 8 (pendingBuffer st)
  /\ fullContent (fst (stepMain env st)) = fullContent st.
Proof.
  intros Hin Hs. unfold stepMain. rewrite Hin, Hs. simpl. tauto.
Qed.

(** C4 fails on the spec's own scenario.  For the stream
    [<think>plan</think> answer] the space after the closing tag is
    kept: the flag that switches the whitespace filter off is set when
    the single-space chunk is sent, so the persisted content is
    [" answer"], not ["answer"].  The thought stored is ["plan"]. *)
Theorem think_block_keeps_leading_space (env : StreamEnv) :
  persistedContent
    (streamThroughGraph env [OnLlmStream "<think>plan</think> answer" true])
  = Some " answer"
  /\ completedResponse
       (streamThroughGraph env [OnLlmStream "<think>plan</think> answer" true])
     = " answer"
  /\ (idsPresent env = true ->
      thoughts
        (streamThroughGraph env [OnLlmStream "<think>plan</think> answer" true])
      = ["plan"]).
Proof.
  unfold streamThroughGraph. cbn.
  repeat split.
  intros ->. reflexivity.
Qed.

End StreamingFacts.

(** ** The template renderer (claim C6) *)

Module TemplateRendererFacts.
Import Js Str StrFacts TemplateRenderer.

(** The text of the placeholder for [path]. *)
Definition placeholder (path : string) : string := "{{state." ++ path ++ "}}".

Definition warningFor (path : string) : string :=
  "[TemplateRenderer] Variable not found: state." ++ path.

Lemma split_nonempty (sep : ascii) (s : string) : split sep s <> [].
Proof.
  induction s as [|c s IH]; simpl; [discriminate|].
  destruct (Ascii.eqb c sep); [discriminate|].
  destruct (split sep s); [contradiction | discriminate].
Qed.

Lemma word_segments_path_chars (s : string) :
  forallb (forallb_str is_word_char) (split "." s) = true ->
  forallb_str is_path_char s = true.
Proof.
  induction s as [|c s IH]; simpl; [reflexivity|].
  unfold is_path_char at 1.
  destruct (Ascii.eqb c ".") eqn:E.
  - simpl. intros H. rewrite orb_true_r. simpl. auto.
  - pose proof (split_nonempty "." s) as Hne.
    destruct (split "." s) as [|p ps]; [contradiction|].
    simpl. intros H. apply andb_prop in H as [H1 H2].
    apply andb_prop in H1 as [Hc Hp]. rewrite Hc. simpl.
    apply IH. simpl. now rewrite Hp, H2.
Qed.

Lemma is_path_chars (p : string) :
  is_path p = true -> forallb_str is_path_char p = true.
Proof.
  unfold is_path. intros H. apply word_segments_path_chars.
  rewrite forallb_forall in *. intros seg Hin.
  specialize (H seg Hin). now apply andb_prop in H as [_ H].
Qed.

Lemma span_path_concat (s run rest : string) :
  span_path s = (run, rest) -> s = run ++ rest.
Proof.
  revert run rest. induction s as [|c s IH]; intros run rest; simpl.
  - intros [= <- <-]. reflexivity.
  - destruct (is_path_char c).
    + destruct (span_path s) as [r0 t0]. intros [= <- <-].
      simpl. f_equal. now apply IH.
    + intros [= <- <-]. reflexivity.
Qed.

Lemma span_path_braces (p post : string) :
  forallb_str is_path_char p = true ->
  span_path (p ++ "}}" ++ post) = (p, "}}" ++ post).
Proof.
  induction p as [|c p IH]; simpl in *; intros H; [reflexivity|].
  apply andb_prop in H as [Hc Hp]. now rewrite Hc, (IH Hp).
Qed.

(** The matcher finds exactly a placeholder of a valid path at the
    head of the text. *)
Lemma matchPlaceholder_spec (s p : string) (len : nat) :
  matchPlaceholder s = Some (p, len) <->
  is_path p = true
  /\ len = String.length (placeholder p)
  /\ exists post, s = placeholder p ++ post.
Proof.
  unfold matchPlaceholder, placeholder. split.
  - destruct (startsWith "{{state." s) eqn:Hs; [|discriminate].
    apply startsWith_drop in Hs. simpl String.length in Hs.
    destruct (span_path (drop 8 s)) as [run rest] eqn:Hsp.
    destruct (is_path run) eqn:Hp; [|discriminate]. cbn [andb].
    destruct (startsWith "}}" rest) eqn:Hr; [|discriminate].
    intros [= <- <-]. split; [exact Hp|]. split.
    + rewrite !length_append. simpl. lia.
    + apply span_path_concat in Hsp. apply startsWith_spec in Hr as [post ->].
      exists post. rewrite Hs at 1. rewrite Hsp. simpl.
      now rewrite !append_assoc.
  - intros (Hp & -> & post & ->).
    rewrite !append_assoc.
    rewrite startsWith_append.
    change 8%nat with (String.length "{{state.") at 1. rewrite drop_append.
    rewrite (span_path_braces p post (is_path_chars p Hp)), Hp.
    rewrite startsWith_append.
    cbn [andb]. f_equal. f_equal. rewrite !length_append. simpl. lia.
Qed.

Lemma scan_skip (state : JsValue) (a b : string) :
  scan state (a ++ b) (String.length a) = scan state b 0.
Proof. induction a as [|c a IH]; simpl; auto. Qed.

Lemma scan_placeholder (state : JsValue) (p post : string) :
  is_path p = true ->
  scan state (placeholder p ++ post) 0
  = (fst (substitute state p) ++ fst (scan state post 0),
     (snd (substitute state p) ++ snd (scan state post 0))%list).
Proof.
  intros Hp.
  assert (matchPlaceholder (placeholder p ++ post)
          = Some (p, String.length (placeholder p))) as Hm.
  { apply matchPlaceholder_spec. repeat split; eauto. }
  unfold placeholder in *. rewrite !append_assoc in *.
  change ("{{state." ++ p ++ "}}" ++ post)
    with (String "{" ("{state." ++ p ++ "}}" ++ post)) in *.
  cbn [scan]. rewrite Hm.
  destruct (substitute state p) as [text w1].
  assert ((String.length ("{{state." ++ p ++ "}}") - 1)%nat
          = String.length ("{state." ++ p ++ "}}")) as -> by (simpl; lia).
  replace ("{state." ++ p ++ "}}" ++ post)
    with (("{state." ++ p ++ "}}") ++ post) by (now rewrite !append_assoc).
  rewrite scan_skip.
  destruct (scan state post 0) as [out w2]. reflexivity.
Qed.

Lemma scan_plain (state : JsValue) (c : ascii) (s : string) :
  (forall p post, is_path p = true -> String c s <> placeholder p ++ post) ->
  scan state (String c s) 0
  = (String c (fst (scan state s 0)), snd (scan state s 0)).
Proof.
  intros Hno. cbn [scan].
  destruct (matchPlaceholder (String c s)) as [[p len]|] eqn:Hm.
  - apply matchPlaceholder_spec in Hm as (Hp & _ & post & E).
    now destruct (Hno p post Hp).
  - destruct (scan state s 0) as [out w]. reflexivity.
Qed.

Definition sampleState : JsValue :=
  JObj [("query", JObj [("message", JStr "hi")]);
        ("data", JObj [("plan", JStr "P")])].

(** C6 as stated fails: a path that itself begins with [data.] is not
    looked up again under [data.]; the placeholder stays although
    [data.<path>] resolves.  Every property read is one of an own
    property; the last line is the same rendering by the hosted
    renderer, at the sample host. *)
Lemma data_path_has_no_fallback :
  getNestedProperty (JObj [("data", JObj [("data", JObj [("x", JStr "v")])])])
    "data.x" = JUndefined
  /\ getNestedProperty (JObj [("data", JObj [("data", JObj [("x", JStr "v")])])])
       "data.data.x" = JStr "v"
  /\ renderTemplate "{{state.data.x}}"
       (JObj [("data", JObj [("data", JObj [("x", JStr "v")])])])
     = ("{{state.data.x}}", ["[TemplateRenderer] Variable not found: state.data.x"])
  /\ fst (renderTemplate "{{state.data.x}}"
            (JObj [("data", JObj [("data", JObj [("x", JStr "v")])])]))
     <> "v"
  /\ Rendering.renderTemplate DataHost.dataHost "{{state.data.x}}"
       (JObj [("data", JObj [("data", JObj [("x", JStr "v")])])])
     = (Ok "{{state.data.x}}", ["[TemplateRenderer] Variable not found: state.data.x"]).
Proof.
  split; [reflexivity|]. split; [reflexivity|].
  split; [reflexivity|]. split; [discriminate | reflexivity].
Qed.

End TemplateRendererFacts.

(** ** The template renderer over any host (claim C6) *)

Module RenderingFacts.
Import Js Str StrFacts HostValues TemplateRenderer TemplateRendererFacts
  Rendering DataHost.

Section Hosted.
Context {V X : Type} (E : Engine V X).

Lemma hosted_scan_skip (state : V) (a b : string) :
  scan E state (a ++ b) (String.length a) = scan E state b 0.
Proof. induction a as [|c a IH]; simpl; auto. Qed.

Lemma hosted_scan_placeholder (state : V) (p post : string) :
  is_path p = true ->
  scan E state (placeholder p ++ post) 0
  = andThen (substitute E state p) (scan E state post 0).
Proof.
  intros Hp.
  assert (matchPlaceholder (placeholder p ++ post)
          = Some (p, String.length (placeholder p))) as Hm.
  { apply matchPlaceholder_spec. repeat split; eauto. }
  unfold placeholder in *. rewrite !append_assoc in *.
  change ("{{state." ++ p ++ "}}" ++ post)
    with (String "{" ("{state." ++ p ++ "}}" ++ post)) in *.
  cbn [scan]. rewrite Hm.
  assert ((String.length ("{{state." ++ p ++ "}}") - 1)%nat
          = String.length ("{state." ++ p ++ "}}")) as -> by (simpl; lia).
  replace ("{state." ++ p ++ "}}" ++ post)
    with (("{state." ++ p ++ "}}") ++ post) by (now rewrite !append_assoc).
  now rewrite hosted_scan_skip.
Qed.

Lemma hosted_scan_plain (state : V) (c : ascii) (s : string) :
  (forall p post, is_path p = true -> String c s <> placeholder p ++ post) ->
  scan E state (String c s) 0
  = before (String c EmptyString) (scan E state s 0).
Proof.
  intros Hno. cbn [scan].
  destruct (matchPlaceholder (String c s)) as [[p len]|] eqn:Hm; [|reflexivity].
  apply matchPlaceholder_spec in Hm as (Hp & _ & post & Eq).
  now destruct (Hno p post Hp).
Qed.

(** C6, as amended.  Whatever the host, [renderTemplate] replaces
    every placeholder of a valid path, from left to right: a text that
    starts with no placeholder keeps its first character, a text that
    starts with one has it replaced by its substitution, and the rest is
    rendered in the same way, unless the substitution raised.  The
    substitution of a path whose value [value] the host reads is:
    [JSON.stringify(value)] when [value] is an object other than [null],
    [String(value)] when it is any other value but [undefined]; when it
    is [undefined] and the path does not itself begin with [data.], the
    [String] of the value read at [data.<path>] when that is neither
    [undefined] nor an object; and the literal placeholder, with one
    warning logged, when the path is unresolved after the fallback or
    unresolved and beginning with [data.].  An unresolved placeholder
    raises nothing: only reading a property and converting a resolved
    value can raise. *)
Theorem render_substitutes_every_placeholder (state : V) :
  renderTemplate E "" state = (Ok "", [])
  /\ (forall c s,
        (forall p post, is_path p = true -> String c s <> placeholder p ++ post) ->
        renderTemplate E (String c s) state
        = before (String c EmptyString) (renderTemplate E s state))
  /\ (forall p post,
        is_path p = true ->
        renderTemplate E (placeholder p ++ post) state
        = andThen (substitute E state p) (renderTemplate E post state))
  /\ (forall p value,
        getNestedProperty E state p = Ok value ->
        isUndefined E value = false ->
        typeofObject E value = true -> isNull E value = false ->
        substitute E state p = (jsonText E value, []))
  /\ (forall p value,
        getNestedProperty E state p = Ok value ->
        isUndefined E value = false ->
        typeofObject E value = false \/ isNull E value = true ->
        substitute E state p = (stringOf E value, []))
  /\ (forall p value dataValue,
        getNestedProperty E state p = Ok value ->
        isUndefined E value = true ->
        startsWith "data." p = false ->
        getNestedProperty E state ("data." ++ p) = Ok dataValue ->
        isUndefined E dataValue = false ->
        typeofObject E dataValue = false ->
        substitute E state p = (stringOf E dataValue, []))
  /\ (forall p value,
        getNestedProperty E state p = Ok value ->
        isUndefined E value = true ->
        startsWith "data." p = true
        \/ (exists dataValue,
               getNestedProperty E state ("data." ++ p) = Ok dataValue
               /\ isUndefined E dataValue = true) ->
        substitute E state p = (Ok (placeholder p), [warningFor p]))
  /\ (forall p x,
        fst (substitute E state p) = Throw x ->
        getNestedProperty E state p = Throw x
        \/ getNestedProperty E state ("data." ++ p) = Throw x
        \/ (exists value,
               (getNestedProperty E state p = Ok value
                \/ getNestedProperty E state ("data." ++ p) = Ok value)
               /\ isUndefined E value = false
               /\ (stringOf E value = Throw x \/ jsonStringify E value = Throw x))).
Proof.
  unfold renderTemplate.
  split; [reflexivity|].
  split; [intros c s H; now apply hosted_scan_plain|].
  split; [intros p post H; now apply hosted_scan_placeholder|].
  split; [|split; [|split; [|split]]].
  - intros p value Hv Hu Ho Hn. unfold substitute. now rewrite Hv, Hu, Ho, Hn.
  - intros p value Hv Hu Ho. unfold substitute. rewrite Hv, Hu. cbn [negb].
    destruct Ho as [-> | ->]; [reflexivity|]. now rewrite andb_false_r.
  - intros p value dataValue Hv Hu Hs Hdv Hdu Ho. unfold substitute.
    now rewrite Hv, Hu, Hs, Hdv, Hdu.
  - intros p value Hv Hu H. unfold substitute. rewrite Hv, Hu. cbn [negb].
    destruct (startsWith "data." p); [reflexivity|]. cbn [negb].
    destruct H as [H|(dataValue & Hdv & Hdu)]; [discriminate|].
    now rewrite Hdv, Hdu.
  - intros p x. unfold substitute.
    destruct (getNestedProperty E state p) as [value|x0] eqn:Hv;
      [|intros [= ->]; now left].
    destruct (isUndefined E value) eqn:Hu; cbn [negb].
    + destruct (startsWith "data." p); cbn [negb]; [discriminate|].
      destruct (getNestedProperty E state ("data." ++ p)) as [dataValue|x0] eqn:Hdv;
        [|intros [= ->]; right; now left].
      destruct (isUndefined E dataValue) eqn:Hdu; cbn [negb]; [discriminate|].
      cbn [fst]. intros Hs. right. right. exists dataValue.
      split; [now right|]. split; [exact Hdu | now left].
    + destruct (typeofObject E value && negb (isNull E value)); cbn [fst].
      * unfold jsonText.
        destruct (jsonStringify E value) as [[text|]|x0] eqn:Hj; try discriminate.
        intros [= ->]. right. right. exists value.
        split; [now left|]. split; [exact Hu | now right].
      * intros Hs. right. right. exists value.
        split; [now left|]. split; [exact Hu | now left].
Qed.

End Hosted.

(** The theorem at work on one template, over the sample host: a
    resolved path, a path resolved through the [data.] fallback and an
    unresolved one. *)
Lemma render_substitutes_every_placeholder_witness :
  renderTemplate dataHost "{{state.query}}{{state.plan}}{{state.none}}" sampleState
  = (Ok ("{" ++ TemplateRenderer.dquote ++ "message" ++ TemplateRenderer.dquote ++ ":"
             ++ TemplateRenderer.dquote ++ "hi" ++ TemplateRenderer.dquote ++ "}"
             ++ "P" ++ "{{state.none}}"),
     ["[TemplateRenderer] Variable not found: state.none"]).
Proof.
  destruct (render_substitutes_every_placeholder dataHost sampleState)
    as (_ & _ & Hph & Hobj & _ & Hdata & Hnone & _).
  change "{{state.query}}{{state.plan}}{{state.none}}"
    with (placeholder "query" ++ placeholder "plan" ++ placeholder "none" ++ "").
  rewrite (Hph "query" _ eq_refl), (Hph "plan" _ eq_refl), (Hph "none" _ eq_refl).
  rewrite (Hobj "query" (JObj [("message", JStr "hi")]))
    by reflexivity.
  rewrite (Hdata "plan" JUndefined (JStr "P")) by reflexivity.
  rewrite (Hnone "none" JUndefined)
    by (try reflexivity; right; exists JUndefined; split; reflexivity).
  reflexivity.
Defined.

End RenderingFacts.

(** ** The evaluator and the renderer on JSON data are the hosted ones
       at the sample host *)

Module DataHostFacts.
Import Js Str HostValues DataHost.

Lemma nullish_data (v : JsValue) :
  isNull dataHost v || isUndefined dataHost v
  = match v with
    | JNull | JUndefined => true
    | _ => false
    end.
Proof. destruct v; reflexivity. Qed.

Lemma isUndefined_data (v : JsValue) :
  isUndefined dataHost v = TemplateRenderer.is_undefined v.
Proof. destruct v; reflexivity. Qed.

Lemma object_data (v : JsValue) :
  typeofObject dataHost v && negb (isNull dataHost v) = is_object v.
Proof. destruct v; reflexivity. Qed.

Lemma walk_data (parts : list string) (current : JsValue) :
  Evaluator.walk dataHost parts current = Ok (ConditionEvaluator.walk parts current).
Proof.
  revert current. induction parts as [|part rest IH]; intros current; [reflexivity|].
  cbn [Evaluator.walk ConditionEvaluator.walk]. rewrite nullish_data.
  destruct current; try reflexivity; cbn [getProperty dataHost bindR]; apply IH.
Qed.

Lemma getNestedProperty_data (obj : JsValue) (path : string) :
  Evaluator.getNestedProperty dataHost obj path
  = Ok (ConditionEvaluator.getNestedProperty obj path).
Proof.
  unfold Evaluator.getNestedProperty, ConditionEvaluator.getNestedProperty.
  change (isTruthy dataHost obj) with (truthy obj).
  change (typeofObject dataHost obj) with (typeof_object obj).
  destruct (negb (truthy obj) || negb (typeof_object obj)); [reflexivity|].
  apply walk_data.
Qed.

Lemma is_number_text_parse (s : string) :
  Evaluator.is_number_text s
  = match parse_decimal s with Some _ => true | None => false end.
Proof.
  assert (forall body sgn,
             match cut "." body with
             | None => all_digits body
             | Some (ip, fp) => all_digits ip && all_digits fp
             end
             = match
                 match cut "." body with
                 | None =>
                     if all_digits body
                     then Some (mkNum (sgn (digits_value body 0)) 0) else None
                 | Some (ip, fp) =>
                     if all_digits ip && all_digits fp
                     then Some (mkNum (sgn (digits_value (ip ++ fp) 0))
                                  (String.length fp))
                     else None
                 end
               with Some _ => true | None => false end) as Hbody.
  { intros body sgn. destruct (cut "." body) as [[ip fp]|].
    - destruct (all_digits ip && all_digits fp); reflexivity.
    - destruct (all_digits body); reflexivity. }
  unfold Evaluator.is_number_text, parse_decimal.
  destruct s as [|c r]; [reflexivity|].
  destruct c as [[] [] [] [] [] [] [] []]; cbv beta iota zeta;
    match goal with
    | |- context [cut "." ?body] =>
        first [exact (Hbody body (fun z => (- z)%Z)) | exact (Hbody body (fun z => z))]
    end.
Qed.

Lemma parseValue_data (value : string) :
  Evaluator.parseValue dataHost value = ConditionEvaluator.parseValue value.
Proof.
  unfold Evaluator.parseValue, ConditionEvaluator.parseValue.
  destruct (_ || _); [reflexivity|].
  rewrite is_number_text_parse. cbn [parseFloat dataHost].
  destruct (parse_decimal (trim value)); reflexivity.
Qed.

Lemma compare_data (op : ConditionEvaluator.CmpOp) (l r : JsValue) :
  Evaluator.compare dataHost op l r = Ok (ConditionEvaluator.compare op l r).
Proof. destruct op; reflexivity. Qed.

(** What the evaluator on data throws is its own error. *)
Definition raised (r : Result string JsValue) : Result (Evaluator.Raised string) JsValue :=
  match r with
  | Ok v => Ok v
  | Throw message => Throw (Evaluator.UnableToParse message)
  end.

Lemma evaluatePatterns_data (expr trimmed : string) (state : JsValue) :
  Evaluator.evaluatePatterns dataHost expr trimmed state
  = raised (ConditionEvaluator.evaluatePatterns expr trimmed state).
Proof.
  unfold Evaluator.evaluatePatterns, ConditionEvaluator.evaluatePatterns.
  destruct (ConditionEvaluator.match_comparison trimmed) as [[[path op] valueStr]|].
  { now rewrite getNestedProperty_data, parseValue_data; cbn [Evaluator.host bindR];
      rewrite compare_data. }
  destruct (ConditionEvaluator.match_logical "&&" trimmed) as [[path1 path2]|].
  { now rewrite !getNestedProperty_data. }
  destruct (ConditionEvaluator.match_logical "||" trimmed) as [[path1 path2]|].
  { now rewrite !getNestedProperty_data. }
  destruct (ConditionEvaluator.match_complex trimmed) as [[[[path1 path2] op] path3]|].
  { rewrite !getNestedProperty_data. cbn [Evaluator.host bindR].
    change (isTruthy dataHost) with truthy.
    destruct (negb (truthy _)); [reflexivity|].
    now rewrite compare_data. }
  destruct (ConditionEvaluator.match_state_path trimmed) as [path|]; [|reflexivity].
  now rewrite getNestedProperty_data.
Qed.

(** On the sample host the hosted evaluator is the evaluator on JSON
    data. *)
Lemma evaluateExpression_data (expr : string) (state : JsValue) :
  Evaluator.evaluateExpression dataHost expr state
  = raised (ConditionEvaluator.evaluateExpression expr state).
Proof. apply evaluatePatterns_data. Qed.

Lemma createConditionFunction_data
  (expression : string) (targets : option ConditionEvaluator.Targets)
  (fallback : option string) (state : JsValue) :
  Evaluator.createConditionFunction dataHost expression targets fallback state
  = ConditionEvaluator.createConditionFunction expression targets fallback state.
Proof.
  unfold Evaluator.createConditionFunction, ConditionEvaluator.createConditionFunction.
  destruct (is_empty expression || is_empty (trim expression)); [reflexivity|].
  destruct (negb (ConditionEvaluator.isSafeExpression expression)); [reflexivity|].
  rewrite evaluateExpression_data.
  destruct (ConditionEvaluator.evaluateExpression expression state); reflexivity.
Qed.

Lemma reduce_data (keys : list string) (current : JsValue) :
  Rendering.reduce dataHost keys current
  = Ok (fold_left
          (fun current key =>
             match current with
             | JNull | JUndefined => JUndefined
             | _ => getProp current key
             end)
          keys current).
Proof.
  revert current. induction keys as [|key rest IH]; intros current; [reflexivity|].
  cbn [Rendering.reduce fold_left]. unfold Rendering.optionalProperty.
  rewrite nullish_data.
  destruct current; cbn [getProperty dataHost bindR]; apply IH.
Qed.

Lemma substitute_data (state : JsValue) (path : string) :
  Rendering.substitute dataHost state path
  = (Ok (fst (TemplateRenderer.substitute state path)),
     snd (TemplateRenderer.substitute state path)).
Proof.
  unfold Rendering.substitute, TemplateRenderer.substitute,
    Rendering.getNestedProperty, TemplateRenderer.getNestedProperty.
  rewrite !reduce_data, isUndefined_data, object_data.
  destruct (TemplateRenderer.is_undefined _); cbn [negb].
  - destruct (startsWith "data." path); cbn [negb]; [reflexivity|].
    rewrite isUndefined_data.
    destruct (TemplateRenderer.is_undefined _); reflexivity.
  - destruct (fold_left _ _ state); reflexivity.
Qed.

Lemma scan_data (state : JsValue) (s : string) (skip : nat) :
  Rendering.scan dataHost state s skip
  = (Ok (fst (TemplateRenderer.scan state s skip)),
     snd (TemplateRenderer.scan state s skip)).
Proof.
  revert skip. induction s as [|c s IH]; intros skip; [reflexivity|].
  cbn [Rendering.scan TemplateRenderer.scan]. destruct skip as [|k]; [|apply IH].
  destruct (TemplateRenderer.matchPlaceholder (String c s)) as [[path len]|].
  - rewrite substitute_data, IH. unfold Rendering.andThen, Rendering.before.
    destruct (TemplateRenderer.substitute state path) as [text w1].
    destruct (TemplateRenderer.scan state s (len - 1)) as [out w2]. reflexivity.
  - rewrite IH. unfold Rendering.before.
    destruct (TemplateRenderer.scan state s 0) as [out w]. reflexivity.
Qed.

(** On the sample host the hosted renderer is the renderer on JSON
    data, which never raises. *)
Lemma renderTemplate_data (template : string) (state : JsValue) :
  Rendering.renderTemplate dataHost template state
  = (Ok (fst (TemplateRenderer.renderTemplate template state)),
     snd (TemplateRenderer.renderTemplate template state)).
Proof. apply scan_data. Qed.

End DataHostFacts.

(** ** The graph compiler (claim C7) *)

Module CompilerFacts.
Import Js Str StrFacts Compiler.

Lemma app_nil_iff {A : Type} (a b : list A) :
  (a ++ b)%list = [] <-> a = [] /\ b = [].
Proof.
  split; [apply app_eq_nil|]. intros [-> ->]. reflexivity.
Qed.

Lemma nodup_length_le (l : list string) :
  (List.length (nodup string_dec l) <= List.length l)%nat.
Proof.
  induction l as [|x l IH]; simpl; [lia|].
  destruct (in_dec string_dec x l); simpl; lia.
Qed.

Lemma distinctCount_NoDup (l : list string) :
  List.length l = distinctCount l <-> NoDup l.
Proof.
  unfold distinctCount. split.
  - induction l as [|x l IH]; simpl; [constructor|].
    pose proof (nodup_length_le l) as Hle.
    destruct (in_dec string_dec x l); simpl; intros Hlen.
    + lia.
    + constructor; [assumption|]. apply IH. lia.
  - intros H. now rewrite (nodup_fixed_point string_dec H).
Qed.

(** [x] names no node of the graph and is neither reserved name. *)
Definition unresolved (config : GraphConfig) (x : string) : Prop :=
  x <> START /\ x <> END /\ ~ In x (map node_id (orEmpty (nodes config))).

(** One endpoint of [edge] resolves to nothing. *)
Definition dangling (config : GraphConfig) (edge : GraphEdgeConfig) : Prop :=
  unresolved config (edge_from edge)
  \/ (exists t, present (edge_to edge) = Some t /\ unresolved config t)
  \/ (exists k t, In (k, t) (orEmpty (edge_targets edge)) /\ unresolved config t)
  \/ (exists f, present (edge_fallback edge) = Some f /\ unresolved config f).

(** [type] is no key of the registry and no name the registry
    inherits. *)
Definition unregistered (type : string) : Prop :=
  ~ In type NODE_REGISTRY_KEYS /\ ~ In type OBJECT_PROTOTYPE.

Lemma isValidNodeType_false (type : string) :
  isValidNodeType type = false <-> unregistered type.
Proof.
  unfold isValidNodeType, unregistered.
  rewrite orb_false_iff, !mem_false. reflexivity.
Qed.

(** The failures validation reports. *)
Definition invalid (config : GraphConfig) : Prop :=
  orEmpty (nodes config) = []
  \/ orEmpty (edges config) = []
  \/ (exists node, In node (orEmpty (nodes config))
                   /\ unregistered (node_type node))
  \/ ~ NoDup (map node_id (orEmpty (nodes config)))
  \/ (exists edge, In edge (orEmpty (edges config)) /\ dangling config edge)
  \/ (exists t, tier config = Some t /\ (t < 0 \/ 4 < t)%Z).

Lemma nodeErrors_nil (config : GraphConfig) :
  nodeErrors config = [] <-> orEmpty (nodes config) <> [].
Proof.
  unfold nodeErrors. destruct (nodes config) as [[|n ns]|]; simpl;
    split; congruence.
Qed.

Lemma edgeErrors_nil (config : GraphConfig) :
  edgeErrors config = [] <-> orEmpty (edges config) <> [].
Proof.
  unfold edgeErrors. destruct (edges config) as [[|e es]|]; simpl;
    split; congruence.
Qed.

Lemma flat_map_nil {A B : Type} (f : A -> list B) (l : list A) :
  flat_map f l = [] <-> forall x, In x l -> f x = [].
Proof.
  induction l as [|a l IH]; simpl.
  - split; [intros _ x [] | reflexivity].
  - split.
    + intros H. apply app_eq_nil in H as [Ha Hl].
      intros x [<-|Hx]; [exact Ha | now apply IH].
    + intros H. rewrite (H a) by auto. simpl. apply IH. auto.
Qed.

Lemma typeErrors_nil (config : GraphConfig) :
  typeErrors config = [] <->
  forall node, In node (orEmpty (nodes config)) ->
               isValidNodeType (node_type node) = true.
Proof.
  unfold typeErrors. rewrite flat_map_nil.
  split; intros H node Hin; specialize (H node Hin).
  - destruct (isValidNodeType (node_type node)); [reflexivity | discriminate].
  - now rewrite H.
Qed.

Lemma duplicateErrors_nil (config : GraphConfig) :
  duplicateErrors config = [] <-> NoDup (map node_id (orEmpty (nodes config))).
Proof.
  unfold duplicateErrors. destruct (nodes config) as [ns|]; simpl.
  - rewrite <- distinctCount_NoDup.
    destruct (Nat.eqb_spec (List.length (map node_id ns))
                (distinctCount (map node_id ns))); simpl;
      split; congruence.
  - split; [constructor | reflexivity].
Qed.

Lemma valid_unresolved (config : GraphConfig) (ns : list GraphNodeConfig) (x : string) :
  nodes config = Some ns ->
  mem x (validNodeIds ns) = false <-> unresolved config x.
Proof.
  intros Hn. rewrite mem_false. unfold unresolved, validNodeIds.
  rewrite Hn. simpl. rewrite in_app_iff. simpl. unfold START, END.
  split.
  - intros H. repeat split; intros H'; apply H; auto.
  - intros (H1 & H2 & H3) [H|[H|[H|[H|[]]]]]; auto.
Qed.

Lemma endpointErrorsOf_nil (config : GraphConfig) (ns : list GraphNodeConfig)
  (edge : GraphEdgeConfig) :
  nodes config = Some ns ->
  endpointErrorsOf (validNodeIds ns) edge = [] <-> ~ dangling config edge.
Proof.
  intros Hn. unfold endpointErrorsOf, dangling. split.
  - intros H. apply app_eq_nil in H as [H1 H].
    apply app_eq_nil in H as [H2 H]. apply app_eq_nil in H as [H3 H4].
    intros [D|[(t & Ht & D)|[(k & t & Hin & D)|(f & Hf & D)]]];
      apply (valid_unresolved config ns _ Hn) in D.
    + rewrite D in H1. discriminate.
    + rewrite Ht, D in H2. discriminate.
    + rewrite flat_map_nil in H3. specialize (H3 (k, t) Hin). simpl in H3.
      rewrite D in H3. discriminate.
    + rewrite Hf, D in H4. discriminate.
  - intros H.
    assert (forall x, mem x (validNodeIds ns) = false -> unresolved config x) as U.
    { intros x. apply (valid_unresolved config ns x Hn). }
    rewrite !app_nil_iff. split; [|split; [|split]].
    + destruct (mem (edge_from edge) (validNodeIds ns)) eqn:E; [reflexivity|].
      destruct H. left. now apply U.
    + destruct (present (edge_to edge)) as [t|] eqn:Et; [|reflexivity].
      destruct (mem t (validNodeIds ns)) eqn:E; [reflexivity|].
      destruct H. right. left. exists t. split; [reflexivity | now apply U].
    + apply flat_map_nil. intros [k t] Hin. simpl.
      destruct (mem t (validNodeIds ns)) eqn:E; [reflexivity|].
      destruct H. right. right. left. exists k, t. split; [exact Hin | now apply U].
    + destruct (present (edge_fallback edge)) as [f|] eqn:Ef; [|reflexivity].
      destruct (mem f (validNodeIds ns)) eqn:E; [reflexivity|].
      destruct H. right. right. right. exists f. split; [reflexivity | now apply U].
Qed.

Lemma tierErrors_nil (config : GraphConfig) :
  tierErrors config = [] <->
  forall t, tier config = Some t -> (0 <= t <= 4)%Z.
Proof.
  unfold tierErrors. destruct (tier config) as [t|].
  - destruct (Z.ltb_spec t 0); destruct (Z.ltb_spec 4 t); simpl; split;
      try discriminate; try reflexivity;
      try (intros H'; specialize (H' t eq_refl); lia).
    intros _ t' [= <-]. lia.
  - split; [intros _ t; discriminate | reflexivity].
Qed.

Lemma validationErrors_nil (config : GraphConfig) :
  validationErrors config = [] <-> ~ invalid config.
Proof.
  unfold validationErrors, invalid.
  rewrite !app_nil_iff, nodeErrors_nil, edgeErrors_nil, typeErrors_nil,
    duplicateErrors_nil, tierErrors_nil.
  split.
  - intros (Hn & He & Ht & Hd & Hp & Hr)
           [H|[H|[(node & Hin & H)|[H|[(edge & Hin & H)|(t & Et & H)]]]]].
    + contradiction.
    + contradiction.
    + apply isValidNodeType_false in H. rewrite (Ht node Hin) in H.
      discriminate.
    + contradiction.
    + unfold endpointErrors in Hp.
      destruct (nodes config) as [ns|] eqn:En; [|now apply Hn].
      destruct (edges config) as [es|] eqn:Ee; [|now apply He].
      rewrite flat_map_nil in Hp. specialize (Hp edge Hin).
      now apply (endpointErrorsOf_nil config ns edge En) in Hp.
    + specialize (Hr t Et). lia.
  - intros H. repeat split.
    + intros E. apply H. now left.
    + intros E. apply H. right. now left.
    + intros node Hin.
      destruct (isValidNodeType (node_type node)) eqn:Hy; [reflexivity|].
      apply isValidNodeType_false in Hy.
      destruct H. right. right. left. now exists node.
    + apply duplicateErrors_nil.
      destruct (duplicateErrors config) as [|m ms] eqn:E; [reflexivity|].
      destruct H. right. right. right. left. intros Hd.
      apply duplicateErrors_nil in Hd. congruence.
    + unfold endpointErrors.
      destruct (nodes config) as [ns|] eqn:En; [|reflexivity].
      destruct (edges config) as [es|] eqn:Ee; [|reflexivity].
      apply flat_map_nil. intros edge Hin.
      apply (endpointErrorsOf_nil config ns edge En).
      intros D. apply H. right. right. right. right. left.
      exists edge. now split.
    + destruct (Z.ltb_spec t 0) as [Hl|Hl]; [|exact Hl].
      destruct H. right. right. right. right. right. exists t. auto.
    + destruct (Z.ltb_spec 4 t) as [Hl|Hl]; [|exact Hl].
      destruct H. right. right. right. right. right. exists t. auto.
Qed.

Lemma app_nonempty {A : Type} (a b : list A) :
  (a ++ b)%list <> [] -> a <> [] \/ b <> [].
Proof. destruct a; simpl; [now right | left; discriminate]. Qed.

Lemma flat_map_nonempty {A B : Type} (f : A -> list B) (l : list A) :
  flat_map f l <> [] -> exists x, In x l /\ f x <> [].
Proof.
  induction l as [|a l IH]; simpl; [congruence|].
  intros H. apply app_nonempty in H as [H|H].
  - exists a. auto.
  - destruct (IH H) as (x & Hin & Hx). exists x. auto.
Qed.

Lemma endpointErrorsOf_nonempty (config : GraphConfig) (ns : list GraphNodeConfig)
  (edge : GraphEdgeConfig) :
  nodes config = Some ns ->
  endpointErrorsOf (validNodeIds ns) edge <> [] -> dangling config edge.
Proof.
  intros Hn H.
  assert (forall x, mem x (validNodeIds ns) = false -> unresolved config x) as U.
  { intros x. apply (valid_unresolved config ns x Hn). }
  unfold endpointErrorsOf in H. unfold dangling.
  apply app_nonempty in H as [H|H].
  { left. destruct (mem (edge_from edge) (validNodeIds ns)) eqn:E;
      [now destruct H | now apply U]. }
  apply app_nonempty in H as [H|H].
  { right. left. destruct (present (edge_to edge)) as [t|]; [|now destruct H].
    exists t. split; [reflexivity|].
    destruct (mem t (validNodeIds ns)) eqn:E; [now destruct H | now apply U]. }
  apply app_nonempty in H as [H|H].
  { right. right. left. apply flat_map_nonempty in H as ([k t] & Hin & Hx).
    exists k, t. split; [exact Hin|]. simpl in Hx.
    destruct (mem t (validNodeIds ns)) eqn:E; [now destruct Hx | now apply U]. }
  right. right. right.
  destruct (present (edge_fallback edge)) as [f|]; [|now destruct H].
  exists f. split; [reflexivity|].
  destruct (mem f (validNodeIds ns)) eqn:E; [now destruct H | now apply U].
Qed.

Lemma validationErrors_nonempty (config : GraphConfig) :
  validationErrors config <> [] -> invalid config.
Proof.
  unfold validationErrors, invalid. intros H.
  apply app_nonempty in H as [H|H].
  { left. unfold nodeErrors in H.
    destruct (nodes config) as [[|n ns]|]; simpl; congruence. }
  apply app_nonempty in H as [H|H].
  { right. left. unfold edgeErrors in H.
    destruct (edges config) as [[|e es]|]; simpl; congruence. }
  apply app_nonempty in H as [H|H].
  { right. right. left. apply flat_map_nonempty in H as (node & Hin & Hx).
    exists node. split; [exact Hin|].
    destruct (isValidNodeType (node_type node)) eqn:E;
      [now destruct Hx | now apply isValidNodeType_false]. }
  apply app_nonempty in H as [H|H].
  { right. right. right. left. intros Hd.
    apply duplicateErrors_nil in Hd. contradiction. }
  apply app_nonempty in H as [H|H].
  { right. right. right. right. left. unfold endpointErrors in H.
    destruct (nodes config) as [ns|] eqn:En; [|now destruct H].
    destruct (edges config) as [es|] eqn:Ee; [|now destruct H].
    apply flat_map_nonempty in H as (edge & Hin & Hx).
    exists edge. split; [exact Hin|].
    now apply (endpointErrorsOf_nonempty config ns edge En). }
  right. right. right. right. right. unfold tierErrors in H.
  destruct (tier config) as [t|]; [|now destruct H].
  exists t. split; [reflexivity|].
  destruct (Z.ltb_spec t 0); [lia|]. destruct (Z.ltb_spec 4 t); [lia|].
  now destruct H.
Qed.

Lemma validated_nodes_known (config : GraphConfig) :
  validationErrors config = [] ->
  unknownNode (orEmpty (nodes config)) = None.
Proof.
  intros H. unfold validationErrors in H.
  rewrite !app_nil_iff in H. destruct H as (_ & _ & Ht & _).
  rewrite typeErrors_nil in Ht. unfold unknownNode.
  destruct (find _ _) as [node|] eqn:F; [|reflexivity].
  apply find_some in F as [Hin Hf]. specialize (Ht node Hin).
  rewrite Ht in Hf. discriminate.
Qed.

(** The compiler's own error is the validation error: it is raised
    exactly on a config with one of the failures of [invalid], holds
    every message found and is keyed by the graph id.  On every other
    config validation passes with warnings only (orphan nodes, a large
    graph) and the node loop refuses no node; what the state-graph
    library then makes of the config is the library's. *)
Theorem compile_fails_exactly_on_invalid_config
  (G : Type) (assemble : GraphConfig -> Result string G) (config : GraphConfig) :
  ((exists e, compileGraphFromConfig assemble config = Throw (CompilationError e))
   <-> invalid config)
  /\ (forall e,
        compileGraphFromConfig assemble config = Throw (CompilationError e) ->
        e = mkCompilationError (validationMessage (validationErrors config))
              (graphId config)
        /\ validateGraphConfig config = Throw e)
  /\ (~ invalid config ->
      validateGraphConfig config = Ok (warningsOf config)
      /\ compileGraphFromConfig assemble config
         = match assemble config with
           | Ok g => Ok (mkCompiled (graphId config) config g)
           | Throw message => Throw (LibraryError message)
           end).
Proof.
  assert (forall e,
             compileGraphFromConfig assemble config = Throw (CompilationError e) ->
             validationErrors config <> []
             /\ e = mkCompilationError (validationMessage (validationErrors config))
                      (graphId config)
             /\ validateGraphConfig config = Throw e) as Hthrow.
  { intros e. unfold compileGraphFromConfig, validateGraphConfig.
    destruct (validationErrors config) as [|m ms] eqn:E.
    - rewrite (validated_nodes_known config E).
      destruct (assemble config); discriminate.
    - intros [= <-]. split; [discriminate|]. split; reflexivity. }
  split; [|split].
  - split.
    + intros [e He]. destruct (Hthrow e He) as (Hne & _).
      now apply validationErrors_nonempty.
    + intros Hinv. unfold compileGraphFromConfig, validateGraphConfig.
      destruct (validationErrors config) as [|m ms] eqn:E.
      * apply validationErrors_nil in E. contradiction.
      * eexists. reflexivity.
  - intros e He. destruct (Hthrow e He) as (_ & H1 & H2). now split.
  - intros H. apply validationErrors_nil in H.
    unfold compileGraphFromConfig, validateGraphConfig.
    rewrite (validated_nodes_known config H), H. split; reflexivity.
Qed.

(** A two-node config with an orphan node, over a library that always
    assembles. *)
Definition orphanConfig : GraphConfig :=
  mkGraph "g2" (Some 4%Z)
    (Some [mkNode "a" "router" None; mkNode "lonely" "universal" None])
    (Some [mkEdge "__start__" (Some "a") None None None;
           mkEdge "a" (Some "__end__") None None None]).

Lemma compile_fails_exactly_on_invalid_config_witness :
  validateGraphConfig orphanConfig
  = Ok ["Orphaned nodes (no incoming edges): lonely"]
  /\ compileGraphFromConfig (fun _ => Ok tt) orphanConfig
     = Ok (mkCompiled "g2" orphanConfig tt).
Proof.
  destruct (compile_fails_exactly_on_invalid_config
              unit (fun _ => Ok tt) orphanConfig) as (_ & _ & Hvalid).
  apply Hvalid. apply validationErrors_nil. reflexivity.
Defined.

(** A config whose one node has the type [toString]: no key of the
    registry, but a name the registry object inherits. *)
Definition inheritedTypeConfig : GraphConfig :=
  mkGraph "g3" (Some 4%Z)
    (Some [mkNode "a" "toString" None])
    (Some [mkEdge "__start__" (Some "a") None None None;
           mkEdge "a" (Some "__end__") None None None]).

(** C7: an unrecognized node type can pass.  [isValidNodeType] tests
    [type in NODE_REGISTRY], and [in] also finds what the registry
    object inherits: every name of [Object.prototype] counts as a node
    type.  For the config [inheritedTypeConfig] validation finds no
    failure and logs no warning, the node loop finds a (truthy) entry
    for the type, and the compiler raises no compilation error,
    whatever the state-graph library does with the config. *)
Theorem inherited_name_passes_as_node_type :
  ~ In "toString" NODE_REGISTRY_KEYS
  /\ (forall type, In type OBJECT_PROTOTYPE -> isValidNodeType type = true)
  /\ validationErrors inheritedTypeConfig = []
  /\ validateGraphConfig inheritedTypeConfig = Ok []
  /\ unknownNode (orEmpty (nodes inheritedTypeConfig)) = None
  /\ (forall (G : Type) (assemble : GraphConfig -> Result string G)
             (e : GraphCompilationError),
        compileGraphFromConfig assemble inheritedTypeConfig
        <> Throw (CompilationError e)).
Proof.
  split.
  { intros H. apply mem_In in H. discriminate. }
  split.
  { intros type H. unfold isValidNodeType. apply mem_In in H.
    rewrite H. apply orb_true_r. }
  split; [reflexivity|]. split; [reflexivity|]. split; [reflexivity|].
  intros G assemble e. unfold compileGraphFromConfig.
  change (validateGraphConfig inheritedTypeConfig) with
    (@Ok GraphCompilationError (list string) []).
  change (unknownNode (orEmpty (nodes inheritedTypeConfig))) with
    (@None GraphNodeConfig).
  cbv iota. destruct (assemble inheritedTypeConfig); discriminate.
Qed.


(** A config with an unknown node type, a dangling target and a tier
    out of range: one error, keyed by the graph id, naming all three. *)
Example compile_reports_three_failures :
  compileGraphFromConfig (fun _ => Ok tt)
    (mkGraph "g1" (Some 7%Z)
       (Some [mkNode "a" "router" None; mkNode "b" "oracle" None])
       (Some [mkEdge "__start__" (Some "a") None None None;
              mkEdge "a" None (Some "state.x")
                (Some [("yes", "b"); ("no", "c")]) None]))
  = Throw (CompilationError
             (mkCompilationError
                (validationMessage
                   ["Invalid node type: oracle (node: b)";
                    "Edge references unknown target in 'no': c";
                    "Invalid tier value: 7 (must be 0-4)"])
                "g1")).
Proof. reflexivity. Qed.

(** An orphan node is a warning, not an error. *)
Example orphan_node_is_a_warning :
  validateGraphConfig
    (mkGraph "g2" (Some 4%Z)
       (Some [mkNode "a" "router" None; mkNode "lonely" "universal" None])
       (Some [mkEdge "__start__" (Some "a") None None None;
              mkEdge "a" (Some "__end__") None None None]))
  = Ok ["Orphaned nodes (no incoming edges): lonely"].
Proof. reflexivity. Qed.

End CompilerFacts.

(** ** The tool process pool (claim C8) *)

Module StdioPoolFacts.
Import Js Str StrFacts StdioPool.

Definition isToolsCall (s : Sent) : bool :=
  match snd s with ToolsCall _ => true | ToolsList => false end.

(** A child the routing passes over: its listing rejects, or does not
    hold the tool. *)
Definition lacks (toolName : string) (client : Child) : Prop :=
  match child_tools client with
  | Ok tools => ~ In toolName tools
  | Throw _ => True
  end.

Lemma callTool_passes_over (before rest : list Child) (toolName : string)
  (args : JsValue) (meta : option JsValue) :
  Forall (lacks toolName) before ->
  callTool (before ++ rest)%list toolName args meta
  = (fst (callTool rest toolName args meta),
     (map (fun c => (child_server c, ToolsList)) before
      ++ snd (callTool rest toolName args meta))%list).
Proof.
  induction 1 as [|client before Hl _ IH]; simpl.
  - now destruct (callTool rest toolName args meta).
  - unfold lacks in Hl. destruct (child_tools client) as [tools|e].
    + destruct (mem toolName tools) eqn:E.
      * apply mem_In in E. contradiction.
      * rewrite IH. reflexivity.
    + rewrite IH. reflexivity.
Qed.

(** The routing part of C8, which the code keeps: the call goes to the
    first child that lists the tool, after one listing request to each
    child up to it; and when no child lists the tool, the pool raises
    its not-found error without any [tools/call]. *)
Lemma callTool_routes_to_first_lister
  (before rest : list Child) (client : Child) (tools : list string)
  (toolName : string) (args : JsValue) (meta : option JsValue) (result : JsValue) :
  Forall (lacks toolName) before ->
  child_tools client = Ok tools -> In toolName tools ->
  child_answer client (mkParams toolName args None) = Ok result ->
  callTool (before ++ client :: rest)%list toolName args meta
  = (Ok result,
     (map (fun c => (child_server c, ToolsList)) before
      ++ [(child_server client, ToolsList);
          (child_server client, ToolsCall (mkParams toolName args None))])%list).
Proof.
  intros Hb Ht Hin Ha. rewrite (callTool_passes_over _ _ _ _ _ Hb). simpl.
  rewrite Ht. apply mem_In in Hin. rewrite Hin, Ha. reflexivity.
Qed.

Lemma callTool_unknown_tool
  (clients : list Child) (toolName : string) (args : JsValue) (meta : option JsValue) :
  Forall (lacks toolName) clients ->
  fst (callTool clients toolName args meta) = Throw ("Tool not found: " ++ toolName)
  /\ filter isToolsCall (snd (callTool clients toolName args meta)) = [].
Proof.
  intros H. rewrite <- (app_nil_r clients).
  rewrite (callTool_passes_over _ _ _ _ _ H). simpl. split; [reflexivity|].
  rewrite app_nil_r. induction clients as [|c cs IH]; [reflexivity|].
  simpl. apply IH. now inversion H.
Qed.

(** What a request of the pool may be: a listing, or a [tools/call]
    whose parameters are the name and the arguments, without call
    metadata. *)
Definition bare (toolName : string) (args : JsValue) (s : Sent) : Prop :=
  match snd s with
  | ToolsList => True
  | ToolsCall params => params = mkParams toolName args None
  end.

(** C8 fails on the request itself: whatever call metadata the pool is
    given, and whatever the children answer, every [tools/call] it
    issues carries the name and the arguments only.  The pool hands the
    client no metadata, and the client's request has no [_meta] field.
    So with one child that lists [store_message], the call made with
    metadata reaches that child as [{name, arguments}]. *)
Theorem tools_call_carries_no_meta :
  (forall (clients : list Child) (toolName : string) (args : JsValue)
          (meta : option JsValue),
      Forall (bare toolName args) (snd (callTool clients toolName args meta)))
  /\ (forall (server : string) (args meta result : JsValue),
        callTool
          [mkChild server (Ok ["get_summary"; "store_message"]) (fun _ => Ok result)]
          "store_message" args (Some meta)
        = (Ok result,
           [(server, ToolsList);
            (server, ToolsCall (mkParams "store_message" args None))])).
Proof.
  split; [|reflexivity].
  intros clients toolName args meta.
  induction clients as [|client rest IH]; simpl; [constructor|].
  destruct (callTool rest toolName args meta) as [r sent3]. simpl in IH.
  destruct (child_tools client) as [tools|e]; simpl.
  - destruct (mem toolName tools); simpl.
    + destruct (child_answer client (mkParams toolName args None)); simpl.
      * repeat constructor.
      * constructor; [exact I|]. constructor; [reflexivity|exact IH].
    + constructor; [exact I|exact IH].
  - constructor; [exact I|exact IH].
Qed.

End StdioPoolFacts.

(** ** Tier-based access control (claim C9) *)

Module RegistryFacts.
Import Js Registry.

(** The tier a user is checked with: the account level on record, and
    4 when the user is unknown or the lookup fails. *)
Definition userTier (lookup : UserLookup) : option Z :=
  match lookup with
  | LookupThrows => Some 4%Z
  | UserNotFound => Some 4%Z
  | UserFound (JNum (mkNum z 0)) => Some z
  | UserFound _ => None
  end.

Lemma js_gt_integers (a b : Z) :
  js_gt (JNum (num_of_Z a)) (JNum (num_of_Z b)) = (b <? a)%Z.
Proof.
  unfold js_gt, js_lt, lessThan, num_of_Z, num_ltb. simpl.
  now rewrite !Z.mul_1_r.
Qed.

Lemma neuron_tier_of_lookup (findUser : string -> UserLookup) (userId : string) (t : Z) :
  userTier (findUser userId) = Some t ->
  NeuronRegistry.getUserTier findUser userId = JNum (num_of_Z t).
Proof.
  unfold NeuronRegistry.getUserTier, userTier.
  destruct (findUser userId) as [| |level]; try (intros [= <-]; reflexivity).
  destruct level as [| | |[z [|e]]| | |]; try discriminate.
  intros [= <-]. reflexivity.
Qed.

Lemma graph_tier_of_lookup (findUser : string -> UserLookup) (userId : string) (t : Z) :
  userTier (findUser userId) = Some t ->
  GraphRegistry.getUserTier findUser userId = JNum (num_of_Z t).
Proof.
  unfold GraphRegistry.getUserTier, userTier.
  destruct (findUser userId) as [| |level]; try (intros [= <-]; reflexivity).
  destruct level as [| | |[z [|e]]| | |]; try discriminate.
  intros [= <-]. reflexivity.
Qed.

(** Where the two registries agree: the owner of a resource always
    has access; for a user whose account level on record is a number,
    or who is unknown, or whose lookup fails (tier 4 then), a system
    resource is accessible exactly when the user's tier is at most the
    resource's tier; and a resource of any other owner is never
    accessible, the lookup raising an access-denied error. *)
Theorem tier_access_control
  (findUser : string -> UserLookup) (resource : Resource) (userId : string) :
  (ownerId resource = userId ->
   NeuronRegistry.validateAccess findUser resource userId = Ok tt
   /\ GraphRegistry.validateAccess findUser resource userId = Ok tt)
  /\ (ownerId resource = "system" -> userId <> "system" ->
      forall t, userTier (findUser userId) = Some t ->
        (NeuronRegistry.validateAccess findUser resource userId = Ok tt
         <-> (t <= resourceTier resource)%Z)
        /\ (GraphRegistry.validateAccess findUser resource userId = Ok tt
            <-> (t <= resourceTier resource)%Z))
  /\ userTier UserNotFound = Some 4%Z
  /\ userTier LookupThrows = Some 4%Z
  /\ (ownerId resource <> userId -> ownerId resource <> "system" ->
      (exists message,
          NeuronRegistry.validateAccess findUser resource userId
          = Throw (PrivateResource message))
      /\ (exists message,
             GraphRegistry.validateAccess findUser resource userId
             = Throw (PrivateResource message))).
Proof.
  split; [|split; [|split; [reflexivity|split; [reflexivity|]]]].
  - intros Hown.
    unfold NeuronRegistry.validateAccess, GraphRegistry.validateAccess.
    now rewrite Hown, String.eqb_refl.
  - intros Hsys Hne t Ht.
    unfold NeuronRegistry.validateAccess, GraphRegistry.validateAccess.
    rewrite Hsys.
    assert (String.eqb "system" userId = false) as ->.
    { apply String.eqb_neq. congruence. }
    rewrite String.eqb_refl.
    rewrite (neuron_tier_of_lookup findUser userId t Ht),
      (graph_tier_of_lookup findUser userId t Ht), js_gt_integers.
    destruct (Z.ltb_spec (resourceTier resource) t); split; split;
      try discriminate; try reflexivity; lia.
  - intros Hne Hns.
    unfold NeuronRegistry.validateAccess, GraphRegistry.validateAccess.
    apply String.eqb_neq in Hne, Hns. rewrite Hne, Hns.
    split; eexists; reflexivity.
Qed.

(** One user on record, at tier 4. *)
Definition sampleUsers (userId : string) : UserLookup :=
  if String.eqb userId "u1" then UserFound (JNum (num_of_Z 4)) else UserNotFound.

Lemma tier_access_control_witness :
  (NeuronRegistry.validateAccess sampleUsers (mkResource "mine" "u1" 0) "u1" = Ok tt
   /\ GraphRegistry.validateAccess sampleUsers (mkResource "mine" "u1" 0) "u1" = Ok tt)
  /\ ((NeuronRegistry.validateAccess sampleUsers
         (mkResource "research-mode" "system" 3) "u1" = Ok tt <-> (4 <= 3)%Z)
      /\ (GraphRegistry.validateAccess sampleUsers
            (mkResource "research-mode" "system" 3) "u1" = Ok tt <-> (4 <= 3)%Z))
  /\ ((exists message,
          NeuronRegistry.validateAccess sampleUsers (mkResource "theirs" "u2" 4) "u1"
          = Throw (PrivateResource message))
      /\ (exists message,
             GraphRegistry.validateAccess sampleUsers (mkResource "theirs" "u2" 4) "u1"
             = Throw (PrivateResource message))).
Proof.
  split; [|split].
  - apply (tier_access_control sampleUsers (mkResource "mine" "u1" 0) "u1").
    reflexivity.
  - apply (tier_access_control sampleUsers
             (mkResource "research-mode" "system" 3) "u1");
      [reflexivity | discriminate | reflexivity].
  - apply (tier_access_control sampleUsers (mkResource "theirs" "u2" 4) "u1");
      discriminate.
Defined.

(** C9: the neuron registry misses the default the graph registry
    applies.  For a user on record whose document holds no
    [accountLevel], [NeuronRegistry.getUserTier] answers [undefined];
    [undefined > tier] is false, so the user is admitted to every
    system neuron, whatever its tier.  The graph registry checks
    [typeof user.accountLevel === 'number'], takes tier 4 for the same
    user and admits the user to system graphs of tier 4 and above
    only. *)
Theorem neuron_registry_admits_user_without_level
  (findUser : string -> UserLookup) (resource : Resource) (userId : string) :
  ownerId resource = "system" ->
  userId <> "system" ->
  findUser userId = UserFound JUndefined ->
  NeuronRegistry.getUserTier findUser userId = JUndefined
  /\ NeuronRegistry.validateAccess findUser resource userId = Ok tt
  /\ GraphRegistry.getUserTier findUser userId = FREE_TIER
  /\ (GraphRegistry.validateAccess findUser resource userId = Ok tt
      <-> (4 <= resourceTier resource)%Z).
Proof.
  intros Hsys Hne Hfound.
  assert (String.eqb "system" userId = false) as Huser.
  { apply String.eqb_neq. congruence. }
  unfold NeuronRegistry.validateAccess, GraphRegistry.validateAccess,
    NeuronRegistry.getUserTier, GraphRegistry.getUserTier.
  rewrite Hsys, Huser, Hfound, String.eqb_refl.
  split; [reflexivity|]. split; [reflexivity|]. split; [reflexivity|].
  change (if isNumber JUndefined then JUndefined else FREE_TIER)
    with (JNum (num_of_Z 4)).
  rewrite js_gt_integers.
  destruct (Z.ltb_spec (resourceTier resource) 4); split;
    try discriminate; try reflexivity; lia.
Qed.

(** One user on record whose document holds no account level. *)
Definition levelessUsers (userId : string) : UserLookup :=
  if String.eqb userId "u7" then UserFound JUndefined else UserNotFound.

Lemma neuron_registry_admits_user_without_level_witness :
  NeuronRegistry.getUserTier levelessUsers "u7" = JUndefined
  /\ NeuronRegistry.validateAccess levelessUsers
       (mkResource "admin-neuron" "system" 0) "u7" = Ok tt
  /\ GraphRegistry.getUserTier levelessUsers "u7" = FREE_TIER
  /\ (GraphRegistry.validateAccess levelessUsers
        (mkResource "admin-neuron" "system" 0) "u7" = Ok tt <-> (4 <= 0)%Z).
Proof.
  apply (neuron_registry_admits_user_without_level levelessUsers
           (mkResource "admin-neuron" "system" 0) "u7");
    [reflexivity | discriminate | reflexivity].
Defined.

(** The spec's tier-denial scenario: a tier-4 user is refused the
    tier-3 system graph and admitted to the tier-4 one; a user the
    lookup does not find is treated alike. *)
Example tier_four_user_and_system_graphs :
  let findUser := fun u => if String.eqb u "u1"
                           then UserFound (JNum (num_of_Z 4)) else UserNotFound in
  GraphRegistry.validateAccess findUser (mkResource "research-mode" "system" 3) "u1"
  = Throw (TierTooLow
             "Graph 'research-mode' requires tier 3 or higher (user has tier 4)")
  /\ GraphRegistry.validateAccess findUser (mkResource "red-assistant" "system" 4) "u1"
     = Ok tt
  /\ NeuronRegistry.validateAccess findUser (mkResource "red-neuron" "system" 3) "ghost"
     = Throw (TierTooLow
                "Neuron 'red-neuron' requires tier 3 or higher (user has tier 4)")
  /\ NeuronRegistry.validateAccess findUser (mkResource "mine" "u1" 0) "u1" = Ok tt.
Proof. repeat split. Qed.

End RegistryFacts.

(** ** The orchestrator's concurrency guard (claim C10) *)

Module RespondFacts.
Import Js Respond.

(** The effects that persist a message, register a stream or dispatch
    to the graph. *)
Definition persistsOrDispatches (e : Effect) : bool :=
  match e with
  | CallMcpTool _ _ | GraphInvoke _ | RegisterStream _
  | GetMessageState _ | CompleteGeneration _ | BackgroundTasks _ => true
  | FindUser _ | GetGraph _ _ | StartGeneration _ | LoggerLog _ _ => false
  end.

(** The effects that only read: the user lookup and the graph
    registry. *)
Definition onlyReads (e : Effect) : bool :=
  match e with
  | FindUser _ | GetGraph _ _ => true
  | _ => false
  end.

Lemma loadSettings_reads (red : Red) (userId : string) :
  exists settings, loadSettings red userId = (Ok settings, [FindUser userId]).
Proof.
  unfold loadSettings. destruct (findUser red userId) as [[user|]|e]; eauto.
Qed.

Lemma loadGraph_reads (red : Red) (graphId userId : string) :
  forallb onlyReads (snd (loadGraph red graphId userId)) = true
  /\ fst (loadGraph red graphId userId) <> Throw AlreadyInProgress.
Proof.
  unfold loadGraph. destruct (getGraph red graphId userId) as [g|error]; simpl.
  - split; [reflexivity | discriminate].
  - destruct (isAccessDenied error || isNotFound error).
    + destruct (getGraph red DEFAULT_GRAPH_ID userId); simpl;
        (split; [reflexivity | discriminate]).
    + simpl. split; [reflexivity | discriminate].
Qed.

Lemma call_not_in_progress {A : Type} (e : Effect) (outcome : Result string A) :
  forall t, call e outcome <> (Throw AlreadyInProgress, t).
Proof. intros t. unfold call. destruct outcome; discriminate. Qed.

Lemma bind_in_progress {A B : Type} (m : M A) (k : A -> M B) (t : list Effect) :
  bind m k = (Throw AlreadyInProgress, t) ->
  m = (Throw AlreadyInProgress, t)
  \/ exists a t1 t2, m = (Ok a, t1) /\ k a = (Throw AlreadyInProgress, t2)
                     /\ t = (t1 ++ t2)%list.
Proof.
  unfold bind. destruct m as [[a|e] t1].
  - destruct (k a) as [r t2] eqn:K. intros [= -> <-]. right.
    exists a, t1, t2. now rewrite K.
  - intros [= -> ->]. now left.
Qed.

Lemma check_not_in_progress (red : Red) (metadataResult : JsValue) :
  forall t, check (messageCountOf red metadataResult) <> (Throw AlreadyInProgress, t).
Proof.
  intros t. unfold check, messageCountOf.
  destruct metadataResult; try discriminate;
    (destruct (truthy (getProp _ "isError")); [discriminate|];
     destruct (jsonParse red _) as [[]|]; discriminate).
Qed.

Lemma invokeAndPersist_not_in_progress (red : Red) (options : InvokeOptions)
  (compiled userId conversationId generationId assistantMessageId : string)
  (t : list Effect) :
  invokeAndPersist red options compiled userId conversationId generationId
    assistantMessageId <> (Throw AlreadyInProgress, t).
Proof.
  unfold invokeAndPersist. intros H.
  repeat match goal with
         | H : bind _ _ = (Throw AlreadyInProgress, _) |- _ =>
             apply bind_in_progress in H as [H|(? & ? & ? & ? & H & ?)]
         | H : call _ _ = (Throw AlreadyInProgress, _) |- _ =>
             now apply call_not_in_progress in H
         | H : check _ = (Throw AlreadyInProgress, _) |- _ =>
             now apply check_not_in_progress in H
         | H : ret _ = (Throw AlreadyInProgress, _) |- _ => discriminate H
         | H : match ?x with _ => _ end = (Throw AlreadyInProgress, _) |- _ =>
             destruct x
         | H : (if ?x then _ else _) = (Throw AlreadyInProgress, _) |- _ =>
             destruct x
         | H : (Ok _, _) = (Throw _, _) |- _ => discriminate H
         end.
Qed.

(** The trace of a [respond] that fails on the concurrency guard. *)
Lemma respond_in_progress_trace (red : Red) (message : string)
  (options : InvokeOptions) (trace : list Effect) :
  respond red message options = (Throw AlreadyInProgress, trace) ->
  exists reads conversationId,
    trace = (reads ++ [StartGeneration conversationId;
                       LoggerLog "warn" "Generation already in progress for conversation"])%list
    /\ forallb onlyReads reads = true
    /\ (startGeneration red conversationId = Ok None
        \/ startGeneration red conversationId = Ok (Some "")).
Proof.
  unfold respond. destruct (opt_userId options) as [userId|]; [|discriminate].
  destruct (Str.is_empty userId); [discriminate|].
  destruct (loadSettings_reads red userId) as [settings ->].
  intros H. apply bind_in_progress in H as [H|(s & t1 & t2 & E & H & ->)];
    [discriminate|].
  injection E as <- <-.
  apply bind_in_progress in H as [H|(g & t3 & t4 & E & H & ->)].
  { destruct (loadGraph_reads red
                (orDefault (opt_graphId options) (snd settings)) userId) as [_ Hn].
    rewrite H in Hn. now destruct Hn. }
  pose proof (loadGraph_reads red
                (orDefault (opt_graphId options) (snd settings)) userId) as [Hr _].
  rewrite E in Hr. simpl in Hr.
  apply bind_in_progress in H as [H|(started & t5 & t6 & E5 & H & ->)];
    [now apply call_not_in_progress in H|].
  set (conversationId :=
         orDefault (opt_conversationId options) (generateConversationId red message)) in *.
  unfold call in E5.
  destruct (startGeneration red conversationId) as [st|e] eqn:S; [|discriminate].
  injection E5 as <- <-.
  assert (forall t,
             @bind unit Response
               (call (LoggerLog "warn" "Generation already in progress for conversation")
                  (loggerLog red "warn" "Generation already in progress for conversation"))
               (fun _ => throw AlreadyInProgress)
             = (Throw AlreadyInProgress, t) ->
             t = [LoggerLog "warn" "Generation already in progress for conversation"])
    as Hlog.
  { intros t. unfold bind, call, throw.
    destruct (loggerLog red _ _); [intros [= <-]; reflexivity | discriminate]. }
  exists ([FindUser userId] ++ t3)%list, conversationId.
  destruct st as [generationId|].
  - destruct (Str.is_empty generationId) eqn:Eg.
    + apply Hlog in H. subst t6. split; [|split].
      * now rewrite <- !app_assoc.
      * simpl. exact Hr.
      * right. destruct generationId; [exact S | discriminate].
    + exfalso.
      repeat match goal with
             | H : bind _ _ = (Throw AlreadyInProgress, _) |- _ =>
                 apply bind_in_progress in H as [H|(? & ? & ? & ? & H & ?)]
             | H : call _ _ = (Throw AlreadyInProgress, _) |- _ =>
                 now apply call_not_in_progress in H
             end.
      destruct (opt_stream options); [discriminate|].
      now apply invokeAndPersist_not_in_progress in H.
  - apply Hlog in H. subst t6. split; [|split].
    + now rewrite <- !app_assoc.
    + simpl. exact Hr.
    + left. exact S.
Qed.

(** C10.  A [respond] call that fails because a generation is already
    in progress has done nothing but read: its effects are the user
    lookup, the graph lookups, the lifecycle start that yielded no
    generation id, and the warning logged.  No message was stored, no
    stream registered and nothing dispatched to the graph. *)
Theorem already_in_progress_changes_nothing
  (red : Red) (message : string) (options : InvokeOptions) (trace : list Effect) :
  respondAndStart red message options = (Throw AlreadyInProgress, trace) ->
  forallb (fun e => negb (persistsOrDispatches e)) trace = true
  /\ exists reads conversationId,
       trace = (reads ++ [StartGeneration conversationId;
                          LoggerLog "warn" "Generation already in progress for conversation"])%list
       /\ forallb onlyReads reads = true
       /\ (startGeneration red conversationId = Ok None
           \/ startGeneration red conversationId = Ok (Some "")).
Proof.
  unfold respondAndStart.
  destruct (respond red message options) as [[response|e] tr] eqn:R; [discriminate|].
  intros [= -> ->].
  destruct (respond_in_progress_trace red message options trace R)
    as (reads & conversationId & -> & Hr & Hs).
  split; [|eauto].
  rewrite forallb_app. simpl. rewrite andb_true_r.
  rewrite forallb_forall in *. intros e Hin. specialize (Hr e Hin).
  destruct e; try discriminate; reflexivity.
Qed.

(** A run in which a generation is already in progress for the
    conversation: the lifecycle start yields no id. *)
Definition busyRed : Red :=
  mkRed
    (fun _ => Ok (Some (mkSettings (Some 4%Z) None None (Some "research-mode"))))
    (fun _ => "conv_1")
    (fun n => if (n =? 0)%nat then "msg_user" else "msg_assistant")
    (fun graphId _ =>
       if String.eqb graphId "research-mode"
       then Throw (mkGraphFailure "GraphAccessDeniedError"
                     "Graph 'research-mode' requires tier 3 or higher (user has tier 4)")
       else Ok graphId)
    (fun _ => Ok None)
    (fun _ _ => Ok tt)
    (fun _ _ => Ok JNull)
    (fun _ => Ok "answer")
    (fun _ => Ok (JArr []))
    (fun _ => Ok tt)
    (fun _ => None).

Definition busyOptions : InvokeOptions :=
  mkOptions (Some "u1") None (Some "conv_1") (Some "req_1") None true.

Lemma already_in_progress_changes_nothing_witness :
  forallb (fun e => negb (persistsOrDispatches e))
    [FindUser "u1"; GetGraph "research-mode" "u1"; GetGraph "red-assistant" "u1";
     StartGeneration "conv_1";
     LoggerLog "warn" "Generation already in progress for conversation"] = true
  /\ exists reads conversationId,
       [FindUser "u1"; GetGraph "research-mode" "u1"; GetGraph "red-assistant" "u1";
        StartGeneration "conv_1";
        LoggerLog "warn" "Generation already in progress for conversation"]
       = (reads ++ [StartGeneration conversationId;
                    LoggerLog "warn" "Generation already in progress for conversation"])%list
       /\ forallb onlyReads reads = true
       /\ (startGeneration busyRed conversationId = Ok None
           \/ startGeneration busyRed conversationId = Ok (Some "")).
Proof.
  apply (already_in_progress_changes_nothing busyRed "hi" busyOptions).
  reflexivity.
Defined.

(** The guard does fire: with a user id, a graph that loads and a
    lifecycle start that yields no id, [respond] fails with the
    already-in-progress error. *)
Lemma busy_conversation_is_refused
  (red : Red) (message userId : string) (options : InvokeOptions)
  (compiled : string) (reads : list Effect) :
  opt_userId options = Some userId -> userId <> "" ->
  (forall graphId, loadGraph red graphId userId = (Ok compiled, reads)) ->
  (forall conversationId, startGeneration red conversationId = Ok None) ->
  (forall level text, loggerLog red level text = Ok tt) ->
  fst (respondAndStart red message options) = Throw AlreadyInProgress.
Proof.
  intros Hu Hne Hg Hs Hl. unfold respondAndStart, respond. rewrite Hu.
  destruct userId; [congruence|]. cbn [Str.is_empty].
  destruct (loadSettings_reads red (String a userId)) as [settings ->].
  unfold bind at 1. rewrite Hg. unfold bind at 1. unfold call at 1. rewrite Hs.
  unfold bind at 1. unfold call. rewrite Hl. reflexivity.
Qed.

End RespondFacts.

(** ** Reading a dotted path *)

Module NestedPath.
Import Js.

(** The value the template renderer reads at [path]. *)
Definition read (obj : JsValue) (path : string) : JsValue :=
  TemplateRenderer.getNestedProperty obj path.

(** Reading along [parts] from [current], as the renderer's reduction
    does. *)
Definition readParts (parts : list string) (current : JsValue) : JsValue :=
  fold_left
    (fun current key =>
       match current with
       | JNull | JUndefined => JUndefined
       | _ => getProp current key
       end)
    parts current.

End NestedPath.

(** ** The helpers of the template renderer *)

Module TemplateVariablesFacts.
Import Js Str StrFacts HostValues TemplateRenderer TemplateVariables DataHost.

(** The warning logged for a [path] without a value. *)
Definition notFound (path : string) : string :=
  "[TemplateRenderer] Variable not found: state." ++ path.

Lemma matches_paths (s : string) (skip : nat) :
  Forall (fun path => is_path path = true) (matches s skip).
Proof.
  revert skip. induction s as [|c s IH]; intros skip; [constructor|].
  cbn [matches]. destruct skip as [|k]; [|apply IH].
  destruct (matchPlaceholder (String c s)) as [[path len]|] eqn:E; [|apply IH].
  constructor; [|apply IH].
  now apply TemplateRendererFacts.matchPlaceholder_spec in E as (Hp & _).
Qed.

Lemma scan_without_variables (state : JsValue) (s : string) :
  hasTemplateVariables s = false -> scan state s 0 = (s, []).
Proof.
  induction s as [|c s IH]; [reflexivity|].
  cbn [hasTemplateVariables scan].
  destruct (matchPlaceholder (String c s)) as [[path len]|]; [discriminate|].
  intros H. now rewrite (IH H).
Qed.


(** A template in which no placeholder occurs is rendered to itself,
    without a warning, whatever the state. *)
Theorem template_without_variables_is_unchanged (template : string) (state : JsValue) :
  hasTemplateVariables template = false ->
  renderTemplate template state = (template, []).
Proof. apply scan_without_variables. Qed.

Lemma template_without_variables_is_unchanged_witness :
  renderTemplate "Hello {{ state.user }} and {{item.url}}"
    (JObj [("user", JStr "Ada")])
  = ("Hello {{ state.user }} and {{item.url}}", []).
Proof.
  apply (template_without_variables_is_unchanged
           "Hello {{ state.user }} and {{item.url}}"
           (JObj [("user", JStr "Ada")])).
  reflexivity.
Defined.

Section Hosted.
Context {V X : Type} (E : Engine V X).

(** The host reads [undefined] at [path]. *)
Definition readsUndefined (state : V) (path : string) : bool :=
  match Rendering.getNestedProperty E state path with
  | Ok value => isUndefined E value
  | Throw _ => false
  end.

(** [path] resolves neither in the state nor, when it does not itself
    begin with [data.], under [data]. *)
Definition unresolved (state : V) (path : string) : bool :=
  readsUndefined state path
  && (startsWith "data." path || readsUndefined state ("data." ++ path)).

Lemma hosted_substitute_warnings (state : V) (path : string) :
  snd (Rendering.substitute E state path)
  = if unresolved state path then [notFound path] else [].
Proof.
  unfold Rendering.substitute, unresolved, readsUndefined, notFound.
  destruct (Rendering.getNestedProperty E state path) as [value|x]; [|reflexivity].
  destruct (isUndefined E value); cbn [negb andb].
  - destruct (startsWith "data." path); cbn [negb orb]; [reflexivity|].
    destruct (Rendering.getNestedProperty E state ("data." ++ path))
      as [dataValue|x]; [|reflexivity].
    destruct (isUndefined E dataValue); reflexivity.
  - destruct (typeofObject E value && negb (isNull E value)); reflexivity.
Qed.

Lemma hosted_scan_warnings (state : V) (s : string) (skip : nat) (out : string) :
  fst (Rendering.scan E state s skip) = Ok out ->
  snd (Rendering.scan E state s skip)
  = flat_map (fun path => snd (Rendering.substitute E state path)) (matches s skip).
Proof.
  revert skip out. induction s as [|c s IH]; intros skip out; [reflexivity|].
  cbn [Rendering.scan matches]. destruct skip as [|k]; [|apply IH].
  destruct (matchPlaceholder (String c s)) as [[path len]|].
  - unfold Rendering.andThen, Rendering.before. cbn [flat_map].
    destruct (Rendering.substitute E state path) as [[text|x] w1]; cbn [fst snd];
      [|discriminate].
    destruct (fst (Rendering.scan E state s (len - 1))) as [o|x] eqn:Ho;
      [|discriminate].
    intros _. now rewrite (IH _ _ Ho).
  - unfold Rendering.before. cbn [fst snd].
    destruct (fst (Rendering.scan E state s 0)) as [o|x] eqn:Ho; [|discriminate].
    intros _. exact (IH _ _ Ho).
Qed.

(** The variables [extractTemplateVariables] reports are the
    placeholders [renderTemplate] replaces: each is a dotted path, there
    is one exactly when [hasTemplateVariables] holds, and, whatever the
    host, the warnings of a rendering that returns are those of the
    reported variables at which the host reads [undefined] both in the
    state and through the [data.] fallback, one for each occurrence and
    in the order of the template. *)
Theorem warnings_follow_the_extracted_variables (template : string) (state : V) :
  Forall (fun path => is_path path = true) (extractTemplateVariables template)
  /\ (hasTemplateVariables template = true <-> extractTemplateVariables template <> [])
  /\ (forall out,
        fst (Rendering.renderTemplate E template state) = Ok out ->
        snd (Rendering.renderTemplate E template state)
        = map notFound (filter (unresolved state) (extractTemplateVariables template))).
Proof.
  unfold extractTemplateVariables, Rendering.renderTemplate.
  split; [apply matches_paths|]. split.
  - induction template as [|c s IH]; cbn [hasTemplateVariables matches].
    + split; [discriminate | congruence].
    + destruct (matchPlaceholder (String c s)) as [[path len]|].
      * split; [discriminate | reflexivity].
      * exact IH.
  - intros out Hout. rewrite (hosted_scan_warnings state template 0 out Hout).
    induction (matches template 0) as [|path l IH]; [reflexivity|].
    cbn [flat_map filter]. rewrite IH, hosted_substitute_warnings.
    destruct (unresolved state path); reflexivity.
Qed.

End Hosted.


(** Over the sample host: of two variables, the second one resolves
    nowhere. *)
Lemma warnings_follow_the_extracted_variables_witness :
  snd (Rendering.renderTemplate dataHost "{{state.user}}: {{state.missing}}"
         (JObj [("user", JStr "Ada")]))
  = ["[TemplateRenderer] Variable not found: state.missing"].
Proof.
  destruct (warnings_follow_the_extracted_variables dataHost
              "{{state.user}}: {{state.missing}}" (JObj [("user", JStr "Ada")]))
    as (_ & _ & Hwarnings).
  rewrite (Hwarnings "Ada: {{state.missing}}" eq_refl). reflexivity.
Defined.








End TemplateVariablesFacts.

(** ** Conditional edges: the condition function against the target map *)

Module EdgesFacts.
Import Js Str StrFacts Compiler ConditionEvaluator ConditionEvaluatorFacts Edges.









(** A conditional edge given by a condition and [to], without
    [targets], never takes [to]: whatever the condition and the state,
    its condition function answers the fallback (as [__fallback__] or
    as the fallback node itself) or [__end__], and never the key
    [true] under which the target map holds [to]. *)
Theorem condition_with_to_never_takes_to (edge : GraphEdgeConfig) (to : string) :
  edge_targets edge = None ->
  present (edge_to edge) = Some to ->
  lookup "true" (targetMap edge) = Some to
  /\ (forall state : JsValue,
        conditionFn edge state = fallbackKeyOrEnd (edge_fallback edge)
        \/ conditionFn edge state = fallbackOrEnd (edge_fallback edge))
  /\ (edge_fallback edge <> Some "true" ->
      forall state : JsValue, conditionFn edge state <> "true").
Proof.
  intros Ht Hto.
  assert (forall state : JsValue,
             conditionFn edge state = fallbackKeyOrEnd (edge_fallback edge)
             \/ conditionFn edge state = fallbackOrEnd (edge_fallback edge)) as Hans.
  { intros state. unfold conditionFn, createConditionFunction. rewrite Ht.
    cbn [orEmpty].
    destruct (is_empty _ || is_empty _); [now right|].
    destruct (negb (isSafeExpression _)); [now right|].
    destruct (evaluateExpression _ state); now left. }
  split; [|split; [exact Hans|]].
  - unfold targetMap. rewrite Ht, Hto.
    destruct (present (edge_fallback edge)); reflexivity.
  - intros Hfb state Htrue.
    destruct (Hans state) as [E|E]; rewrite E in Htrue;
      unfold fallbackKeyOrEnd, fallbackOrEnd in Htrue;
      destruct (edge_fallback edge) as [[|c f]|]; try discriminate.
    cbn [is_empty] in Htrue. congruence.
Qed.

Lemma condition_with_to_never_takes_to_witness :
  lookup "true"
    (targetMap (mkEdge "check" (Some "search") (Some "state.needsSearch") None None))
  = Some "search"
  /\ forall state : JsValue,
       conditionFn (mkEdge "check" (Some "search") (Some "state.needsSearch") None None)
         state = "__end__".
Proof.
  destruct (condition_with_to_never_takes_to
              (mkEdge "check" (Some "search") (Some "state.needsSearch") None None)
              "search" eq_refl eq_refl) as (Hmap & Hans & _).
  split; [exact Hmap|]. intros state. destruct (Hans state) as [E|E]; exact E.
Defined.

End EdgesFacts.

(** ** The expression evaluator: what the patterns mean *)

Module ExpressionFacts.
Import Js Str StrFacts HostValues ConditionEvaluator ConditionEvaluatorFacts
  DataHost.

Definition no_space (s : string) : bool :=
  forallb_str (fun c => negb (Ascii.eqb c " ")) s.

Definition no_ws (s : string) : bool :=
  forallb_str (fun c => negb (is_ws c)) s.

Lemma forallb_str_impl (p q : ascii -> bool) (s : string) :
  (forall c, p c = true -> q c = true) ->
  forallb_str p s = true -> forallb_str q s = true.
Proof.
  intros Hpq. induction s as [|c s IH]; simpl; [reflexivity|].
  intros H. apply andb_prop in H as [Hc Hs]. now rewrite (Hpq c Hc), IH.
Qed.

Lemma forallb_str_append (p : ascii -> bool) (a b : string) :
  forallb_str p (a ++ b) = forallb_str p a && forallb_str p b.
Proof.
  induction a as [|c a IH]; simpl; [reflexivity|].
  now rewrite IH, andb_assoc.
Qed.

Lemma path_char_plain (c : ascii) :
  TemplateRenderer.is_path_char c = true ->
  is_ws c = false /\ Ascii.eqb c " " = false /\ is_line_terminator c = false.
Proof.
  destruct c as [[] [] [] [] [] [] [] []]; vm_compute; intros H;
    try discriminate H; repeat split.
Qed.

Lemma path_no_space (p : string) : is_path p = true -> no_space p = true.
Proof.
  intros H. apply TemplateRendererFacts.is_path_chars in H.
  revert H. apply forallb_str_impl. intros c Hc.
  now destruct (path_char_plain c Hc) as (_ & -> & _).
Qed.

Lemma path_no_ws (p : string) : is_path p = true -> no_ws p = true.
Proof.
  intros H. apply TemplateRendererFacts.is_path_chars in H.
  revert H. apply forallb_str_impl. intros c Hc.
  now destruct (path_char_plain c Hc) as (-> & _).
Qed.

Lemma path_one_line (p : string) :
  is_path p = true ->
  forallb_str (fun c => negb (is_line_terminator c)) p = true.
Proof.
  intros H. apply TemplateRendererFacts.is_path_chars in H.
  revert H. apply forallb_str_impl. intros c Hc.
  now destruct (path_char_plain c Hc) as (_ & _ & ->).
Qed.

Lemma cut_append (l r : string) :
  no_space l = true -> cut " " (l ++ " " ++ r) = Some (l, r).
Proof.
  unfold no_space. induction l as [|c l IH]; intros H; simpl in *; [reflexivity|].
  apply andb_prop in H as [Hc Hl].
  apply negb_true_iff in Hc. now rewrite Hc, (IH Hl).
Qed.

Lemma cut_none (s : string) : no_space s = true -> cut " " s = None.
Proof.
  unfold no_space. induction s as [|c s IH]; simpl; [reflexivity|].
  intros H. apply andb_prop in H as [Hc Hs].
  apply negb_true_iff in Hc. now rewrite Hc, (IH Hs).
Qed.

Lemma trimEnd_no_ws (s : string) : no_ws s = true -> trimEnd s = s.
Proof.
  unfold no_ws. induction s as [|c s IH]; simpl; [reflexivity|].
  intros H. apply andb_prop in H as [Hc Hs].
  apply negb_true_iff in Hc. now rewrite Hc, (IH Hs).
Qed.

Lemma trimEnd_append_fixed (a v : string) :
  v <> "" -> trimEnd v = v -> trimEnd (a ++ v) = a ++ v.
Proof.
  intros Hne Hv. induction a as [|c a IH]; simpl; [exact Hv|].
  rewrite IH. destruct (a ++ v) eqn:E; [|now rewrite andb_false_r].
  destruct a; simpl in E; [contradiction | discriminate].
Qed.

Lemma dot_plus_nonempty (v : string) : is_dot_plus v = true -> v <> "".
Proof. destruct v; [discriminate | discriminate]. Qed.

Lemma cmp_op_no_space (o : string) (op : CmpOp) :
  parse_cmp_op o = Some op -> no_space o = true.
Proof.
  unfold parse_cmp_op.
  repeat match goal with
         | |- context [String.eqb o ?t] =>
             destruct (String.eqb_spec o t) as [->|_]; [reflexivity|]
         end.
  discriminate.
Qed.

Lemma trim_state_prefixed (r : string) :
  r <> "" -> trimEnd r = r -> trim ("state." ++ r) = "state." ++ r.
Proof.
  intros Hne Hr. unfold trim.
  change (trimStart ("state." ++ r)) with ("state." ++ r).
  now apply trimEnd_append_fixed.
Qed.

Lemma path_nonempty (p : string) : is_path p = true -> p <> "".
Proof. intros H ->. discriminate H. Qed.

Section Hosted.
Context {V X : Type} (E : Engine V X).

(** What the evaluator makes of a value read at a path: the value is
    logged with [JSON.stringify], then returned. *)
Definition logged (read : Result X V) : Result (Evaluator.Raised X) V :=
  bindR (Evaluator.host read) (fun value =>
  bindR (Evaluator.host (jsonStringify E value)) (fun _ => Ok value)).

(** What the evaluator makes of a comparison of the value read with
    [rightValue]. *)
Definition compared (op : CmpOp) (read : Result X V) (rightValue : V)
  : Result (Evaluator.Raised X) V :=
  bindR (Evaluator.host read) (fun leftValue =>
  bindR (Evaluator.host (Evaluator.compare E op leftValue rightValue)) (fun b =>
  Ok (booleanValue E b))).

Lemma hosted_state_path_evaluates (expr p : string) (state : V) :
  is_path p = true ->
  Evaluator.evaluatePatterns E expr ("state." ++ p) state
  = logged (Evaluator.getNestedProperty E state p).
Proof.
  intros Hp.
  assert (cut " " ("state." ++ p) = None) as Hc.
  { apply cut_none. pose proof (path_no_space p Hp) as Hn.
    unfold no_space in *. now rewrite forallb_str_append, Hn. }
  unfold Evaluator.evaluatePatterns, match_comparison, match_logical, match_complex.
  now rewrite Hc, (match_state_path_prefixed p Hp).
Qed.

(** A bare dotted path is read as the same path under [state.]:
    whatever the host, both spellings evaluate alike, to the value the
    host reads at the path once it has been logged, or to what the
    host raises while it reads or logs. *)
Theorem bare_path_reads_the_state (p : string) (state : V) :
  is_path p = true ->
  startsWith "state." p = false ->
  Evaluator.evaluateExpression E p state
  = Evaluator.evaluateExpression E ("state." ++ p) state
  /\ Evaluator.evaluateExpression E ("state." ++ p) state
     = logged (Evaluator.getNestedProperty E state p).
Proof.
  intros Hp Hs.
  pose proof (trimEnd_no_ws p (path_no_ws p Hp)) as Hte.
  assert (Evaluator.evaluateExpression E ("state." ++ p) state
          = logged (Evaluator.getNestedProperty E state p)) as Hprefixed.
  { unfold Evaluator.evaluateExpression, autoPrefix.
    rewrite (trim_state_prefixed p (path_nonempty p Hp) Hte).
    rewrite (startsWith_append "state." p). cbn [negb andb].
    now apply hosted_state_path_evaluates. }
  split; [|exact Hprefixed].
  rewrite Hprefixed.
  unfold Evaluator.evaluateExpression, autoPrefix, trim.
  assert (trimStart p = p) as ->.
  { pose proof (path_no_ws p Hp) as Hw. destruct p as [|c p]; [reflexivity|].
    unfold no_ws in Hw. simpl in *. apply andb_prop in Hw as [Hc _].
    apply negb_true_iff in Hc. now rewrite Hc. }
  rewrite Hte, Hs, Hp. cbn [negb andb]. now apply hosted_state_path_evaluates.
Qed.

Lemma hosted_comparison_evaluates (p o v : string) (op : CmpOp) (state : V) :
  is_path p = true -> parse_cmp_op o = Some op ->
  is_dot_plus v = true -> trimEnd v = v ->
  Evaluator.evaluateExpression E ("state." ++ p ++ " " ++ o ++ " " ++ v) state
  = compared op (Evaluator.getNestedProperty E state p) (Evaluator.parseValue E v).
Proof.
  intros Hp Ho Hv Ht.
  unfold Evaluator.evaluateExpression, autoPrefix.
  assert (trimEnd (p ++ " " ++ o ++ " " ++ v) = p ++ " " ++ o ++ " " ++ v) as Hte.
  { replace (p ++ " " ++ o ++ " " ++ v) with ((p ++ " " ++ o ++ " ") ++ v)
      by (now rewrite !append_assoc).
    apply trimEnd_append_fixed; [now apply dot_plus_nonempty | exact Ht]. }
  rewrite trim_state_prefixed; [|destruct p; discriminate | exact Hte].
  rewrite (startsWith_append "state." (p ++ " " ++ o ++ " " ++ v)).
  cbn [negb andb].
  unfold Evaluator.evaluatePatterns, match_comparison.
  replace ("state." ++ p ++ " " ++ o ++ " " ++ v)
    with (("state." ++ p) ++ " " ++ o ++ " " ++ v) by (now rewrite append_assoc).
  rewrite cut_append.
  - rewrite (match_state_path_prefixed p Hp).
    rewrite (cut_append o v (cmp_op_no_space o op Ho)), Ho, Hv. reflexivity.
  - pose proof (path_no_space p Hp) as Hn.
    unfold no_space in *. now rewrite forallb_str_append, Hn.
Qed.

Lemma hosted_state_path_is_a_literal (q : string) :
  is_path q = true ->
  Evaluator.parseValue E ("state." ++ q) = stringValue E ("state." ++ q).
Proof.
  intros Hq. unfold Evaluator.parseValue.
  rewrite (trim_state_prefixed q (path_nonempty q Hq)
             (trimEnd_no_ws q (path_no_ws q Hq))).
  reflexivity.
Qed.

(** A comparison compares the value read at the left path with a
    literal.  The text after the operator is parsed, never looked up:
    a state path written on the right is compared as the string it is
    spelt with, whatever the host. *)
Theorem comparison_reads_right_side_as_literal
  (p o : string) (op : CmpOp) (state : V) :
  is_path p = true ->
  parse_cmp_op o = Some op ->
  (forall v,
      is_dot_plus v = true -> trimEnd v = v ->
      Evaluator.evaluateExpression E ("state." ++ p ++ " " ++ o ++ " " ++ v) state
      = compared op (Evaluator.getNestedProperty E state p) (Evaluator.parseValue E v))
  /\ (forall q,
        is_path q = true ->
        Evaluator.parseValue E ("state." ++ q) = stringValue E ("state." ++ q)
        /\ Evaluator.evaluateExpression E
             ("state." ++ p ++ " " ++ o ++ " " ++ "state." ++ q) state
           = compared op (Evaluator.getNestedProperty E state p)
               (stringValue E ("state." ++ q))).
Proof.
  intros Hp Ho. split.
  - intros v Hv Ht. now apply hosted_comparison_evaluates.
  - intros q Hq. split; [now apply hosted_state_path_is_a_literal|].
    rewrite <- (hosted_state_path_is_a_literal q Hq).
    apply hosted_comparison_evaluates; auto.
    + unfold is_dot_plus. cbn [append is_empty negb andb forallb_str].
      rewrite (path_one_line q Hq). reflexivity.
    + apply trimEnd_append_fixed;
        [now apply path_nonempty | now apply trimEnd_no_ws, path_no_ws].
Qed.

End Hosted.

Lemma bare_path_reads_the_state_witness :
  Evaluator.evaluateExpression dataHost "data.routeDecision"
    (JObj [("data", JObj [("routeDecision", JStr "plan")])])
  = Evaluator.evaluateExpression dataHost "state.data.routeDecision"
      (JObj [("data", JObj [("routeDecision", JStr "plan")])])
  /\ Evaluator.evaluateExpression dataHost "state.data.routeDecision"
       (JObj [("data", JObj [("routeDecision", JStr "plan")])])
     = Ok (JStr "plan").
Proof.
  apply (bare_path_reads_the_state dataHost "data.routeDecision"
           (JObj [("data", JObj [("routeDecision", JStr "plan")])]));
    reflexivity.
Defined.

Lemma comparison_reads_right_side_as_literal_witness :
  Evaluator.evaluateExpression dataHost "state.count < state.limit"
    (JObj [("count", JNum (num_of_Z 1)); ("limit", JNum (num_of_Z 5))])
  = Ok (JBool false)
  /\ Evaluator.evaluateExpression dataHost "state.count < 5"
       (JObj [("count", JNum (num_of_Z 1)); ("limit", JNum (num_of_Z 5))])
     = Ok (JBool true).
Proof.
  destruct (comparison_reads_right_side_as_literal dataHost "count" "<" OpLt
              (JObj [("count", JNum (num_of_Z 1)); ("limit", JNum (num_of_Z 5))])
              eq_refl eq_refl) as [Hv Hq].
  split.
  - exact (proj2 (Hq "limit" eq_refl)).
  - exact (Hv "5" eq_refl eq_refl).
Defined.


End ExpressionFacts.

(** ** Dotted keys: what the universal node writes is what a template
       reads *)

Module FlatUpdatesFacts.
Import Js Str StrFacts StepExecutor UniversalNode UniversalNodeFacts NestedPath.

Lemma lookup_insertKey_same {A : Type} (k : string) (v : A) (l : list (string * A)) :
  lookup k l = None -> lookup k (insertKey k v l) = Some v.
Proof.
  induction l as [|[k' v'] l IH]; intros Hnone; cbn [insertKey lookup].
  - now rewrite String.eqb_refl.
  - cbn [lookup] in Hnone.
    destruct (String.eqb_spec k' k) as [->|Hne]; [discriminate|].
    destruct (index_of_key k) as [n|]; [destruct (index_of_key k') as [n'|]|];
      try destruct (n <? n')%Z; cbn [lookup];
      rewrite ?String.eqb_refl; try reflexivity;
      destruct (String.eqb_spec k' k); try contradiction; now apply IH.
Qed.

Lemma lookup_put_same {A : Type} (k : string) (v : A) (l : list (string * A)) :
  lookup k (put k v l) = Some v.
Proof.
  unfold put, hasOwn. destruct (lookup k l) eqn:E.
  - apply lookup_set_same.
  - now apply lookup_insertKey_same.
Qed.

Lemma getProp_put_same (k : string) (v : JsValue) (fields : Fields) :
  getProp (JObj (put k v fields)) k = v.
Proof. cbn [getProp]. now rewrite lookup_put_same. Qed.

Lemma writeLast_read (key : string) (value : JsValue) (current updated : Fields) :
  writeLast key value current = Nested updated ->
  getProp (JObj updated) key = value.
Proof.
  unfold writeLast.
  destruct (String.eqb key "__proto__" && negb (hasOwn key current)); [discriminate|].
  intros [= <-]. apply getProp_put_same.
Qed.

Lemma setPath_through (part next : string) (rest : list string)
  (value : JsValue) (current : Fields) :
  setPath (part :: next :: rest) value current
  = match lookup part current with
    | None =>
        if mem part OBJECT_PROTOTYPE then NestingLeavesData
        else match setPath (next :: rest) value [] with
             | Nested sub => Nested (put part (JObj sub) current)
             | other => other
             end
    | Some (JObj inner) =>
        match setPath (next :: rest) value inner with
        | Nested sub => Nested (put part (JObj sub) current)
        | other => other
        end
    | Some (JArr _) => NestingLeavesData
    | Some _ => NestingTypeError
    end.
Proof. reflexivity. Qed.

Lemma setPath_read (parts : list string) (value : JsValue) (current updated : Fields) :
  parts <> [] ->
  setPath parts value current = Nested updated ->
  readParts parts (JObj updated) = value.
Proof.
  revert current updated.
  induction parts as [|part rest IH]; intros current updated Hne H; [congruence|].
  destruct rest as [|next rest].
  - cbn [setPath] in H. unfold readParts. cbn [fold_left].
    now apply (writeLast_read part value current).
  - assert (exists inner sub,
               setPath (next :: rest) value inner = Nested sub
               /\ updated = put part (JObj sub) current) as (inner & sub & Hs & ->).
    { rewrite setPath_through in H.
      destruct (lookup part current) as [[| | | | | |fields]|];
        cbv beta iota in H; try discriminate.
      - destruct (setPath (next :: rest) value fields) as [sub| |] eqn:E;
          try discriminate. injection H as <-. eauto.
      - destruct (mem part OBJECT_PROTOTYPE); [discriminate|].
        destruct (setPath (next :: rest) value []) as [sub| |] eqn:E;
          try discriminate. injection H as <-. eauto. }
    unfold readParts. cbn [fold_left]. rewrite getProp_put_same.
    apply (IH inner sub); [discriminate | exact Hs].
Qed.

Lemma convertEntries_app (a b : Fields) (nested result : Fields) :
  convertEntries (a ++ b)%list nested = Nested result ->
  exists mid, convertEntries a nested = Nested mid
              /\ convertEntries b mid = Nested result.
Proof.
  revert nested. induction a as [|[key value] a IH]; intros nested H.
  - exists nested. split; [reflexivity | exact H].
  - cbn [app convertEntries] in *.
    destruct (if negb (includes "." key) then writeLast key value nested
              else setPath (split "." key) value nested) as [nested'| |];
      try discriminate.
    now apply IH.
Qed.

Lemma split_without_separator (key : string) :
  includes "." key = false -> split "." key = [key].
Proof.
  induction key as [|c key IH]; [reflexivity|].
  cbn [includes split startsWith].
  destruct (Ascii.eqb "." c) eqn:E.
  - cbn [andb]. discriminate.
  - cbn [andb]. intros H. rewrite Ascii.eqb_sym, E, (IH H). reflexivity.
Qed.

(** When [convertFlatToNested] returns a nested object, having walked
    through own properties that are plain objects only, the value the
    last update holds under its key, dotted or not, is the value a
    template reads at that path in the nested object: the conversion
    and the renderer's [getNestedProperty] agree on what a dotted key
    means.  Every property on the way is an own property of the nested
    object, the one just written. *)
Theorem last_update_is_read_back
  (flat nested : Fields) (key : string) (value : JsValue) :
  convertFlatToNested (flat ++ [(key, value)])%list = Nested nested ->
  read (JObj nested) key = value.
Proof.
  unfold convertFlatToNested. intros H.
  apply convertEntries_app in H as (mid & _ & H).
  cbn [convertEntries] in H. unfold read, TemplateRenderer.getNestedProperty.
  destruct (includes "." key) eqn:E; cbn [negb] in H.
  - destruct (setPath (split "." key) value mid) as [nested'| |] eqn:Es;
      try discriminate.
    injection H as <-.
    apply (setPath_read _ _ mid nested');
      [apply TemplateRendererFacts.split_nonempty | exact Es].
  - destruct (writeLast key value mid) as [nested'| |] eqn:Ew; try discriminate.
    injection H as <-. rewrite (split_without_separator key E).
    cbn [fold_left]. now apply (writeLast_read key value mid).
Qed.

Lemma last_update_is_read_back_witness :
  read (JObj [("nodeCounter", JNum (num_of_Z 2));
              ("data", JObj [("hasPlan", JBool true);
                             ("executionPlan", JObj [("steps", JArr [])])])])
    "data.executionPlan.steps" = JArr [].
Proof.
  apply (last_update_is_read_back
           [("nodeCounter", JNum (num_of_Z 2)); ("data.hasPlan", JBool true)]
           [("nodeCounter", JNum (num_of_Z 2));
            ("data", JObj [("hasPlan", JBool true);
                           ("executionPlan", JObj [("steps", JArr [])])])]
           "data.executionPlan.steps" (JArr [])).
  reflexivity.
Defined.

(** Where the conversion does not return a nested object: a key that
    leads through a text raises a [TypeError], and a key whose first
    part is a name every object inherits leaves plain data. *)
Example conversion_outside_plain_objects :
  convertFlatToNested [("name", JStr "Ada"); ("name.first", JStr "A")]
  = NestingTypeError
  /\ convertFlatToNested [("toString.x", JNum (num_of_Z 1))] = NestingLeavesData
  /\ convertFlatToNested [("items", JArr []); ("items.0", JStr "a")]
     = NestingLeavesData.
Proof. repeat split. Qed.

End FlatUpdatesFacts.

(** ** The reducer of the [data] channel *)

Module GraphStateFacts.
Import Js UniversalNode UniversalNodeFacts GraphState.









End GraphStateFacts.

(** ** The state a step runs on *)

Module StepStateFacts.
Import Js StepExecutor UniversalNode UniversalNodeFacts NestedPath.











End StepStateFacts.

(** ** Retries and error strategies *)

Module ErrorHandlerFacts.
Import Js ErrorHandler.

Definition isRun (e : Event) : bool :=
  match e with Run _ => true | Wait _ => false end.

(** How often the operation was run. *)
Definition runs (events : list Event) : nat := List.length (filter isRun events).

(** The events of [k] failed runs from [attempt] on, each followed by
    a wait, and of one more run. *)
Definition retried (delay : Z) (attempt k : nat) : list Event :=
  (flat_map (fun i => [Run i; Wait delay]) (seq attempt k) ++ [Run (attempt + k)])%list.

Definition retriesOf (config : ErrorHandlingConfig) : Z :=
  match retry config with Some r => r | None => 0%Z end.

Definition delayOf (config : ErrorHandlingConfig) : Z :=
  match retryDelay config with Some d => d | None => 1000%Z end.

Lemma attempts_bounded (operation : nat -> Result string JsValue) (delay : Z)
  (remaining attempt : nat) :
  (runs (snd (attempts operation delay remaining attempt)) <= S remaining)%nat.
Proof.
  revert attempt. induction remaining as [|remaining IH]; intros attempt;
    cbn [attempts]; destruct (operation attempt) as [result|message];
    try (cbn; lia).
  specialize (IH (S attempt)).
  destruct (attempts operation delay remaining (S attempt)) as [outcome events].
  unfold runs in *. cbn in *. lia.
Qed.

Lemma attempts_until (operation : nat -> Result string JsValue) (delay : Z)
  (k : nat) (outcome : Result string JsValue) :
  forall remaining attempt,
    (forall i, (i < k)%nat -> exists message, operation (attempt + i)%nat = Throw message) ->
    operation (attempt + k)%nat = outcome ->
    (match outcome with Ok _ => (k <= remaining)%nat | Throw _ => k = remaining end) ->
    attempts operation delay remaining attempt = (outcome, retried delay attempt k).
Proof.
  induction k as [|k IH]; intros remaining attempt Hfail Hk Hle.
  - rewrite Nat.add_0_r in Hk. unfold retried. cbn [seq flat_map app].
    rewrite Nat.add_0_r.
    destruct remaining as [|remaining]; cbn [attempts]; rewrite Hk;
      destruct outcome; try reflexivity; discriminate.
  - destruct (Hfail 0%nat ltac:(lia)) as [message H0].
    rewrite Nat.add_0_r in H0.
    destruct remaining as [|remaining];
      [destruct outcome; lia|].
    cbn [attempts]. rewrite H0.
    rewrite (IH remaining (S attempt)).
    + unfold retried. cbn [seq flat_map app].
      replace (S attempt + k)%nat with (attempt + S k)%nat by lia. reflexivity.
    + intros i Hi. replace (S attempt + i)%nat with (attempt + S i)%nat by lia.
      apply Hfail. lia.
    + replace (S attempt + k)%nat with (attempt + S k)%nat by lia. exact Hk.
    + destruct outcome; lia.
Qed.

Lemma runs_retried (delay : Z) (attempt k : nat) : runs (retried delay attempt k) = S k.
Proof.
  unfold runs, retried. revert attempt.
  induction k as [|k IH]; intros attempt; [reflexivity|].
  cbn [seq flat_map app filter isRun List.length].
  specialize (IH (S attempt)).
  replace (attempt + S k)%nat with (S attempt + k)%nat by lia.
  now rewrite IH.
Qed.

(** The operation is run until it first succeeds, and never more than
    [retry + 1] times (not at all for a negative [retry]): when the
    runs before the [k]-th fail and the [k]-th succeeds within the
    retries, its result is returned after exactly [k] waits of
    [retryDelay], whatever the error strategy. *)
Theorem operation_runs_until_first_success
  (operation : nat -> Result string JsValue) (config : ErrorHandlingConfig) :
  (runs (snd (executeWithErrorHandling operation config))
   <= Z.to_nat (retriesOf config + 1))%nat
  /\ (forall (k : nat) (result : JsValue),
        (Z.of_nat k <= retriesOf config)%Z ->
        (forall i, (i < k)%nat -> exists message, operation i = Throw message) ->
        operation k = Ok result ->
        executeWithErrorHandling operation config
        = (Ok result, retried (delayOf config) 0 k)).
Proof.
  unfold executeWithErrorHandling, retriesOf, delayOf.
  set (retries := match retry config with Some r => r | None => 0%Z end).
  set (delay := match retryDelay config with Some d => d | None => 1000%Z end).
  split.
  - destruct (Z.ltb_spec retries 0); [cbn; lia|].
    pose proof (attempts_bounded operation delay (Z.to_nat retries) 0) as Hb.
    destruct (attempts operation delay (Z.to_nat retries) 0) as [[result|message] events];
      cbn [snd] in *; lia.
  - intros k result Hk Hfail Hok.
    destruct (Z.ltb_spec retries 0); [lia|].
    rewrite (attempts_until operation delay k (Ok result) (Z.to_nat retries) 0);
      [reflexivity | exact Hfail | exact Hok | lia].
Qed.

Lemma operation_runs_until_first_success_witness :
  executeWithErrorHandling
    (fun n => if (n <? 2)%nat then Throw "timeout" else Ok (JStr "done"))
    (mkErrorHandling (Some 3%Z) (Some 500%Z) JUndefined None)
  = (Ok (JStr "done"), [Run 0; Wait 500; Run 1; Wait 500; Run 2]).
Proof.
  destruct (operation_runs_until_first_success
              (fun n => if (n <? 2)%nat then Throw "timeout" else Ok (JStr "done"))
              (mkErrorHandling (Some 3%Z) (Some 500%Z) JUndefined None))
    as [_ H].
  apply (H 2%nat (JStr "done")).
  - cbn. lia.
  - intros i Hi. exists "timeout".
    destruct i as [|[|i]]; [reflexivity | reflexivity | lia].
  - reflexivity.
Defined.

(** When every run within the retries fails, the operation has been
    run [retry + 1] times and the strategy decides: [skip] returns
    [undefined]; [fallback] returns the fallback value, but raises a
    [TypeError] when that value is [undefined]; and [throw], an unknown
    strategy or none rethrow the error of the last run. *)
Theorem exhausted_retries_follow_the_strategy
  (operation : nat -> Result string JsValue) (config : ErrorHandlingConfig)
  (last : string) :
  (0 <= retriesOf config)%Z ->
  (forall i, (i < Z.to_nat (retriesOf config))%nat ->
             exists message, operation i = Throw message) ->
  operation (Z.to_nat (retriesOf config)) = Throw last ->
  runs (snd (executeWithErrorHandling operation config))
  = S (Z.to_nat (retriesOf config))
  /\ (onError config = Some "skip" ->
      fst (executeWithErrorHandling operation config) = Ok JUndefined)
  /\ (onError config = Some "fallback" ->
      fst (executeWithErrorHandling operation config)
      = match fallbackValue config with
        | JUndefined => Throw ThrownTypeError
        | value => Ok value
        end)
  /\ ((forall strategy, onError config = Some strategy ->
                        strategy <> "skip" /\ strategy <> "fallback") ->
      fst (executeWithErrorHandling operation config) = Throw (LastError last)).
Proof.
  unfold executeWithErrorHandling, retriesOf.
  set (retries := match retry config with Some r => r | None => 0%Z end).
  set (delay := match retryDelay config with Some d => d | None => 1000%Z end).
  intros Hr Hfail Hlast.
  destruct (Z.ltb_spec retries 0); [lia|].
  rewrite (attempts_until operation delay (Z.to_nat retries) (Throw last)
             (Z.to_nat retries) 0 Hfail Hlast eq_refl).
  cbn [fst snd]. split; [apply runs_retried|].
  unfold applyStrategy. split; [|split].
  - intros ->. reflexivity.
  - intros ->. cbn. destruct (fallbackValue config); reflexivity.
  - intros Hs. destruct (onError config) as [strategy|]; [|reflexivity].
    destruct (Hs strategy eq_refl) as [H1 H2].
    apply String.eqb_neq in H1, H2. now rewrite H1, H2.
Qed.

Lemma exhausted_retries_follow_the_strategy_witness :
  runs (snd (executeWithErrorHandling (fun _ => Throw "down")
               (mkErrorHandling (Some 1%Z) None JUndefined (Some "fallback"))))
  = 2%nat
  /\ fst (executeWithErrorHandling (fun _ => Throw "down")
            (mkErrorHandling (Some 1%Z) None JUndefined (Some "fallback")))
     = Throw ThrownTypeError.
Proof.
  destruct (exhausted_retries_follow_the_strategy (fun _ => Throw "down")
              (mkErrorHandling (Some 1%Z) None JUndefined (Some "fallback")) "down")
    as (Hruns & _ & Hfb & _).
  - cbn. lia.
  - intros i _. now exists "down".
  - reflexivity.
  - split; [exact Hruns | exact (Hfb eq_refl)].
Defined.

End ErrorHandlerFacts.

(** ** The tool pool: errors and listings *)

Module StdioPoolToolsFacts.
Import Js Str StrFacts StdioPool StdioPoolTools.

Lemma callTool_cons (client : Child) (rest : list Child) (toolName : string)
  (args : JsValue) (meta : option JsValue) :
  fst (callTool (client :: rest) toolName args meta)
  = match child_tools client with
    | Ok tools =>
        if mem toolName tools then
          match child_answer client (mkParams toolName args None) with
          | Ok result => Ok result
          | Throw _ => fst (callTool rest toolName args meta)
          end
        else fst (callTool rest toolName args meta)
    | Throw _ => fst (callTool rest toolName args meta)
    end.
Proof.
  cbn [callTool listTools clientCallTool].
  destruct (callTool rest toolName args meta) as [r sent3].
  destruct (child_tools client) as [tools|e]; [|reflexivity].
  destruct (mem toolName tools); [|reflexivity].
  destruct (child_answer client (mkParams toolName args None)); reflexivity.
Qed.

(** The pool reports one error only.  Whatever a child raises, on
    listing or on the call itself, is logged and passed over, so a
    failed call reaches the caller as [Tool not found]; a call that
    succeeds was answered by a child that [getAllTools] lists the tool
    for; and a tool no listing holds is not found. *)
Theorem pool_reports_only_not_found
  (clients : list Child) (toolName : string) (args : JsValue) (meta : option JsValue) :
  (forall message,
      fst (callTool clients toolName args meta) = Throw message ->
      message = "Tool not found: " ++ toolName)
  /\ (forall result,
        fst (callTool clients toolName args meta) = Ok result ->
        exists client tools,
          In client clients
          /\ In (child_server client, tools) (fst (getAllTools clients))
          /\ In toolName tools
          /\ child_answer client (mkParams toolName args None) = Ok result)
  /\ ((forall server tools,
          In (server, tools) (fst (getAllTools clients)) -> ~ In toolName tools) ->
      fst (callTool clients toolName args meta)
      = Throw ("Tool not found: " ++ toolName)).
Proof.
  assert (forall result,
             fst (callTool clients toolName args meta) = Ok result ->
             exists client tools,
               In client clients
               /\ In (child_server client, tools) (fst (getAllTools clients))
               /\ In toolName tools
               /\ child_answer client (mkParams toolName args None) = Ok result) as Hok.
  { induction clients as [|client rest IH]; intros result H; [discriminate H|].
    rewrite callTool_cons in H.
    assert (fst (callTool rest toolName args meta) = Ok result ->
            exists client0 tools,
              In client0 (client :: rest)
              /\ In (child_server client0, tools) (fst (getAllTools (client :: rest)))
              /\ In toolName tools
              /\ child_answer client0 (mkParams toolName args None) = Ok result) as Hrest.
    { intros H'. destruct (IH result H') as (c & tools & Hin & Hl & Ht & Ha).
      exists c, tools. repeat split; auto; now right. }
    destruct (child_tools client) as [tools|e] eqn:Et; [|auto].
    destruct (mem toolName tools) eqn:Em; [|auto].
    destruct (child_answer client (mkParams toolName args None)) as [r|e] eqn:Ea;
      [|auto].
    injection H as <-. exists client, tools.
    split; [now left|]. split; [|split; [now apply mem_In | exact Ea]].
    left. cbn. now rewrite Et. }
  assert (forall message,
             fst (callTool clients toolName args meta) = Throw message ->
             message = "Tool not found: " ++ toolName) as Hthrow.
  { clear Hok. induction clients as [|client rest IH]; intros message H.
    - now injection H as <-.
    - rewrite callTool_cons in H.
      destruct (child_tools client) as [tools|e]; [|auto].
      destruct (mem toolName tools); [|auto].
      destruct (child_answer client (mkParams toolName args None)); [discriminate|auto]. }
  split; [exact Hthrow|]. split; [exact Hok|].
  intros Hnone.
  destruct (fst (callTool clients toolName args meta)) as [result|message] eqn:E.
  - destruct (Hok result eq_refl) as (c & tools & _ & Hl & Ht & _).
    now destruct (Hnone _ _ Hl).
  - now rewrite (Hthrow message eq_refl).
Qed.

(** A child that lists the tool and fails it: the pool's caller is
    told the tool was not found. *)
Example failing_tool_is_reported_as_not_found :
  callTool [mkChild "web" (Ok ["web_search"]) (fun _ => Throw "rate limited")]
    "web_search" (JObj []) None
  = (Throw "Tool not found: web_search",
     [("web", ToolsList);
      ("web", ToolsCall (mkParams "web_search" (JObj []) None))]).
Proof. reflexivity. Qed.

End StdioPoolToolsFacts.

(** ** Tool calls of the [Red] instance: stdio first, then the registry *)

Module RedToolsFacts.
Import Js Str StrFacts StdioPool RedTools UniversalNodeFacts.

Definition isHttp (e : Event) : bool :=
  match e with Http _ _ _ => true | _ => false end.

Definition isStdioCall (e : Event) : bool :=
  match e with Stdio (_, ToolsCall _) => true | _ => false end.

(** The metadata the registry is called with. *)
Definition metaOf (context : option JsValue) : JsValue :=
  JObj [("conversationId", contextField context "conversationId");
        ("generationId", contextField context "generationId");
        ("messageId", contextField context "messageId")].

Lemma filter_isHttp_stdio (sent : list Sent) : filter isHttp (map Stdio sent) = [].
Proof. induction sent as [|s sent IH]; [reflexivity | exact IH]. Qed.

Lemma logOutcome_quiet (t : Transports) (toolName protocol : string) (result : JsValue) :
  filter isHttp (snd (logOutcome t toolName protocol result)) = [].
Proof.
  unfold logOutcome. destruct (isError result) as [failed|e]; [|reflexivity].
  destruct (loggerLog t _); reflexivity.
Qed.

Lemma logOutcome_logged (t : Transports) (toolName protocol : string) (result : JsValue) :
  (forall entry, loggerLog t entry = Ok tt) ->
  fst (logOutcome t toolName protocol result)
  = match isError result with Ok _ => Ok result | Throw e => Throw e end.
Proof.
  intros Hlog. unfold logOutcome.
  destruct (isError result) as [failed|e]; [|reflexivity]. now rewrite Hlog.
Qed.

(** The registry is called once, with the three fields of the context
    as metadata, and decides alone: its result is returned, its error
    is the one raised. *)
Definition decidedByRegistry (t : Transports) (toolName : string)
  (args : list (string * JsValue)) (context : option JsValue) : Prop :=
  fst (callMcpTool t toolName args context)
  = match registryCallTool t toolName (JObj args) (metaOf context) with
    | Ok result =>
        match isError result with
        | Ok _ => Ok result
        | Throw e => Throw e
        end
    | Throw e => Throw (Rejected e)
    end
  /\ filter isHttp (snd (callMcpTool t toolName args context))
     = [Http toolName (JObj args) (metaOf context)].

Lemma stdio_attempt_fails (t : Transports) (toolName : string)
  (args : list (string * JsValue)) (context : option JsValue) :
  (forall entry, loggerLog t entry = Ok tt) ->
  (forall result,
      fst (callTool (mcpStdioPool t) toolName (JObj args) context) = Ok result ->
      isError result = Throw TypeError) ->
  decidedByRegistry t toolName args context.
Proof.
  intros Hlog Hpool. unfold decidedByRegistry, callMcpTool. rewrite Hlog.
  destruct (callTool (mcpStdioPool t) toolName (JObj args) context) as [answer sent].
  cbn [fst] in Hpool.
  assert (exists events,
             match answer with
             | Ok result => logOutcome t toolName "MCP/stdio" result
             | Throw message => (Throw (Rejected message), [])
             end = (Throw events, [])) as (thrown & ->).
  { destruct answer as [result|message]; [|eauto].
    unfold logOutcome. rewrite (Hpool result eq_refl). eauto. }
  unfold overHttp. fold (metaOf context).
  destruct (registryCallTool t toolName (JObj args) (metaOf context)) as [result|e].
  - pose proof (logOutcome_logged t toolName "MCP/HTTP" result Hlog) as Hfst.
    pose proof (logOutcome_quiet t toolName "MCP/HTTP" result) as Hq.
    destruct (logOutcome t toolName "MCP/HTTP" result) as [[r|err] events];
      cbn [fst snd] in *; rewrite ?Hlog; cbn [fst snd].
    + split; [now rewrite <- Hfst|].
      cbn [filter isHttp app]. rewrite filter_app, filter_isHttp_stdio.
      cbn [app filter isHttp]. now rewrite Hq.
    + split; [now rewrite <- Hfst|].
      cbn [filter isHttp app]. rewrite filter_app, filter_isHttp_stdio.
      cbn [app filter isHttp]. rewrite filter_app, Hq. reflexivity.
  - rewrite Hlog. cbn [fst snd]. split; [reflexivity|].
    cbn [filter isHttp app]. rewrite filter_app, filter_isHttp_stdio. reflexivity.
Qed.

(** With a logger that does not reject: what the stdio pool answers is
    returned without any call over the registry, unless the answer is
    [null] or [undefined]; and when the pool raises, or answers [null]
    or [undefined] (the read of [result.isError] then raises inside the
    [try] of the stdio attempt), the registry is called once, with the
    three fields of the context as metadata, and decides alone: its
    result is returned, its error is the one raised, and nothing of the
    pool's error is left. *)
Theorem registry_is_tried_exactly_when_stdio_fails
  (t : Transports) (toolName : string) (args : list (string * JsValue))
  (context : option JsValue) :
  (forall entry, loggerLog t entry = Ok tt) ->
  (forall result,
      fst (callTool (mcpStdioPool t) toolName (JObj args) context) = Ok result ->
      result <> JNull -> result <> JUndefined ->
      fst (callMcpTool t toolName args context) = Ok result
      /\ filter isHttp (snd (callMcpTool t toolName args context)) = [])
  /\ (forall message,
        fst (callTool (mcpStdioPool t) toolName (JObj args) context) = Throw message ->
        decidedByRegistry t toolName args context)
  /\ (forall result,
        fst (callTool (mcpStdioPool t) toolName (JObj args) context) = Ok result ->
        result = JNull \/ result = JUndefined ->
        decidedByRegistry t toolName args context).
Proof.
  intros Hlog. split; [|split].
  - intros result Hpool Hnull Hundef.
    assert (exists failed, isError result = Ok failed) as [failed Hres].
    { unfold isError. destruct result; try congruence; eauto. }
    unfold callMcpTool. rewrite Hlog.
    destruct (callTool (mcpStdioPool t) toolName (JObj args) context) as [answer sent].
    cbn [fst] in Hpool. subst answer.
    pose proof (logOutcome_logged t toolName "MCP/stdio" result Hlog) as Hfst.
    pose proof (logOutcome_quiet t toolName "MCP/stdio" result) as Hq.
    rewrite Hres in Hfst.
    destruct (logOutcome t toolName "MCP/stdio" result) as [outcome events].
    cbn [fst snd] in *. subst outcome. cbn [fst snd]. split; [reflexivity|].
    cbn [filter isHttp]. now rewrite filter_app, filter_isHttp_stdio, Hq.
  - intros message Hpool. apply stdio_attempt_fails; [exact Hlog|].
    intros result Hres. congruence.
  - intros result Hpool Hnullish. apply stdio_attempt_fails; [exact Hlog|].
    intros result' Hres. assert (result' = result) as -> by congruence.
    destruct Hnullish as [-> | ->]; reflexivity.
Qed.

Definition quietLogger (entry : LogEntry) : Result string unit := Ok tt.

Lemma registry_is_tried_exactly_when_stdio_fails_witness :
  fst (callMcpTool
         (mkTransports
            [mkChild "web" (Ok ["web_search"]) (fun _ => Throw "rate limited")]
            (fun _ _ _ => Throw "no such tool") quietLogger)
         "web_search" [("query", JStr "rocq")]
         (Some (JObj [("conversationId", JStr "c1")])))
  = Throw (Rejected "no such tool")
  /\ filter isHttp
       (snd (callMcpTool
               (mkTransports
                  [mkChild "web" (Ok ["web_search"]) (fun _ => Throw "rate limited")]
                  (fun _ _ _ => Throw "no such tool") quietLogger)
               "web_search" [("query", JStr "rocq")]
               (Some (JObj [("conversationId", JStr "c1")]))))
     = [Http "web_search" (JObj [("query", JStr "rocq")])
          (JObj [("conversationId", JStr "c1"); ("generationId", JUndefined);
                 ("messageId", JUndefined)])].
Proof.
  destruct (registry_is_tried_exactly_when_stdio_fails
              (mkTransports
                 [mkChild "web" (Ok ["web_search"]) (fun _ => Throw "rate limited")]
                 (fun _ _ _ => Throw "no such tool") quietLogger)
              "web_search" [("query", JStr "rocq")]
              (Some (JObj [("conversationId", JStr "c1")]))
              (fun _ => eq_refl)) as (_ & H & _).
  exact (H "Tool not found: web_search" eq_refl).
Defined.

Lemma callTool_made_a_call (clients : list Child) (toolName : string)
  (args result : JsValue) (meta : option JsValue) :
  fst (callTool clients toolName args meta) = Ok result ->
  exists server,
    In (server, ToolsCall (mkParams toolName args None))
       (snd (callTool clients toolName args meta)).
Proof.
  induction clients as [|client rest IH]; [discriminate|].
  cbn [callTool listTools clientCallTool].
  destruct (callTool rest toolName args meta) as [r sent3]. cbn [fst snd] in IH.
  destruct (child_tools client) as [tools|e].
  - destruct (mem toolName tools).
    + destruct (child_answer client (mkParams toolName args None)); cbn [fst snd].
      * intros _. exists (child_server client). right. now left.
      * intros H. destruct (IH H) as [server Hin]. exists server.
        right. right. exact Hin.
    + cbn [fst snd]. intros H. destruct (IH H) as [server Hin].
      exists server. right. exact Hin.
  - cbn [fst snd]. intros H. destruct (IH H) as [server Hin].
    exists server. right. exact Hin.
Qed.

(** The log of a stdio success stands inside the [try] of the stdio
    attempt: when the logger rejects it, the tool that has just
    answered over stdio is called again over the registry. *)
Theorem rejected_log_repeats_the_call
  (t : Transports) (toolName : string) (args : list (string * JsValue))
  (context : option JsValue) (result : JsValue) (failed : bool) (message : string) :
  loggerLog t (mkLogEntry "info" toolName "MCP/JSON-RPC 2.0"
                 (Some (sanitizeArgsForLogging args))) = Ok tt ->
  fst (callTool (mcpStdioPool t) toolName (JObj args) context) = Ok result ->
  isError result = Ok failed ->
  loggerLog t (mkLogEntry (if failed then "warn" else "success") toolName
                 "MCP/stdio" None) = Throw message ->
  (exists server,
      In (Stdio (server, ToolsCall (mkParams toolName (JObj args) None)))
         (snd (callMcpTool t toolName args context)))
  /\ In (Http toolName (JObj args) (metaOf context))
        (snd (callMcpTool t toolName args context)).
Proof.
  intros Hstart Hpool Hres Hlog.
  destruct (callTool_made_a_call _ _ _ _ _ Hpool) as [server Hsent].
  unfold callMcpTool. rewrite Hstart.
  destruct (callTool (mcpStdioPool t) toolName (JObj args) context) as [answer sent].
  cbn [fst snd] in *. subst answer.
  unfold logOutcome. rewrite Hres, Hlog.
  assert (exists outcome later,
             overHttp t toolName (JObj args) context
             = (outcome, Http toolName (JObj args) (metaOf context) :: later))
    as (outcome & later & ->).
  { unfold overHttp. fold (metaOf context).
    destruct (match registryCallTool t toolName (JObj args) (metaOf context) with
              | Ok r => logOutcome t toolName "MCP/HTTP" r
              | Throw m => (Throw (Rejected m), [])
              end) as [[r|e] events]; eauto. }
  cbn [snd]. split.
  - exists server. right. apply in_or_app. left. now apply in_map.
  - right. apply in_or_app. right. right. now left.
Qed.

Definition stdioLogRejects (entry : LogEntry) : Result string unit :=
  if String.eqb (log_protocol entry) "MCP/stdio" then Throw "log store down"
  else Ok tt.

Lemma rejected_log_repeats_the_call_witness :
  (exists server,
      In (Stdio (server, ToolsCall (mkParams "store_message" (JObj []) None)))
         (snd (callMcpTool
                 (mkTransports
                    [mkChild "context" (Ok ["store_message"]) (fun _ => Ok (JObj []))]
                    (fun _ _ _ => Ok (JObj [])) stdioLogRejects)
                 "store_message" [] None)))
  /\ In (Http "store_message" (JObj []) (metaOf None))
        (snd (callMcpTool
                (mkTransports
                   [mkChild "context" (Ok ["store_message"]) (fun _ => Ok (JObj []))]
                   (fun _ _ _ => Ok (JObj [])) stdioLogRejects)
                "store_message" [] None)).
Proof.
  apply (rejected_log_repeats_the_call
           (mkTransports
              [mkChild "context" (Ok ["store_message"]) (fun _ => Ok (JObj []))]
              (fun _ _ _ => Ok (JObj [])) stdioLogRejects)
           "store_message" [] None (JObj []) false "log store down");
    reflexivity.
Defined.








End RedToolsFacts.

(** ** The orchestrator: when a generation is completed *)

Module RespondOrderFacts.
Import Js Respond RespondFacts.





(** A run in which every collaborator answers; the history store
    answers with empty objects, and [JSON.parse] reads the text [{}]. *)
Definition answeringRed : Red :=
  mkRed (fun _ => Ok None) (fun _ => "conv_1")
    (fun n => if (n =? 0)%nat then "msg_user" else "msg_assistant")
    (fun _ _ => Ok "compiled") (fun _ => Ok (Some "gen_1")) (fun _ _ => Ok tt)
    (fun _ _ => Ok (JObj [])) (fun _ => Ok "hello")
    (fun _ => Ok (JArr [])) (fun _ => Ok tt)
    (fun text => if String.eqb text "{}" then Some (JObj []) else None).

Definition plainOptions : InvokeOptions :=
  mkOptions (Some "u1") None None None None false.


(** The run of the witness, in full. *)
Example answered_run :
  respond answeringRed "hi" plainOptions
  = (Ok (AssistantMessage "hello" "conv_1"),
     [FindUser "u1"; GetGraph "red-assistant" "u1"; StartGeneration "conv_1";
      LoggerLog "info" "Starting generation gen_1";
      CallMcpTool "store_message" (userMessageArgs "conv_1" "u1" "hi" "msg_user");
      GraphInvoke "compiled";
      CallMcpTool "store_message"
        (assistantMessageArgs "conv_1" "u1" "hello" "msg_assistant" (JArr []));
      CompleteGeneration "gen_1";
      CallMcpTool "get_conversation_metadata"
        (JObj [("conversationId", JStr "conv_1")]);
      BackgroundTasks "conv_1"]).
Proof. reflexivity. Qed.

(** The history store answers [null] to the metadata request: the
    generation is completed, then the read of [isError] raises and
    [respond] throws; no background task is started. *)
Example null_metadata_fails_after_completion :
  let red :=
    mkRed (fun _ => Ok None) (fun _ => "conv_1") (fun _ => "msg_1")
      (fun _ _ => Ok "compiled") (fun _ => Ok (Some "gen_1")) (fun _ _ => Ok tt)
      (fun _ _ => Ok JNull) (fun _ => Ok "hello")
      (fun _ => Ok (JArr [])) (fun _ => Ok tt) (fun _ => None) in
  respond red "hi" plainOptions
  = (Throw HostTypeError,
     [FindUser "u1"; GetGraph "red-assistant" "u1"; StartGeneration "conv_1";
      LoggerLog "info" "Starting generation gen_1";
      CallMcpTool "store_message" (userMessageArgs "conv_1" "u1" "hi" "msg_1");
      GraphInvoke "compiled";
      CallMcpTool "store_message"
        (assistantMessageArgs "conv_1" "u1" "hello" "msg_1" (JArr []));
      CompleteGeneration "gen_1";
      CallMcpTool "get_conversation_metadata"
        (JObj [("conversationId", JStr "conv_1")])]).
Proof. reflexivity. Qed.

(** The history store refuses the user message: [respond] rethrows,
    the graph is never invoked, and the generation just started is
    left open. *)
Example failed_user_message_leaves_generation_open :
  let red :=
    mkRed (fun _ => Ok None) (fun _ => "conv_1") (fun _ => "msg_1")
      (fun _ _ => Ok "compiled") (fun _ => Ok (Some "gen_1")) (fun _ _ => Ok tt)
      (fun _ _ => Throw "store down") (fun _ => Ok "hello")
      (fun _ => Ok (JArr [])) (fun _ => Ok tt) (fun _ => None) in
  respond red "hi" plainOptions
  = (Throw (Raised "store down"),
     [FindUser "u1"; GetGraph "red-assistant" "u1"; StartGeneration "conv_1";
      LoggerLog "info" "Starting generation gen_1";
      CallMcpTool "store_message"
        (userMessageArgs "conv_1" "u1" "hi" "msg_1")]).
Proof. reflexivity. Qed.

End RespondOrderFacts.

(** ** Validated universal-node configs *)

Module UniversalNodeValidationFacts.
Import Js Str StrFacts StepExecutor UniversalNode UniversalNodeValidation.

(** What the validation establishes for a step. *)
Definition validStep (step : UniversalStep) : Prop :=
  In (step_type step) validTypes
  /\ truthy (step_config step) = true
  /\ (step_type step = "transform" ->
      includesValue validOps (getProp (step_config step) "operation") = true)
  /\ forall (h : Host) (state : JsValue),
       In (dispatch h step state)
          [executeNeuron h (step_config step) state;
           executeTool h (step_config step) state;
           executeTransform h (step_config step) state;
           executeConditional h (step_config step) state;
           executeLoop h (step_config step) state].

Lemma bindR_ok {A B : Type} (m : Result string A) (k : A -> Result string B) (b : B) :
  bindR m k = Ok b -> exists a, m = Ok a /\ k a = Ok b.
Proof. destruct m as [a|e]; [eauto | discriminate]. Qed.

Lemma validateStep_valid (i : nat) (step : UniversalStep) :
  validateStep i step = Ok tt -> validStep step.
Proof.
  unfold validateStep, validStep.
  destruct (is_empty (step_type step)); [discriminate|].
  destruct (truthy (step_config step)); [|discriminate]. cbn [negb].
  destruct (mem (step_type step) validTypes) eqn:Hm; [|discriminate]. cbn [negb].
  intros Hv. apply mem_In in Hm. split; [exact Hm|]. split; [reflexivity|].
  split.
  - intros Et. rewrite Et in Hv. unfold validateByType in Hv. cbn [String.eqb] in Hv.
    change (String.eqb "transform" "neuron") with false in Hv.
    change (String.eqb "transform" "tool") with false in Hv.
    change (String.eqb "transform" "transform") with true in Hv.
    cbv iota in Hv.
    apply bindR_ok in Hv as (_ & _ & Hv).
    apply bindR_ok in Hv as (_ & _ & Hv).
    apply bindR_ok in Hv as (_ & _ & Hv).
    destruct (includesValue validOps (getProp (step_config step) "operation"));
      [reflexivity | discriminate].
  - intros h state. unfold dispatch.
    cbn [validTypes In] in Hm.
    destruct Hm as [<-|[<-|[<-|[<-|[<-|[]]]]]]; cbn; auto 6.
Qed.

Lemma validateSteps_valid (i : nat) (steps : list UniversalStep) :
  validateSteps i steps = Ok tt -> forall step, In step steps -> validStep step.
Proof.
  revert i. induction steps as [|step rest IH]; intros i H s Hin; [destruct Hin|].
  cbn [validateSteps] in H. apply bindR_ok in H as ([] & Hstep & Hrest).
  destruct Hin as [<-|Hin].
  - now apply (validateStep_valid i).
  - now apply (IH (S i)).
Qed.

(** The node looks the config up in the registry: it names a
    [nodeId] and has no steps of its own. *)
Definition registryReference (nodeConfig : UniversalNodeConfig) : bool :=
  truthyStr (cfg_nodeId nodeConfig) && negb (isSome (cfg_steps nodeConfig)).

Lemma resolveConfig_own (env : Env) (nodeConfig : UniversalNodeConfig) :
  registryReference nodeConfig = false ->
  resolveConfig env nodeConfig = Ok nodeConfig.
Proof.
  unfold registryReference, resolveConfig, truthyStr.
  destruct (cfg_nodeId nodeConfig) as [nodeId|]; [|reflexivity].
  now intros ->.
Qed.

Lemma resolveConfig_registry (env : Env) (nodeConfig : UniversalNodeConfig)
  (nodeId : string) :
  registryReference nodeConfig = true ->
  cfg_nodeId nodeConfig = Some nodeId ->
  resolveConfig env nodeConfig
  = match getUniversalNode env nodeId with
    | Ok (Some loaded) => Ok loaded
    | Ok None => Throw ("[UniversalNode] Config not found in registry: " ++ nodeId)
    | Throw e => Throw e
    end.
Proof.
  unfold registryReference, resolveConfig, truthyStr. intros H E.
  rewrite E in *. now rewrite H.
Qed.

(** A config that [validateUniversalNodeConfig] accepts and that is no
    registry reference is the config the universal node runs: the node
    resolves it to itself, the node's own normalisation yields its
    steps, at least one, and the loop of the node runs exactly these
    steps; each of them has a config, is of one of the five step types,
    so that the dispatcher hands it to an executor and never refuses it
    as unknown, and, when it is a transform, names one of the
    operations [map], [filter] and [select].  A validated config that
    names a [nodeId] and has no steps is not run: the node takes the
    config the registry holds for the id, or throws when it holds
    none. *)
Theorem validated_config_reaches_its_executors
  (env : Env) (nodeConfig : UniversalNodeConfig) (state0 : Fields) :
  validateUniversalNodeConfig nodeConfig = Ok tt ->
  exists steps,
    normalizeSteps nodeConfig = Ok steps
    /\ steps <> []
    /\ (forall step, In step steps -> validStep step)
    /\ (registryReference nodeConfig = false ->
        resolveConfig env nodeConfig = Ok nodeConfig
        /\ forall nextCount,
             plusOne (nodeCount state0) = Some nextCount ->
             universalNode env nodeConfig state0
             = runSteps (host env)
                 (set "systemPrefix"
                    (getNodeSystemPrefix env (nodeCount state0) (nodeName nodeConfig))
                    state0)
                 steps 0 [("nodeCounter", nextCount)])
    /\ (registryReference nodeConfig = true ->
        forall nodeId,
          cfg_nodeId nodeConfig = Some nodeId ->
          resolveConfig env nodeConfig
          = match getUniversalNode env nodeId with
            | Ok (Some loaded) => Ok loaded
            | Ok None =>
                Throw ("[UniversalNode] Config not found in registry: " ++ nodeId)
            | Throw e => Throw e
            end).
Proof.
  intros Hvalid.
  assert (exists steps,
             normalizeSteps nodeConfig = Ok steps
             /\ steps <> []
             /\ forall step, In step steps -> validStep step)
    as (steps & Hnorm & Hne & Hsteps).
  { revert Hvalid. unfold validateUniversalNodeConfig, normalizeSteps.
    destruct (cfg_steps nodeConfig) as [[|step rest]|].
    - discriminate.
    - intros H. exists (step :: rest). split; [reflexivity|]. split; [discriminate|].
      now apply (validateSteps_valid 0).
    - destruct (cfg_type nodeConfig) as [type|]; [|discriminate].
      destruct (cfg_config nodeConfig) as [config|]; [|discriminate].
      destruct (negb (is_empty type) && truthy config); [|discriminate].
      intros H. exists [mkStep type config None].
      split; [reflexivity|]. split; [discriminate|].
      now apply (validateSteps_valid 0). }
  exists steps. split; [exact Hnorm|]. split; [exact Hne|]. split; [exact Hsteps|].
  split.
  - intros Hown. split; [now apply resolveConfig_own|].
    intros nextCount Hplus.
    apply UniversalNodeFacts.universalNode_runs;
      [now apply resolveConfig_own | exact Hnorm | exact Hplus].
  - intros Hreg nodeId Hid. now apply resolveConfig_registry.
Qed.

Definition selectConfig : UniversalNodeConfig :=
  mkConfig None None None (Some "transform")
    (Some (JObj [("operation", JStr "select"); ("inputField", JStr "results");
                 ("outputField", JStr "urls")])).

Lemma validated_config_reaches_its_executors_witness :
  exists steps,
    normalizeSteps selectConfig = Ok steps
    /\ steps <> []
    /\ (forall step, In step steps -> validStep step)
    /\ universalNode UniversalNodeFacts.sampleEnv selectConfig []
       = runSteps (host UniversalNodeFacts.sampleEnv)
           [("systemPrefix", JStr "Universal Node")] steps 0
           [("nodeCounter", JNum (num_of_Z 2))].
Proof.
  destruct (validated_config_reaches_its_executors
              UniversalNodeFacts.sampleEnv selectConfig [] eq_refl)
    as (steps & Hnorm & Hne & Hsteps & Hown & _).
  exists steps. split; [exact Hnorm|]. split; [exact Hne|]. split; [exact Hsteps|].
  destruct (Hown eq_refl) as [_ Hruns].
  exact (Hruns (JNum (num_of_Z 2)) eq_refl).
Defined.

(** The validation knows three transform operations; a [set] step,
    which the transform executor runs, is refused. *)
Example set_transform_is_refused :
  validateUniversalNodeConfig
    (mkConfig None None None (Some "transform")
       (Some (JObj [("operation", JStr "set"); ("inputField", JStr "x");
                    ("outputField", JStr "y"); ("value", JBool true)])))
  = Throw ("Step 1 (transform): invalid operation " ++ quoted "set"
           ++ ". Must be one of: map, filter, select").
Proof. reflexivity. Qed.

End UniversalNodeValidationFacts.

(** ** The token transformer on a stream without tags *)

Module PlainStreamFacts.
Import Str StrFacts Streaming.


























End PlainStreamFacts.

(** ** The context kept for a conversation *)

Module ContextSummaryFacts.
Import Js ContextSummary.

(** [s] is [l] with some elements left out, the order kept. *)
Inductive Subsequence {A : Type} : list A -> list A -> Prop :=
| sub_nil : Subsequence [] []
| sub_keep (x : A) (s l : list A) : Subsequence s l -> Subsequence (x :: s) (x :: l)
| sub_skip (x : A) (s l : list A) : Subsequence s l -> Subsequence s (x :: l).

Lemma Subsequence_length {A : Type} (s l : list A) :
  Subsequence s l -> (length s <= length l)%nat.
Proof. induction 1; simpl; lia. Qed.

Lemma Subsequence_full {A : Type} (s l : list A) :
  Subsequence s l -> length s = length l -> s = l.
Proof.
  induction 1 as [|x s l H IH|x s l H IH]; simpl; intros Hlen.
  - reflexivity.
  - f_equal. apply IH. lia.
  - apply Subsequence_length in H. lia.
Qed.

Lemma Subsequence_snoc_keep {A : Type} (s l : list A) (x : A) :
  Subsequence s l -> Subsequence (s ++ [x]) (l ++ [x]).
Proof. induction 1; simpl; repeat constructor; assumption. Qed.

Lemma Subsequence_snoc_skip {A : Type} (s l : list A) (x : A) :
  Subsequence s l -> Subsequence s (l ++ [x]).
Proof.
  induction 1; simpl.
  - apply sub_skip, sub_nil.
  - now apply sub_keep.
  - now apply sub_skip.
Qed.

(** The tokens of the lines of a context. *)
Definition tokensOf (count : string -> nat) (lines : list string) : nat :=
  list_sum (map count lines).

Lemma tokensOf_cons (count : string -> nat) (x : string) (l : list string) :
  tokensOf count (x :: l) = (count x + tokensOf count l)%nat.
Proof. reflexivity. Qed.

Lemma tokensOf_app (count : string -> nat) (a b : list string) :
  tokensOf count (a ++ b) = (tokensOf count a + tokensOf count b)%nat.
Proof. unfold tokensOf. now rewrite map_app, list_sum_app. Qed.

(** What the loop does to its three variables on the messages
    [newestFirst]: [kept] and [dropped] are what it adds in front of
    [retained] and [truncated]. *)
Lemma walk_spec (count : string -> nat) (limit : Z) (newestFirst : list Message) :
  forall w : Walk,
  exists kept dropped,
    retained (walk count limit newestFirst w) = (kept ++ retained w)%list
    /\ truncated (walk count limit newestFirst w) = (dropped ++ truncated w)%list
    /\ totalTokens (walk count limit newestFirst w)
       = (totalTokens w + tokensOf count kept)%nat
    /\ Subsequence kept (map format (List.rev newestFirst))
    /\ (length kept + length dropped = length newestFirst)%nat
    /\ (kept <> [] -> (Z.of_nat (totalTokens (walk count limit newestFirst w)) <= limit)%Z)
    /\ ((Z.of_nat (totalTokens w + tokensOf count (map format newestFirst)) <= limit)%Z ->
        dropped = []).
Proof.
  induction newestFirst as [|msg older IH]; intros w.
  - exists [], []. cbn. repeat split; try constructor; try lia; congruence.
  - cbn [walk List.rev]. rewrite map_app. cbn [map].
    destruct (limit <? Z.of_nat (totalTokens w + count (format msg)))%Z eqn:E.
    + destruct (IH (mkWalk (totalTokens w) (retained w) (msg :: truncated w)))
        as (kept & dropped & Hr & Ht & Htot & Hsub & Hlen & Hfit & Hall).
      cbn [retained truncated totalTokens] in *.
      exists kept, (dropped ++ [msg])%list.
      rewrite <- app_assoc. cbn [app].
      repeat split; auto.
      * now apply Subsequence_snoc_skip.
      * rewrite length_app. cbn [length]. lia.
      * intros Hle. apply Z.ltb_lt in E. rewrite tokensOf_cons in Hle. lia.
    + destruct (IH (mkWalk (totalTokens w + count (format msg))
                      (format msg :: retained w) (truncated w)))
        as (kept & dropped & Hr & Ht & Htot & Hsub & Hlen & Hfit & Hall).
      cbn [retained truncated totalTokens] in *.
      exists (kept ++ [format msg])%list, dropped.
      rewrite <- app_assoc. cbn [app].
      repeat split; auto.
      * rewrite Htot, tokensOf_app, tokensOf_cons. unfold tokensOf at 3. cbn. lia.
      * now apply Subsequence_snoc_keep.
      * rewrite length_app. cbn [length]. lia.
      * intros _. destruct kept as [|k kept'].
        -- rewrite Htot. unfold tokensOf. cbn.
           apply Z.ltb_ge in E. lia.
        -- apply Hfit. discriminate.
      * intros Hle. apply Hall. rewrite tokensOf_cons in Hle. lia.
Qed.

Lemma tokensOf_rev (count : string -> nat) (l : list string) :
  tokensOf count (List.rev l) = tokensOf count l.
Proof.
  induction l as [|x l IH]; [reflexivity|].
  cbn [List.rev]. rewrite tokensOf_app, IH, !tokensOf_cons. unfold tokensOf. cbn. lia.
Qed.

(** The answer of [formatContextWithSummary]: its context is the
    formatted conversation with some messages left out, in the order of
    the conversation; its token count is the count of that context and,
    unless the context is empty, within the limit (which is
    [max_tokens] itself when given, the buffer being subtracted from
    the default only); a summary is made exactly when a message was left
    out; and a conversation that fits the limit as a whole is returned
    whole. *)
Theorem kept_context_fits_the_limit (services : Services)
  (conversation : list Message) (options : option Options) (r : SummaryResponse) :
  formatContextWithSummary services conversation options = Ok r ->
  exists count,
    encoding_for_model services (modelOf options) = Ok count
    /\ Subsequence (context r) (map format conversation)
    /\ tokens r = tokensOf count (context r)
    /\ (context r <> [] -> (Z.of_nat (tokens r) <= tokensMinusBuffer options)%Z)
    /\ (summary r = None <-> context r = map format conversation)
    /\ ((Z.of_nat (tokensOf count (map format conversation))
         <= tokensMinusBuffer options)%Z ->
        summary r = None).
Proof.
  unfold formatContextWithSummary.
  destruct (encoding_for_model services (modelOf options)) as [count|e]; [|discriminate].
  intros H. exists count. split; [reflexivity|].
  destruct (walk_spec count (tokensMinusBuffer options) (List.rev conversation)
              (mkWalk 0 [] []))
    as (kept & dropped & Hr & Ht & Htot & Hsub & Hlen & Hfit & Hall).
  cbn [retained truncated totalTokens] in *.
  rewrite rev_involutive in Hsub. rewrite app_nil_r in Hr, Ht.
  rewrite length_rev in Hlen.
  rewrite map_rev, tokensOf_rev in Hall. cbn [Nat.add] in Hall, Htot.
  set (w := walk count (tokensMinusBuffer options) (List.rev conversation)
              (mkWalk 0 [] [])) in *.
  assert (dropped = [] <-> kept = map format conversation) as Hfull.
  { split.
    - intros ->. apply Subsequence_full; [exact Hsub|].
      cbn [length] in Hlen. rewrite length_map. lia.
    - intros ->. rewrite length_map in Hlen. destruct dropped; [reflexivity|].
      cbn [length] in Hlen. lia. }
  assert (context r = kept /\ tokens r = tokensOf count kept
          /\ (summary r = None <-> dropped = [])) as (Hc & Hn & Hs).
  { rewrite Ht in H. rewrite Hr, Htot in H. destruct dropped as [|d dropped'].
    - injection H as <-. cbn. repeat split; congruence.
    - cbn [app] in H.
      destruct (create services (modelOf options) _ _) as [text|e]; [|discriminate].
      injection H as <-. cbn. repeat split; congruence. }
  rewrite Hc, Hn. repeat split.
  - exact Hsub.
  - intros Hne. rewrite <- Htot. now apply Hfit.
  - intros Hnone. now apply Hfull, Hs.
  - intros Hall'. now apply Hs, Hfull.
  - intros Hle. now apply Hs, Hall.
Qed.

(** A tokenizer counting characters, and a completion that answers. *)
Definition sampleServices : Services :=
  mkServices (fun _ => Ok String.length) (fun _ _ _ => Ok (Some "summary")).

Lemma kept_context_fits_the_limit_witness :
  exists count,
    encoding_for_model sampleServices (modelOf (Some (mkOptions None (Some 20%Z) None)))
    = Ok count
    /\ Subsequence ["Assistant: hello"]
         (map format [mkMessage "user" "a long question"; mkMessage "assistant" "hello"])
    /\ 16%nat = tokensOf count ["Assistant: hello"]
    /\ (["Assistant: hello"] <> [] -> (Z.of_nat 16 <= 20)%Z)
    /\ (Some "summary" = None
        <-> ["Assistant: hello"]
            = map format [mkMessage "user" "a long question"; mkMessage "assistant" "hello"])
    /\ ((Z.of_nat
           (tokensOf count
              (map format [mkMessage "user" "a long question";
                           mkMessage "assistant" "hello"]))
         <= 20)%Z ->
        Some "summary" = None).
Proof.
  exact (kept_context_fits_the_limit sampleServices
           [mkMessage "user" "a long question"; mkMessage "assistant" "hello"]
           (Some (mkOptions None (Some 20%Z) None))
           (mkSummaryResponse ["Assistant: hello"] 16 (Some "summary"))
           eq_refl).
Defined.

End ContextSummaryFacts.

(** ** Tool calls under both retry mechanisms *)

Module ToolExecutorFacts.
Import Js ErrorHandler ErrorHandlerFacts TemplateVariables ToolExecutor.

Definition isCall (e : ToolExecutor.Event) : bool :=
  match e with Called _ _ _ => true | Waited _ => false end.

(** How often the tool was called. *)
Definition calls (events : list ToolExecutor.Event) : nat :=
  List.length (filter isCall events).

(** The parameters every call is made with. *)
Definition renderedParams (config : ToolStepConfig) (state : list (string * JsValue))
  : JsValue :=
  JObj (fst (renderParameters (parameters config) (JObj state))).

(** A call of the tool of [config], with its rendered parameters and
    the metadata of [state]. *)
Definition ofStep (config : ToolStepConfig) (state : list (string * JsValue))
  (e : ToolExecutor.Event) : Prop :=
  match e with
  | Called name params meta =>
      name = toolName config /\ params = renderedParams config state
      /\ meta = metaOf (JObj state)
  | Waited _ => True
  end.

(** The runs the error handler may make of the executor. *)
Definition runsOf (config : ToolStepConfig) : nat :=
  match errorHandling config with
  | Some handling => Z.to_nat (retriesOf handling + 1)
  | None => 1
  end.

(** The turns the retry loop may make in one run. *)
Definition turnsOf (config : ToolStepConfig) : nat :=
  Z.to_nat (maxRetriesOf config + 1).

Lemma calls_app (a b : list ToolExecutor.Event) :
  calls (a ++ b) = (calls a + calls b)%nat.
Proof. unfold calls. now rewrite filter_app, length_app. Qed.

Lemma callLoop_calls (h : Host) (run : nat) (name : string) (params meta : JsValue)
  (remaining : nat) :
  forall attempt,
    (calls (snd (callLoop h run name params meta remaining attempt)) <= S remaining)%nat
    /\ Forall (fun e => match e with
                        | Called n p m => n = name /\ p = params /\ m = meta
                        | Waited _ => True
                        end)
         (snd (callLoop h run name params meta remaining attempt)).
Proof.
  induction remaining as [|remaining IH]; intros attempt; cbn [callLoop];
    destruct (callTool h run attempt name params meta) as [result|message];
    try (cbn; split; [lia | repeat constructor]).
  specialize (IH (S attempt)).
  destruct (callLoop h run name params meta remaining (S attempt)) as [outcome events].
  cbn [snd] in *. destruct IH as [Hn Hall]. split.
  - unfold calls in *. cbn in *. lia.
  - repeat constructor. exact Hall.
Qed.

Lemma callLoop_failing (h : Host) (run : nat) (name : string) (params meta : JsValue)
  (failure : nat -> string) (remaining : nat) :
  forall attempt,
    (forall i, callTool h run i name params meta = Throw (failure i)) ->
    fst (callLoop h run name params meta remaining attempt)
    = Throw (failure (attempt + remaining)%nat)
    /\ calls (snd (callLoop h run name params meta remaining attempt)) = S remaining.
Proof.
  induction remaining as [|remaining IH]; intros attempt Hfail; cbn [callLoop];
    rewrite Hfail.
  - rewrite Nat.add_0_r. split; reflexivity.
  - destruct (IH (S attempt) Hfail) as [Ho Hc].
    destruct (callLoop h run name params meta remaining (S attempt)) as [outcome events].
    cbn [fst snd] in *. split.
    + rewrite Ho. f_equal. f_equal. lia.
    + unfold calls in *. cbn. now rewrite Hc.
Qed.

Lemma internal_calls (h : Host) (run : nat) (config : ToolStepConfig)
  (state : list (string * JsValue)) :
  (calls (snd (executeToolInternal h run config state)) <= turnsOf config)%nat
  /\ Forall (ofStep config state) (snd (executeToolInternal h run config state))
  /\ (truthy (getProp (JObj state) "mcpClient") = false ->
      snd (executeToolInternal h run config state) = []).
Proof.
  unfold executeToolInternal, turnsOf.
  destruct (truthy (getProp (JObj state) "mcpClient")); cbn [negb].
  2: { cbn. split; [lia|]. split; [constructor | reflexivity]. }
  destruct (Z.ltb_spec (maxRetriesOf config) 0).
  { cbn. split; [lia|]. split; [constructor | discriminate]. }
  destruct (callLoop_calls h run (toolName config)
              (JObj (fst (renderParameters (parameters config) (JObj state))))
              (metaOf (JObj state)) (Z.to_nat (maxRetriesOf config)) 0) as [Hn Hall].
  destruct (callLoop h run (toolName config) _ _ _ 0) as [[serialized|message] events];
    cbn [snd] in *.
  all: split; [lia|]; split; [|discriminate].
  all: eapply Forall_impl; [|exact Hall]; intros [name params meta|ms];
    unfold ofStep, renderedParams; auto.
Qed.

Lemma handler_runs (operation : nat -> Result string JsValue)
  (handling : ErrorHandlingConfig) :
  (runs (snd (executeWithErrorHandling operation handling))
   <= Z.to_nat (retriesOf handling + 1))%nat.
Proof.
  unfold executeWithErrorHandling, retriesOf.
  set (retries := match retry handling with Some r => r | None => 0%Z end).
  destruct (Z.ltb_spec retries 0); [cbn; lia|].
  pose proof (attempts_bounded operation
                match retryDelay handling with Some d => d | None => 1000%Z end
                (Z.to_nat retries) 0) as Hb.
  destruct (attempts operation _ (Z.to_nat retries) 0) as [[result|message] events];
    cbn [snd] in *; lia.
Qed.

(** The calls of a handled trace: those of its runs. *)
Lemma handled_calls (f : nat -> list ToolExecutor.Event) (bound : nat)
  (handled : list ErrorHandler.Event) :
  (forall n, calls (f n) <= bound)%nat ->
  (calls (flat_map (fun e => match e with
                             | Run n => f n
                             | Wait ms => [Waited ms]
                             end) handled)
   <= runs handled * bound)%nat.
Proof.
  intros Hf. induction handled as [|[n|ms] handled IH]; cbn [flat_map].
  - cbn. lia.
  - rewrite calls_app. specialize (Hf n). unfold runs in *. cbn [filter isRun List.length].
    lia.
  - rewrite calls_app. unfold runs in *. cbn [filter isRun]. cbn. exact IH.
Qed.

Lemma handled_calls_exact (f : nat -> list ToolExecutor.Event) (count : nat)
  (handled : list ErrorHandler.Event) :
  (forall n, calls (f n) = count) ->
  calls (flat_map (fun e => match e with
                            | Run n => f n
                            | Wait ms => [Waited ms]
                            end) handled)
  = (runs handled * count)%nat.
Proof.
  intros Hf. induction handled as [|[n|ms] handled IH]; cbn [flat_map].
  - reflexivity.
  - rewrite calls_app, Hf, IH. unfold runs. cbn [filter isRun List.length]. lia.
  - rewrite calls_app, IH. unfold runs. cbn [filter isRun]. reflexivity.
Qed.

(** The two retry mechanisms multiply.  Every call of a tool step is
    made with the step's tool name, its rendered parameters and the
    metadata of the state; there are never more than [(retry + 1) *
    (maxRetries + 1)] of them, [maxRetries] counting only with
    [retryOnError] and being [3] when not given; and none is made when
    the state holds no MCP client. *)
Theorem tool_calls_multiply (h : Host) (config : ToolStepConfig)
  (state : list (string * JsValue)) :
  Forall (ofStep config state) (snd (executeTool h config state))
  /\ (calls (snd (executeTool h config state)) <= runsOf config * turnsOf config)%nat
  /\ (truthy (getProp (JObj state) "mcpClient") = false ->
      calls (snd (executeTool h config state)) = 0%nat).
Proof.
  unfold executeTool, runsOf.
  destruct (errorHandling config) as [handling|].
  - pose proof (handler_runs (operation h config state) handling) as Hruns.
    destruct (executeWithErrorHandling (operation h config state) handling)
      as [outcome handled].
    cbn [snd] in *. split; [|split].
    + apply Forall_flat_map. apply Forall_forall. intros [n|ms] _.
      * apply internal_calls.
      * repeat constructor.
    + pose proof (handled_calls
                    (fun n => snd (executeToolInternal h n config state))
                    (turnsOf config) handled
                    (fun n => proj1 (internal_calls h n config state))) as Hc.
      nia.
    + intros Hnone.
      rewrite (handled_calls_exact
                 (fun n => snd (executeToolInternal h n config state)) 0 handled).
      * lia.
      * intros n. now rewrite (proj2 (proj2 (internal_calls h n config state)) Hnone).
  - destruct (internal_calls h 0 config state) as (Hn & Hall & Hnone).
    destruct (executeToolInternal h 0 config state) as [[update|message] events];
      cbn [snd] in *.
    all: split; [exact Hall|]; split; [lia|]; intros H; now rewrite (Hnone H).
Qed.

(** When every call of the tool fails, a step with error handling and
    with [retryOnError] has called it exactly [(retry + 1) *
    (maxRetries + 1)] times, and what is thrown under the [throw]
    strategy is the message of the last call behind the text [Tool step
    failed: ]. *)
Theorem failing_tool_is_called_in_every_turn (h : Host) (config : ToolStepConfig)
  (state : list (string * JsValue)) (handling : ErrorHandlingConfig)
  (failure : nat -> nat -> string) :
  errorHandling config = Some handling ->
  truthy (getProp (JObj state) "mcpClient") = true ->
  (0 <= retriesOf handling)%Z ->
  (0 <= maxRetriesOf config)%Z ->
  (forall run attempt,
      callTool h run attempt (toolName config) (renderedParams config state)
        (metaOf (JObj state))
      = Throw (failure run attempt)) ->
  calls (snd (executeTool h config state))
  = (Z.to_nat (retriesOf handling + 1) * Z.to_nat (maxRetriesOf config + 1))%nat
  /\ (onError handling = None \/ onError handling = Some "throw" ->
      fst (executeTool h config state)
      = Throw (LastError
                 ("Tool step failed: "
                  ++ failure (Z.to_nat (retriesOf handling))
                       (Z.to_nat (maxRetriesOf config))))).
Proof.
  intros Hh Hclient Hr Hm Hfail.
  assert (forall run,
             fst (executeToolInternal h run config state)
             = Throw ("Tool step failed: "
                      ++ failure run (Z.to_nat (maxRetriesOf config)))
             /\ calls (snd (executeToolInternal h run config state))
                = S (Z.to_nat (maxRetriesOf config))) as Hrun.
  { intros run. unfold executeToolInternal. rewrite Hclient. cbn [negb].
    destruct (Z.ltb_spec (maxRetriesOf config) 0); [lia|].
    destruct (callLoop_failing h run (toolName config) (renderedParams config state)
                (metaOf (JObj state)) (failure run) (Z.to_nat (maxRetriesOf config)) 0
                (Hfail run)) as [Ho Hc].
    unfold renderedParams in *.
    destruct (callLoop h run (toolName config) _ _ _ 0) as [outcome events].
    cbn [fst snd] in *. subst outcome. cbn [fst snd]. split; [reflexivity | exact Hc]. }
  unfold executeTool. rewrite Hh.
  assert (executeWithErrorHandling (operation h config state) handling
          = (applyStrategy handling
               (LastError ("Tool step failed: "
                           ++ failure (Z.to_nat (retriesOf handling))
                                (Z.to_nat (maxRetriesOf config)))),
             retried (delayOf handling) 0 (Z.to_nat (retriesOf handling)))) as ->.
  { unfold executeWithErrorHandling. fold (retriesOf handling) (delayOf handling).
    destruct (Z.ltb_spec (retriesOf handling) 0); [lia|].
    rewrite (attempts_until (operation h config state) (delayOf handling)
               (Z.to_nat (retriesOf handling))
               (Throw ("Tool step failed: "
                       ++ failure (Z.to_nat (retriesOf handling))
                            (Z.to_nat (maxRetriesOf config))))
               (Z.to_nat (retriesOf handling)) 0).
    - reflexivity.
    - intros i _. unfold operation. rewrite (proj1 (Hrun _)). eauto.
    - unfold operation. now rewrite (proj1 (Hrun _)).
    - reflexivity. }
  cbn [fst snd]. split.
  - rewrite (handled_calls_exact
               (fun n => snd (executeToolInternal h n config state))
               (S (Z.to_nat (maxRetriesOf config)))).
    + rewrite runs_retried. f_equal; lia.
    + intros n. apply Hrun.
  - unfold applyStrategy. intros [-> | ->]; reflexivity.
Qed.

(** A tool that is down, retried twice by the handler and once by the
    loop. *)
Definition downHost : Host := mkHost (fun _ _ _ _ _ => Throw "down") (fun _ => None).

Definition searchStep : ToolStepConfig :=
  mkToolStep "web_search" [("query", JStr "{{state.query}}")] "results" true (Some 1%Z)
    (Some (mkErrorHandling (Some 2%Z) None JUndefined None)).

Lemma failing_tool_is_called_in_every_turn_witness :
  calls (snd (executeTool downHost searchStep
                [("mcpClient", JObj []); ("query", JStr "rocq")]))
  = 6%nat
  /\ fst (executeTool downHost searchStep
            [("mcpClient", JObj []); ("query", JStr "rocq")])
     = Throw (LastError "Tool step failed: down").
Proof.
  destruct (failing_tool_is_called_in_every_turn downHost searchStep
              [("mcpClient", JObj []); ("query", JStr "rocq")]
              (mkErrorHandling (Some 2%Z) None JUndefined None)
              (fun _ _ => "down"))
    as [Hcalls Hthrown].
  - reflexivity.
  - reflexivity.
  - cbn. lia.
  - cbn. lia.
  - reflexivity.
  - split; [exact Hcalls | exact (Hthrown (or_introl eq_refl))].
Defined.

End ToolExecutorFacts.

(** ** Conditions of a conditional step *)

Module ConditionalExecutorFacts.
Import Js Str StrFacts ExpressionFacts ConditionalExecutor.

(** A character that is neither white space nor part of an operator. *)
Definition plainChar (c : ascii) : bool :=
  negb (is_ws c)
  && negb (existsb (Ascii.eqb c) ["<"; ">"; "="; "!"; "|"; "&"]%char).

(** A text of such characters, not empty: a word, a number, a quoted
    word. *)
Definition token (s : string) : bool :=
  negb (is_empty s) && forallb_str plainChar s.

Lemma plainChar_spec (c : ascii) :
  plainChar c = true ->
  is_ws c = false /\ is_line_terminator c = false
  /\ char_is c "<" = false /\ char_is c ">" = false
  /\ char_is c "!" = false /\ char_is c "=" = false
  /\ Ascii.eqb c "|" = false /\ Ascii.eqb c "&" = false.
Proof.
  destruct c as [[] [] [] [] [] [] [] []]; vm_compute; intros H;
    try discriminate H; repeat split.
Qed.

Lemma token_no_ws (s : string) : token s = true -> no_ws s = true.
Proof.
  unfold token, no_ws. intros H. apply andb_prop in H as [_ H].
  revert H. apply forallb_str_impl. intros c Hc.
  now destruct (plainChar_spec c Hc) as (-> & _).
Qed.

Lemma token_one_line (s : string) : token s = true -> no_line_terminator s = true.
Proof.
  unfold token, no_line_terminator. intros H. apply andb_prop in H as [_ H].
  revert H. apply forallb_str_impl. intros c Hc.
  now destruct (plainChar_spec c Hc) as (_ & -> & _).
Qed.

Lemma token_nonempty (s : string) : token s = true -> s <> "".
Proof. destruct s; [discriminate | discriminate]. Qed.

Lemma trimStart_no_ws (s : string) : no_ws s = true -> trimStart s = s.
Proof.
  destruct s as [|c s]; [reflexivity|]. unfold no_ws. cbn [forallb_str trimStart].
  intros H. apply andb_prop in H as [Hc _]. apply negb_true_iff in Hc. now rewrite Hc.
Qed.

Lemma trim_token (s : string) : token s = true -> trim s = s.
Proof.
  intros H. apply token_no_ws in H. unfold trim.
  now rewrite (trimStart_no_ws s H), (trimEnd_no_ws s H).
Qed.

(** A text between two tokens is left as it is by [trim]. *)
Lemma trim_between (l middle r : string) :
  token l = true -> token r = true -> trim (l ++ middle ++ r) = l ++ middle ++ r.
Proof.
  intros Hl Hr. unfold trim.
  assert (trimStart (l ++ middle ++ r) = l ++ middle ++ r) as ->.
  { destruct l as [|c l]; [discriminate Hl|]. cbn [append trimStart].
    unfold token in Hl. cbn [is_empty negb andb forallb_str] in Hl.
    apply andb_prop in Hl as [Hc _].
    now destruct (plainChar_spec c Hc) as (-> & _). }
  rewrite <- append_assoc. apply trimEnd_append_fixed.
  - now apply token_nonempty.
  - apply trimEnd_no_ws. now apply token_no_ws.
Qed.

(** The characters of [s] that equal [c]. *)
Definition lacks (c : ascii) (s : string) : bool :=
  forallb_str (fun x => negb (Ascii.eqb x c)) s.

Lemma token_lacks (c : ascii) (s : string) :
  plainChar c = false -> token s = true -> lacks c s = true.
Proof.
  intros Hc H. unfold token in H. apply andb_prop in H as [_ H].
  revert H. apply forallb_str_impl. intros x Hx.
  destruct (Ascii.eqb_spec x c) as [->|]; [congruence | reflexivity].
Qed.

(** A needle whose second character does not occur is not included. *)
Lemma includes_lacking (a b : ascii) (needle s : string) :
  lacks b s = true -> includes (String a (String b needle)) s = false.
Proof.
  unfold lacks. induction s as [|c s IH]; intros H; [reflexivity|].
  cbn [forallb_str] in H. apply andb_prop in H as [Hc Hs].
  cbn [includes startsWith]. rewrite (IH Hs).
  destruct s as [|d s]; [now rewrite andb_false_r|].
  cbn [forallb_str] in Hs. apply andb_prop in Hs as [Hd _].
  apply negb_true_iff in Hd. rewrite (Ascii.eqb_sym b d), Hd.
  now rewrite andb_false_r.
Qed.

Lemma lacks_append (c : ascii) (a b : string) :
  lacks c (a ++ b) = lacks c a && lacks c b.
Proof. apply forallb_str_append. Qed.

(** No operator is found among plain characters. *)
Lemma matchOperator_plain (c : ascii) (rest : string) :
  plainChar c = true -> matchOperator (String c rest) = None.
Proof.
  intros Hc. destruct (plainChar_spec c Hc) as (Hws & _ & H1 & H2 & H3 & H4 & _).
  unfold matchOperator. cbn [trimStart]. rewrite Hws, H1, H2, H3, H4. reflexivity.
Qed.

Lemma matchFrom_plain (rest : string) :
  forall lhs, forallb_str plainChar rest = true -> matchFrom lhs rest = None.
Proof.
  induction rest as [|c rest IH]; intros lhs H; [reflexivity|].
  cbn [forallb_str] in H. apply andb_prop in H as [Hc Hrest].
  cbn [matchFrom]. rewrite (matchOperator_plain c rest Hc).
  destruct (plainChar_spec c Hc) as (_ & -> & _). now apply IH.
Qed.

(** The left side grows over plain characters up to the operator. *)
Lemma matchFrom_through (l rest : string) :
  forall lhs,
    forallb_str plainChar l = true ->
    matchFrom lhs (l ++ rest)
    = match matchOperator rest with
      | Some (operator, rhs) => Some (lhs ++ l, operator, rhs)
      | None =>
          match rest with
          | EmptyString => None
          | String c rest' =>
              if is_line_terminator c then None
              else matchFrom ((lhs ++ l) ++ String c EmptyString) rest'
          end
      end.
Proof.
  induction l as [|c l IH]; intros lhs H.
  - cbn [append]. rewrite append_nil_r. destruct rest; reflexivity.
  - cbn [forallb_str] in H. apply andb_prop in H as [Hc Hl].
    cbn [append matchFrom]. rewrite (matchOperator_plain c _ Hc).
    destruct (plainChar_spec c Hc) as (_ & -> & _).
    rewrite (IH _ Hl), !append_assoc. reflexivity.
Qed.

Lemma matchRight_token (r : string) : token r = true -> matchRight (" " ++ r) = Some r.
Proof.
  intros H. unfold matchRight.
  assert (trimStart (" " ++ r) = r) as ->.
  { cbn [append trimStart]. change (is_ws " ") with true. cbv iota.
    apply trimStart_no_ws, token_no_ws, H. }
  rewrite (token_one_line _ H).
  destruct r as [|c r]; [discriminate H | reflexivity].
Qed.

Lemma matchOperator_equals (r : string) :
  token r = true ->
  matchOperator (" === " ++ r) = Some ("===", r)
  /\ matchOperator (" == " ++ r) = Some ("==", r).
Proof.
  intros H. pose proof (matchRight_token r H) as Hright.
  cbn [append] in *. remember (String " " r) as tail eqn:Etail.
  split.
  - unfold matchOperator. cbn [trimStart].
    change (is_ws " ") with true. change (is_ws "=") with false. cbv iota.
    change (char_is "=" "<") with false. change (char_is "=" ">") with false.
    change (char_is "=" "!") with false. change (char_is "=" "=") with true.
    cbv iota beta delta [orb]. now rewrite Hright.
  - unfold matchOperator. cbn [trimStart].
    change (is_ws " ") with true. change (is_ws "=") with false. cbv iota.
    change (char_is "=" "<") with false. change (char_is "=" ">") with false.
    change (char_is "=" "!") with false. change (char_is "=" "=") with true.
    cbv iota beta delta [orb]. rewrite Hright, Etail. reflexivity.
Qed.

Lemma matchComparison_equals (l r : string) :
  token l = true -> token r = true ->
  matchComparison (l ++ " === " ++ r) = Some (l, "===", r)
  /\ matchComparison (l ++ " == " ++ r) = Some (l, "==", r).
Proof.
  intros Hl Hr. destruct l as [|c l]; [discriminate Hl|].
  unfold token in Hl. cbn [is_empty negb andb forallb_str] in Hl.
  apply andb_prop in Hl as [Hc Hl].
  destruct (plainChar_spec c Hc) as (_ & Hlt & _).
  destruct (matchOperator_equals r Hr) as [H3 H2]. cbn [append] in H3, H2.
  unfold matchComparison. rewrite !(append_assoc (String c "") l). cbn [append].
  rewrite Hlt, !(matchFrom_through l _ _ Hl), H3, H2. split; reflexivity.
Qed.

Lemma not_a_literal (l middle r literal : string) :
  lacks " " literal = true -> String.eqb (l ++ " " ++ middle ++ r) literal = false.
Proof.
  intros H. destruct (String.eqb_spec (l ++ " " ++ middle ++ r) literal) as [E|]; [|reflexivity].
  rewrite <- E in H. rewrite lacks_append in H. cbn in H.
  now rewrite andb_false_r in H.
Qed.

(** What the evaluator does once the literals and the logical
    operators are out of the way. *)
Lemma evaluate_simple (parseFloat : string -> Float) (s : string) :
  trim s = s ->
  String.eqb s "true" = false -> String.eqb s "false" = false ->
  lacks "|" s = true -> lacks "&" s = true ->
  evaluateCondition parseFloat s
  = match matchComparison s with
    | Some (lhs, operator, rhs) =>
        let strings :=
          match compareStrings operator (stripQuotes (trim lhs)) (stripQuotes (trim rhs)) with
          | Some answer => answer
          | None => exists_ s
          end in
        if negb (isNaN (parseFloat (trim lhs))) && negb (isNaN (parseFloat (trim rhs)))
        then match compareNumbers operator (parseFloat (trim lhs)) (parseFloat (trim rhs)) with
             | Some answer => answer
             | None => strings
             end
        else strings
    | None => exists_ s
    end.
Proof.
  intros Ht H1 H2 Hor Hand. unfold evaluateCondition. cbn [evaluateWith].
  rewrite Ht, H1, H2.
  rewrite (includes_lacking " " "|" "| " s Hor), (includes_lacking " " "&" "& " s Hand).
  destruct (matchComparison s) as [[[lhs operator] rhs]|]; reflexivity.
Qed.

Lemma length_trimStart (s : string) : (String.length (trimStart s) <= String.length s)%nat.
Proof.
  induction s as [|c s IH]; [reflexivity|]. cbn [trimStart].
  destruct (is_ws c); cbn [String.length]; lia.
Qed.

Lemma length_trimEnd (s : string) : (String.length (trimEnd s) <= String.length s)%nat.
Proof.
  induction s as [|c s IH]; [reflexivity|]. cbn [trimEnd].
  destruct (is_ws c && is_empty (trimEnd s)); cbn [String.length]; lia.
Qed.

Lemma length_trim (s : string) : (String.length (trim s) <= String.length s)%nat.
Proof.
  unfold trim. pose proof (length_trimEnd (trimStart s)). pose proof (length_trimStart s).
  lia.
Qed.

Lemma splitOn_parts (sep : string) (s : string) :
  forall skip p, In p (splitOn sep skip s) -> (String.length p <= String.length s)%nat.
Proof.
  induction s as [|c s IH]; intros skip p Hin.
  - destruct Hin as [<-|[]]. reflexivity.
  - cbn [splitOn] in Hin. destruct skip as [|k].
    + destruct (startsWith sep (String c s)).
      * destruct Hin as [<-|Hin]; [cbn; lia|]. apply IH in Hin. cbn [String.length]. lia.
      * destruct (splitOn sep 0 s) as [|q qs] eqn:E.
        -- destruct Hin as [<-|[]]. cbn. lia.
        -- destruct Hin as [<-|Hin].
           ++ pose proof (IH 0%nat q) as Hq. rewrite E in Hq.
              specialize (Hq (or_introl eq_refl)). cbn [String.length]. lia.
           ++ pose proof (IH 0%nat p) as Hp. rewrite E in Hp.
              specialize (Hp (or_intror Hin)). cbn [String.length]. lia.
    + apply IH in Hin. cbn [String.length]. lia.
Qed.

(** A part of a text that holds the separator is shorter than the
    text. *)
Lemma splitOn_shorter (a : ascii) (sep' s : string) :
  forall p,
    includes (String a sep') s = true ->
    In p (splitOn (String a sep') 0 s) ->
    (String.length p < String.length s)%nat.
Proof.
  induction s as [|c s IH]; intros p Hinc Hin; [discriminate Hinc|].
  cbn [splitOn] in Hin. cbn [includes] in Hinc.
  destruct (startsWith (String a sep') (String c s)).
  - destruct Hin as [<-|Hin]; [cbn; lia|].
    apply splitOn_parts in Hin. cbn [String.length]. lia.
  - destruct (splitOn (String a sep') 0 s) as [|q qs] eqn:E.
    + destruct s as [|d s']; cbn [splitOn] in E; [discriminate E|].
      destruct (startsWith (String a sep') (String d s')); [discriminate E|].
      destruct (splitOn (String a sep') 0 s'); discriminate E.
    + destruct Hin as [<-|Hin].
      * specialize (IH q Hinc (or_introl eq_refl)). cbn [String.length]. lia.
      * specialize (IH p Hinc (or_intror Hin)). cbn [String.length]. lia.
Qed.

Lemma existsb_agree {A : Type} (f g : A -> bool) (l : list A) :
  (forall x, In x l -> f x = g x) -> existsb f l = existsb g l.
Proof.
  induction l as [|x l IH]; intros H; [reflexivity|]. cbn [existsb].
  rewrite (H x (or_introl eq_refl)), IH; [reflexivity|].
  intros y Hy. apply H. now right.
Qed.

Lemma forallb_agree {A : Type} (f g : A -> bool) (l : list A) :
  (forall x, In x l -> f x = g x) -> forallb f l = forallb g l.
Proof.
  induction l as [|x l IH]; intros H; [reflexivity|]. cbn [forallb].
  rewrite (H x (or_introl eq_refl)), IH; [reflexivity|].
  intros y Hy. apply H. now right.
Qed.

(** The fuel [evaluateCondition] gives is enough: more of it changes
    nothing. *)
Lemma evaluateWith_enough (parseFloat : string -> Float) (n : nat) :
  forall fuel s,
    (String.length s < n)%nat -> (n <= fuel)%nat ->
    evaluateWith parseFloat fuel s = evaluateWith parseFloat n s.
Proof.
  induction n as [|n IH]; intros fuel s Hlen Hfuel; [lia|].
  destruct fuel as [|fuel]; [lia|].
  cbn [evaluateWith].
  destruct (String.eqb (trim s) "true"); [reflexivity|].
  destruct (String.eqb (trim s) "false"); [reflexivity|].
  pose proof (length_trim s) as Ht.
  destruct (includes " || " (trim s)) eqn:Eor.
  - apply existsb_agree. intros part Hin.
    pose proof (splitOn_shorter _ _ _ _ Eor Hin). pose proof (length_trim part).
    apply IH; lia.
  - destruct (includes " && " (trim s)) eqn:Eand; [|reflexivity].
    apply forallb_agree. intros part Hin.
    pose proof (splitOn_shorter _ _ _ _ Eand Hin). pose proof (length_trim part).
    apply IH; lia.
Qed.

(** A rendered value on its own counts as true unless it is one of
    [false], [0], [null] and [undefined]: the text is compared, so
    [0.0], [False] and [no] count as true.  Nothing is parsed for it. *)
Theorem single_value_is_true_unless_listed (parseFloat : string -> Float) (t : string) :
  token t = true ->
  evaluateCondition parseFloat t = negb (mem t ["false"; "0"; "null"; "undefined"]).
Proof.
  intros H.
  destruct (String.eqb_spec t "true") as [->|Htrue]; [reflexivity|].
  destruct (String.eqb_spec t "false") as [->|Hfalse]; [reflexivity|].
  rewrite evaluate_simple.
  - assert (matchComparison t = None) as ->.
    { destruct t as [|c t]; [reflexivity|].
      unfold token in H. cbn [is_empty negb andb forallb_str] in H.
      apply andb_prop in H as [Hc Ht].
      cbn [matchComparison]. destruct (plainChar_spec c Hc) as (_ & -> & _).
      now apply matchFrom_plain. }
    unfold exists_, mem. cbn [existsb]. apply String.eqb_neq in Hfalse.
    rewrite Hfalse. destruct t; [discriminate H|]. cbn [is_empty negb andb orb].
    now rewrite orb_false_r, !negb_orb, andb_assoc.
  - now apply trim_token.
  - now apply String.eqb_neq.
  - now apply String.eqb_neq.
  - now apply token_lacks.
  - now apply token_lacks.
Qed.

Lemma single_value_is_true_unless_listed_witness :
  evaluateCondition (fun _ => FNaN) "0.0" = true.
Proof.
  apply (single_value_is_true_unless_listed (fun _ => FNaN) "0.0"). reflexivity.
Defined.

(** The two equalities differ.  Between two values, [===] always
    compares the texts (quotes stripped), also when both are numbers,
    while [==] compares the numbers when [parseFloat] reads a number on
    both sides and the texts otherwise. *)
Theorem triple_equals_compares_text (parseFloat : string -> Float) (l r : string) :
  token l = true -> token r = true ->
  evaluateCondition parseFloat (l ++ " === " ++ r)
  = String.eqb (stripQuotes l) (stripQuotes r)
  /\ evaluateCondition parseFloat (l ++ " == " ++ r)
     = (if isNaN (parseFloat l) || isNaN (parseFloat r)
        then String.eqb (stripQuotes l) (stripQuotes r)
        else float_eqb (parseFloat l) (parseFloat r)).
Proof.
  intros Hl Hr.
  destruct (matchComparison_equals l r Hl Hr) as [H3 H2].
  pose proof (token_lacks "|" l eq_refl Hl) as Hl1.
  pose proof (token_lacks "&" l eq_refl Hl) as Hl2.
  pose proof (token_lacks "|" r eq_refl Hr) as Hr1.
  pose proof (token_lacks "&" r eq_refl Hr) as Hr2.
  split.
  - rewrite evaluate_simple.
    + rewrite H3. cbv zeta. rewrite (trim_token l Hl), (trim_token r Hr).
      cbn [compareStrings compareNumbers String.eqb Ascii.eqb Bool.eqb orb].
      destruct (negb (isNaN (parseFloat l)) && negb (isNaN (parseFloat r))); reflexivity.
    + now apply trim_between.
    + now apply (not_a_literal l "=== " r).
    + now apply (not_a_literal l "=== " r).
    + rewrite !lacks_append, Hl1, Hr1. reflexivity.
    + rewrite !lacks_append, Hl2, Hr2. reflexivity.
  - rewrite evaluate_simple.
    + rewrite H2. cbv zeta. rewrite (trim_token l Hl), (trim_token r Hr).
      cbn [compareStrings compareNumbers String.eqb Ascii.eqb Bool.eqb orb].
      destruct (isNaN (parseFloat l)), (isNaN (parseFloat r)); reflexivity.
    + now apply trim_between.
    + now apply (not_a_literal l "== " r).
    + now apply (not_a_literal l "== " r).
    + rewrite !lacks_append, Hl1, Hr1. reflexivity.
    + rewrite !lacks_append, Hl2, Hr2. reflexivity.
Qed.

(** A [parseFloat] for plain decimals. *)
Definition decimals (s : string) : Float :=
  match parse_decimal s with
  | Some n => FNum n
  | None => FNaN
  end.

Lemma triple_equals_compares_text_witness :
  evaluateCondition decimals "5.0 === 5" = false
  /\ evaluateCondition decimals "5.0 == 5" = true.
Proof.
  exact (triple_equals_compares_text decimals "5.0" "5" eq_refl eq_refl).
Defined.

End ConditionalExecutorFacts.

(** ** Conditions of a filter *)

Module TransformConditionFacts.
Import Js Str StrFacts ExpressionFacts ConditionalExecutor ConditionalExecutorFacts.
Import TransformCondition.

Lemma transform_operator_plain (c : ascii) (rest : string) :
  plainChar c = true -> matchOperator (String c rest) = None.
Proof.
  intros Hc. destruct (plainChar_spec c Hc) as (Hws & _ & H1 & H2 & H3 & H4 & _).
  unfold matchOperator. cbn [trimStart]. rewrite Hws, H1, H2, H3, H4. reflexivity.
Qed.

Lemma transform_left_grows (l rest : string) :
  forall lhs,
    forallb_str plainChar l = true ->
    matchFrom lhs (l ++ rest)
    = match matchOperator rest with
      | Some (operator, rhs) => Some (lhs ++ l, operator, rhs)
      | None =>
          match rest with
          | EmptyString => None
          | String c rest' =>
              if is_line_terminator c then None
              else matchFrom ((lhs ++ l) ++ String c EmptyString) rest'
          end
      end.
Proof.
  induction l as [|c l IH]; intros lhs H.
  - cbn [append]. rewrite append_nil_r. destruct rest; reflexivity.
  - cbn [forallb_str] in H. apply andb_prop in H as [Hc Hl].
    cbn [append matchFrom]. rewrite (transform_operator_plain c _ Hc).
    destruct (plainChar_spec c Hc) as (_ & -> & _).
    rewrite (IH _ Hl), !append_assoc. reflexivity.
Qed.

(** The operators of the pattern. *)
Definition operators : list string := ["<"; "<="; ">"; ">="; "=="; "!="].

Lemma transform_operator_found (operator r : string) :
  In operator operators -> token r = true ->
  matchOperator (" " ++ operator ++ " " ++ r) = Some (operator, r).
Proof.
  intros Hop H. pose proof (matchRight_token r H) as Hright.
  cbn [append] in Hright. remember (String " " r) as tail eqn:Etail.
  unfold operators in Hop. cbn [In] in Hop.
  repeat (destruct Hop as [<-|Hop]); [..|destruct Hop];
    cbn [append]; rewrite <- ?Etail; unfold matchOperator; cbn [trimStart];
    change (is_ws " ") with true;
    change (is_ws "<") with false; change (is_ws ">") with false;
    change (is_ws "=") with false; change (is_ws "!") with false; cbv iota;
    change (char_is "<" "<") with true; change (char_is ">" "<") with false;
    change (char_is ">" ">") with true;
    change (char_is "=" "<") with false; change (char_is "=" ">") with false;
    change (char_is "=" "!") with false; change (char_is "=" "=") with true;
    change (char_is "!" "<") with false; change (char_is "!" ">") with false;
    change (char_is "!" "!") with true;
    cbv iota beta delta [orb]; rewrite ?Hright; rewrite ?Etail; reflexivity.
Qed.

Lemma operators_lack (c : ascii) (operator : string) :
  In operator operators -> existsb (Ascii.eqb c) ["<"; ">"; "="; "!"]%char = false ->
  lacks c operator = true.
Proof.
  intros Hop Hc. cbn [existsb] in Hc.
  repeat (apply orb_false_elim in Hc as [? Hc]).
  unfold operators in Hop. cbn [In] in Hop.
  repeat (destruct Hop as [<-|Hop]); [..|destruct Hop];
    cbn [lacks forallb_str]; rewrite ?(Ascii.eqb_sym _ c);
    repeat match goal with H : Ascii.eqb c _ = false |- _ => rewrite H; clear H end;
    reflexivity.
Qed.

Lemma with_space_differs (l rest literal : string) :
  lacks " " literal = true -> String.eqb (l ++ " " ++ rest) literal = false.
Proof.
  intros H. destruct (String.eqb_spec (l ++ " " ++ rest) literal) as [E|]; [|reflexivity].
  rewrite <- E in H. rewrite lacks_append in H. cbn in H.
  now rewrite andb_false_r in H.
Qed.

(** A comparison in a filter or append condition is a comparison of
    numbers only.  Between two values it is decided by the numbers
    when [parseFloat] reads one on both sides; when a side is not a
    number the condition is true, whatever the operator and the values,
    so that a filter comparing texts keeps every item. *)
Theorem comparison_of_texts_is_true (parseFloat : string -> Float)
  (l operator r : string) :
  token l = true -> token r = true -> In operator operators ->
  (isNaN (parseFloat l) || isNaN (parseFloat r) = true ->
   evaluateCondition parseFloat (l ++ " " ++ operator ++ " " ++ r) = true)
  /\ (isNaN (parseFloat l) || isNaN (parseFloat r) = false ->
      compareNumbers operator (parseFloat l) (parseFloat r)
      = Some (evaluateCondition parseFloat (l ++ " " ++ operator ++ " " ++ r))).
Proof.
  intros Hl Hr Hop.
  assert (matchComparison (l ++ " " ++ operator ++ " " ++ r) = Some (l, operator, r))
    as Hmatch.
  { pose proof (transform_operator_found operator r Hop Hr) as Hfound.
    destruct l as [|c l]; [discriminate Hl|].
    unfold token in Hl. cbn [is_empty negb andb forallb_str] in Hl.
    apply andb_prop in Hl as [Hc Hl'].
    destruct (plainChar_spec c Hc) as (_ & Hlt & _).
    unfold matchComparison. cbn [append] in *. rewrite Hlt.
    now rewrite (transform_left_grows l _ _ Hl'), Hfound. }
  assert (trim (l ++ " " ++ operator ++ " " ++ r) = l ++ " " ++ operator ++ " " ++ r)
    as Htrim.
  { replace (l ++ " " ++ operator ++ " " ++ r)
      with (l ++ (" " ++ operator ++ " ") ++ r)
      by (cbn [append]; now rewrite append_assoc).
    now apply trim_between. }
  assert (negb (is_empty (l ++ " " ++ operator ++ " " ++ r))
          && negb (String.eqb (l ++ " " ++ operator ++ " " ++ r) "0") = true) as Hlast.
  { rewrite (with_space_differs l _ "0" eq_refl).
    destruct l; [discriminate Hl | reflexivity]. }
  unfold evaluateCondition. rewrite Htrim.
  rewrite (with_space_differs l _ "true" eq_refl),
          (with_space_differs l _ "false" eq_refl), Hmatch, Hlast.
  rewrite (trim_token l Hl), (trim_token r Hr).
  assert (exists answer,
             compareNumbers operator (parseFloat l) (parseFloat r) = Some answer)
    as [answer Hanswer].
  { unfold operators in Hop. cbn [In] in Hop.
    repeat (destruct Hop as [<-|Hop]); [..|destruct Hop]; eexists; reflexivity. }
  rewrite Hanswer.
  destruct (isNaN (parseFloat l)), (isNaN (parseFloat r)); cbn [negb andb orb];
    split; intros H; try discriminate H; reflexivity.
Qed.

Lemma comparison_of_texts_is_true_witness :
  evaluateCondition ConditionalExecutorFacts.decimals "video == audio" = true.
Proof.
  destruct (comparison_of_texts_is_true ConditionalExecutorFacts.decimals
              "video" "==" "audio" eq_refl eq_refl)
    as [Htexts _].
  - unfold operators. cbn [In]. do 4 right. now left.
  - apply Htexts. reflexivity.
Defined.

End TransformConditionFacts.
